(** * The Bases bridge: value resolver, formula evaluator, filter evaluator,
      query planner and upsert path of the obsidian-bases-bridge plugin.

    A shallow embedding of the plugin's engine (the [BasesBridgePlugin] class
    and its helpers) together with the properties of the engine that the
    design document states.

    Conventions of the embedding.
    - A JavaScript string is a [string]: a sequence of code units below 256.
      All the syntax of the filter and formula languages is ASCII.
    - A JavaScript number is a binary64 float, [spec_float] with precision 53
      and maximal exponent 1024.
    - A JavaScript value of type [any] is a [value]; an object is an
      association list in insertion order, with distinct keys.
    - A function that can recurse without bound (a formula that refers to
      itself) takes a fuel argument and returns [None] when the fuel runs
      out; [None] also stands for a thrown exception. *)

From Stdlib Require Import ZArith List Bool Ascii String Lia.
From Stdlib Require Import Floats.SpecFloat Numbers.DecimalString.
From Stdlib Require Import Sorting.Sorted Sorting.Permutation.
Import ListNotations.

Open Scope string_scope.

(** ** Characters and strings *)

Module Js.

Definition code (c : ascii) : nat := nat_of_ascii c.

Definition chr (n : nat) : ascii := ascii_of_nat n.

Definition between (lo hi : nat) (c : ascii) : bool :=
  (lo <=? code c)%nat && (code c <=? hi)%nat.

Definition isCode (n : nat) (c : ascii) : bool := (code c =? n)%nat.

(** LineTerminator: LF and CR (U+2028 and U+2029 are beyond the code units
    of the model). *)
Definition isLineTerminator (c : ascii) : bool := isCode 10 c || isCode 13 c.

(** WhiteSpace and LineTerminator, the characters of [\s] and of [trim]:
    TAB, LF, VT, FF, CR, SP and NBSP. *)
Definition isWhiteSpace (c : ascii) : bool :=
  between 9 13 c || isCode 32 c || isCode 160 c.

Definition isDigit (c : ascii) : bool := between 48 57 c.

(** [\p{L}] on the code units below 256. *)
Definition isLetter (c : ascii) : bool :=
  between 65 90 c || between 97 122 c || isCode 170 c || isCode 181 c || isCode 186 c
  || between 192 214 c || between 216 246 c || between 248 255 c.

(** [\p{N}] on the code units below 256. *)
Definition isNumber (c : ascii) : bool :=
  isDigit c || isCode 178 c || isCode 179 c || isCode 185 c || between 188 190 c.

(** The class [[\p{L}\p{N}_-]] of the reference-token pattern. *)
Definition isRefChar (c : ascii) : bool :=
  isLetter c || isNumber c || isCode 95 c || isCode 45 c.

Definition toLowerAscii (c : ascii) : ascii :=
  if between 65 90 c then chr (code c + 32) else c.

(** Canonicalisation of the [i] flag (without [u]): simple upper-casing; on
    the letters used by the patterns it coincides with comparing the
    lower-cased ASCII letters. *)
Definition eqChar (c d : ascii) : bool := Ascii.eqb c d.

Definition eqCharI (c d : ascii) : bool :=
  Ascii.eqb (toLowerAscii c) (toLowerAscii d).

Fixpoint trimStart (s : string) : string :=
  match s with
  | EmptyString => EmptyString
  | String c s' => if isWhiteSpace c then trimStart s' else s
  end.

Fixpoint trimEnd (s : string) : string :=
  match s with
  | EmptyString => EmptyString
  | String c s' =>
      match trimEnd s' with
      | EmptyString => if isWhiteSpace c then EmptyString else String c EmptyString
      | t => String c t
      end
  end.

Definition trim (s : string) : string := trimEnd (trimStart s).

Definition isEmpty (s : string) : bool :=
  match s with EmptyString => true | _ => false end.

Definition startsWith (s p : string) : bool := String.prefix p s.

Definition endsWith (s p : string) : bool :=
  let n := String.length s in
  let m := String.length p in
  (m <=? n)%nat && String.eqb (substring (n - m) m s) p.

(** [s.slice(a, b)] and [s.slice(a)], negative indices counted from the end. *)
Definition relIndex (len i : Z) : Z :=
  if (i <? 0)%Z then Z.max (len + i) 0 else Z.min i len.

Definition slice (s : string) (a b : Z) : string :=
  let len := Z.of_nat (String.length s) in
  let from := relIndex len a in
  let to := relIndex len b in
  substring (Z.to_nat from) (Z.to_nat (to - from)) s.

Definition sliceFrom (s : string) (a : Z) : string :=
  slice s a (Z.of_nat (String.length s)).

Definition includes (s needle : string) : bool :=
  match String.index 0 needle s with Some _ => true | None => false end.

Fixpoint mapChars (f : ascii -> ascii) (s : string) : string :=
  match s with
  | EmptyString => EmptyString
  | String c s' => String (f c) (mapChars f s')
  end.

(** [s.replace(/\\/g, "/")] *)
Definition backslashesToSlashes (s : string) : string :=
  mapChars (fun c => if isCode 92 c then "/"%char else c) s.

(** [s.split(sep)] for a one-character separator. *)
Fixpoint splitChar (sep : ascii) (s : string) : list string :=
  match s with
  | EmptyString => [EmptyString]
  | String c s' =>
      if Ascii.eqb c sep then EmptyString :: splitChar sep s'
      else match splitChar sep s' with
           | [] => [String c EmptyString]
           | p :: ps => String c p :: ps
           end
  end.

(** [s.lastIndexOf(c)], [None] for -1. *)
Fixpoint lastIndexOfChar (c : ascii) (s : string) : option nat :=
  match s with
  | EmptyString => None
  | String d s' =>
      match lastIndexOfChar c s' with
      | Some i => Some (S i)
      | None => if Ascii.eqb c d then Some 0%nat else None
      end
  end.

End Js.

(** ** Regular expressions

    The engine dispatches on regular expressions.  They are kept as syntax
    and run by a backtracking matcher with the priorities of the ECMAScript
    one: alternatives left to right, greedy repetition longest first, lazy
    repetition shortest first. *)

Module Regex.

Inductive regex : Type :=
| Eps
| Chr (p : ascii -> bool)
| Seq (r1 r2 : regex)
| Alt (r1 r2 : regex)
| Star (greedy : bool) (r : regex)
| Group (i : nat) (r : regex)
| Eos.

Definition captures := list (nat * string).

Definition consumed (s rest : string) : string :=
  substring 0 (String.length s - String.length rest) s.

(** [run r s caps k] matches [r] at the head of [s] and hands the rest of
    the input to the continuation [k]; a failing continuation makes the
    matcher backtrack. *)
Fixpoint run {R : Type} (r : regex) (s : string) (caps : captures)
    (k : string -> captures -> option R) {struct r} : option R :=
  match r with
  | Eps => k s caps
  | Chr p =>
      match s with
      | String c s' => if p c then k s' caps else None
      | EmptyString => None
      end
  | Seq r1 r2 => run r1 s caps (fun s1 caps1 => run r2 s1 caps1 k)
  | Alt r1 r2 =>
      match run r1 s caps k with
      | Some x => Some x
      | None => run r2 s caps k
      end
  | Star greedy r' =>
      (fix loop (n : nat) (s : string) (caps : captures) {struct n} : option R :=
         if greedy then
           match
             match n with
             | O => None
             | S n' =>
                 run r' s caps (fun s1 caps1 =>
                   if (String.length s1 <? String.length s)%nat
                   then loop n' s1 caps1 else None)
             end
           with
           | Some x => Some x
           | None => k s caps
           end
         else
           match k s caps with
           | Some x => Some x
           | None =>
               match n with
               | O => None
               | S n' =>
                   run r' s caps (fun s1 caps1 =>
                     if (String.length s1 <? String.length s)%nat
                     then loop n' s1 caps1 else None)
               end
           end) (String.length s) s caps
  | Group i r' =>
      run r' s caps (fun s1 caps1 => k s1 ((i, consumed s s1) :: caps1))
  | Eos =>
      match s with
      | EmptyString => k s caps
      | _ => None
      end
  end.

(** A match anchored at the start of the input: the captures and the rest
    of the input after the match. *)
Definition matchAt (r : regex) (s : string) : option (captures * string) :=
  run r s [] (fun rest caps => Some (caps, rest)).

(** [re.exec(s)] for a pattern that starts with [^]. *)
Definition exec (r : regex) (s : string) : option captures :=
  option_map fst (matchAt r s).

Definition test (r : regex) (s : string) : bool :=
  match exec r s with Some _ => true | None => false end.

(** The text of capture group [i]; the groups of the patterns below take
    part in every match. *)
Fixpoint group (i : nat) (caps : captures) : string :=
  match caps with
  | [] => EmptyString
  | (j, s) :: rest => if (i =? j)%nat then s else group i rest
  end.

(** A search that is not anchored: the leftmost start at which the pattern
    matches; the result is the text before the match and the rest after. *)
Fixpoint search (r : regex) (s : string) : option (string * string) :=
  match matchAt r s with
  | Some (_, rest) => Some (EmptyString, rest)
  | None =>
      match s with
      | EmptyString => None
      | String c s' =>
          match search r s' with
          | Some (before, rest) => Some (String c before, rest)
          | None => None
          end
      end
  end.

(** [s.replace(re, empty)] for a pattern without the [g] flag, and with it
    when the pattern ends with [$]. *)
Definition remove (r : regex) (s : string) : string :=
  match search r s with
  | Some (before, rest) => before ++ rest
  | None => s
  end.

(** Pattern syntax. *)
Fixpoint lit (s : string) : regex :=
  match s with
  | EmptyString => Eps
  | String c EmptyString => Chr (Js.eqChar c)
  | String c s' => Seq (Chr (Js.eqChar c)) (lit s')
  end.

Fixpoint litI (s : string) : regex :=
  match s with
  | EmptyString => Eps
  | String c EmptyString => Chr (Js.eqCharI c)
  | String c s' => Seq (Chr (Js.eqCharI c)) (litI s')
  end.

Definition star (r : regex) : regex := Star true r.
Definition lazyStar (r : regex) : regex := Star false r.
Definition plus (r : regex) : regex := Seq r (Star true r).
Definition opt (r : regex) : regex := Alt r Eps.

(** [.] without the [s] flag, [.] with it, [\s], [\d], [[\p{L}\p{N}_-]],
    [[^\)]]. *)
Definition dot : regex := Chr (fun c => negb (Js.isLineTerminator c)).
Definition dotAll : regex := Chr (fun _ => true).
Definition space : regex := Chr Js.isWhiteSpace.
Definition digit : regex := Chr Js.isDigit.
Definition refChar : regex := Chr Js.isRefChar.
Definition notCloseParen : regex := Chr (fun c => negb (Js.isCode 41 c)).

Fixpoint seqs (rs : list regex) : regex :=
  match rs with
  | [] => Eps
  | [r] => r
  | r :: rs' => Seq r (seqs rs')
  end.

Fixpoint alts (rs : list regex) : regex :=
  match rs with
  | [] => Chr (fun _ => false)
  | [r] => r
  | r :: rs' => Alt r (alts rs')
  end.

End Regex.

Import Regex.

(** ** Numbers: binary64 *)

Module Num.

Definition number : Type := spec_float.

Definition prec : Z := 53.
Definition emax : Z := 1024.

Definition NaN : number := S754_nan.
Definition Infinity : number := S754_infinity false.
Definition ofZ (z : Z) : number := binary_normalize prec emax z 0 false.

(** [Number.isFinite] *)
Definition isFinite (x : number) : bool :=
  match x with
  | S754_zero _ | S754_finite _ _ _ => true
  | S754_infinity _ | S754_nan => false
  end.

(** [x === y], [x < y], [x <= y], [x > y], [x >= y] on numbers. *)
Definition eqb (x y : number) : bool := SFeqb x y.
Definition ltb (x y : number) : bool := SFltb x y.
Definition leb (x y : number) : bool := SFleb x y.
Definition gtb (x y : number) : bool := SFltb y x.
Definition geb (x y : number) : bool := SFleb y x.

(** ToBoolean on a number: false for zero and NaN. *)
Definition toBoolean (x : number) : bool :=
  match x with
  | S754_zero _ | S754_nan => false
  | _ => true
  end.

(** [Math.trunc] of a finite number, as an integer. *)
Definition truncZ (x : number) : Z :=
  match x with
  | S754_finite s m e => cond_Zopp s (Z.shiftl (Zpos m) e)
  | _ => 0%Z
  end.

(** The number nearest to [n * 10^e10], negated when [neg] is set. *)
Definition ofDecimal (neg : bool) (n : Z) (e10 : Z) : number :=
  match n with
  | Zpos p =>
      if (0 <=? e10)%Z
      then binary_normalize prec emax (cond_Zopp neg (n * 10 ^ e10)) 0 neg
      else SFdiv prec emax (S754_finite neg p 0)
                 (S754_finite false (Z.to_pos (10 ^ (- e10))) 0)
  | _ => S754_zero neg
  end.

Definition digitOf (base : nat) (c : ascii) : option Z :=
  let n := Js.code c in
  let d :=
    if Js.isDigit c then Some (n - 48)%nat
    else if Js.between 97 122 c then Some (n - 87)%nat
    else if Js.between 65 90 c then Some (n - 55)%nat
    else None in
  match d with
  | Some v => if (v <? base)%nat then Some (Z.of_nat v) else None
  | None => None
  end.

(** The longest run of digits at the head of [s]: its value, its length and
    the rest. *)
Fixpoint digits (base : nat) (s : string) (acc : Z) (len : nat) : Z * nat * string :=
  match s with
  | String c s' =>
      match digitOf base c with
      | Some d => digits base s' (acc * Z.of_nat base + d) (S len)
      | None => (acc, len, s)
      end
  | EmptyString => (acc, len, s)
  end.

Definition signOf (s : string) : bool * string :=
  match s with
  | String "-"%char s' => (true, s')
  | String "+"%char s' => (false, s')
  | _ => (false, s)
  end.

(** ExponentPart, when present and well formed. *)
Definition exponentPart (s : string) : option Z :=
  match s with
  | EmptyString => Some 0%Z
  | String c s' =>
      if Js.isCode 101 c || Js.isCode 69 c then
        let '(neg, t) := signOf s' in
        match digits 10 t 0 0 with
        | (v, S _, EmptyString) => Some (cond_Zopp neg v)
        | _ => None
        end
      else None
  end.

(** StrUnsignedDecimalLiteral without [Infinity]. *)
Definition unsignedDecimal (neg : bool) (s : string) : number :=
  let '(ip, il, r1) := digits 10 s 0 0 in
  let '(fp, fl, r2) :=
    match r1 with
    | String "."%char r => digits 10 r ip 0
    | _ => (ip, O, r1)
    end in
  let hasDot := match r1 with String "."%char _ => true | _ => false end in
  if Nat.eqb (il + fl) 0 then NaN
  else if negb hasDot && Nat.eqb il 0 then NaN
  else
    match exponentPart r2 with
    | Some e => ofDecimal neg fp (e - Z.of_nat fl)
    | None => NaN
    end.

Definition radixLiteral (base : nat) (s : string) : number :=
  match digits base s 0 0 with
  | (v, S _, EmptyString) => ofDecimal false v 0
  | _ => NaN
  end.

(** StringToNumber, the conversion [Number(s)] of a string. *)
Definition ofString (s : string) : number :=
  let t := Js.trim s in
  match t with
  | EmptyString => S754_zero false
  | String "0"%char (String c r) =>
      if Js.isCode 120 c || Js.isCode 88 c then radixLiteral 16 r
      else if Js.isCode 111 c || Js.isCode 79 c then radixLiteral 8 r
      else if Js.isCode 98 c || Js.isCode 66 c then radixLiteral 2 r
      else unsignedDecimal false t
  | _ =>
      let '(neg, u) := signOf t in
      if String.eqb u "Infinity" then S754_infinity neg
      else unsignedDecimal neg u
  end.

Definition stringOfZ (z : Z) : string :=
  DecimalString.NilZero.string_of_uint (N.to_uint (Z.to_N z)).

Definition numDigits (z : Z) : Z := Z.of_nat (String.length (stringOfZ z)).

(** The positive rational [m * 2^e] as a fraction. *)
Definition fraction (m : positive) (e : Z) : Z * Z :=
  if (0 <=? e)%Z then (Z.shiftl (Zpos m) e, 1%Z) else (Zpos m, Z.shiftl 1 (- e)).

(** The [n] with [10^(n-1) <= num/den < 10^n]. *)
Definition decimalExponent (num den : Z) : Z :=
  if (den <=? num)%Z then numDigits (num / den)
  else (1 - numDigits (den / num))%Z.

Definition sameNumber (x y : number) : bool :=
  match x, y with
  | S754_finite s m e, S754_finite s' m' e' =>
      Bool.eqb s s' && Pos.eqb m m' && Z.eqb e e'
  | S754_zero s, S754_zero s' => Bool.eqb s s'
  | S754_infinity s, S754_infinity s' => Bool.eqb s s'
  | S754_nan, S754_nan => true
  | _, _ => false
  end.

(** The shortest decimal [s * 10^(n-k)] with [k] digits that converts back
    to the positive number [x = num/den]: the triple [(s, k, n)]. *)
Fixpoint shortest (fuel : nat) (k : Z) (x : number) (num den n : Z) : Z * Z * Z :=
  let p := (k - n)%Z in
  let a := if (0 <=? p)%Z then (num * 10 ^ p)%Z else num in
  let b := if (0 <=? p)%Z then den else (den * 10 ^ (- p))%Z in
  let lo := (a / b)%Z in
  let r := (a mod b)%Z in
  let hi := (lo + 1)%Z in
  let okLo := sameNumber (ofDecimal false lo (n - k)) x in
  let okHi := sameNumber (ofDecimal false hi (n - k)) x in
  let pickHi :=
    if (hi =? 10 ^ k)%Z then (10 ^ (k - 1), k, n + 1)%Z else (hi, k, n) in
  match fuel with
  | O => (lo, k, n)
  | S fuel' =>
      if okLo && okHi then
        match (2 * r ?= b)%Z with
        | Lt => (lo, k, n)
        | Gt => pickHi
        | Eq => if Z.even lo then (lo, k, n) else pickHi
        end
      else if okLo then (lo, k, n)
      else if okHi then pickHi
      else shortest fuel' (k + 1) x num den n
  end.

Fixpoint zeros (n : nat) : string :=
  match n with O => EmptyString | S n' => String "0"%char (zeros n') end.

(** Number::toString for radix 10 on a positive finite number. *)
Definition positiveToString (m : positive) (e : Z) : string :=
  let x := binary_normalize prec emax (Zpos m) e false in
  let '(num, den) := fraction m e in
  let '(s, k, n) := shortest 17 1 x num den (decimalExponent num den) in
  let ds := stringOfZ s in
  let kn := Z.to_nat k in
  if ((k <=? n) && (n <=? 21))%Z then ds ++ zeros (Z.to_nat (n - k))
  else if ((0 <? n) && (n <=? 21))%Z then
    substring 0 (Z.to_nat n) ds ++ "." ++ substring (Z.to_nat n) (kn - Z.to_nat n) ds
  else if ((-6 <? n) && (n <=? 0))%Z then "0." ++ zeros (Z.to_nat (- n)) ++ ds
  else
    let ex := (n - 1)%Z in
    let es := (if (ex <? 0)%Z then "-" else "+") ++ stringOfZ (Z.abs ex) in
    if (k =? 1)%Z then ds ++ "e" ++ es
    else substring 0 1 ds ++ "." ++ substring 1 (kn - 1) ds ++ "e" ++ es.

(** [String(x)] of a number. *)
Definition toString (x : number) : string :=
  match x with
  | S754_nan => "NaN"
  | S754_zero _ => "0"
  | S754_infinity s => if s then "-Infinity" else "Infinity"
  | S754_finite s m e => (if s then "-" else EmptyString) ++ positiveToString m e
  end.

End Num.

(** ** Values *)

Import Num.

#[local] Set Warnings "-register-all".

(** A value of type [any]: what YAML frontmatter, a base specification or a
    request body can hold. *)
Inductive value : Type :=
| VUndefined
| VNull
| VBool (b : bool)
| VNum (n : number)
| VStr (s : string)
| VArr (items : list value)
| VObj (fields : list (string * value)).

Definition object : Type := list (string * value).

(** [o[key]] on an object, read among its own keys: [undefined] when the
    key is absent.  (For a key that is absent and names a member of
    [Object.prototype], JavaScript reads the inherited member instead; see
    [isPrototypeMember].) *)
Fixpoint getProp (o : object) (key : string) : value :=
  match o with
  | [] => VUndefined
  | (k, v) :: rest => if String.eqb k key then v else getProp rest key
  end.

Definition hasProp (o : object) (key : string) : bool :=
  existsb (fun kv => String.eqb (fst kv) key) o.

(** [o[key] = v]: the value is replaced in place, a new key goes last. *)
Fixpoint setProp (o : object) (key : string) (v : value) : object :=
  match o with
  | [] => [(key, v)]
  | (k, w) :: rest =>
      if String.eqb k key then (k, v) :: rest else (k, w) :: setProp rest key v
  end.

(** [delete o[key]] *)
Definition deleteProp (o : object) (key : string) : object :=
  filter (fun kv => negb (String.eqb (fst kv) key)) o.

(** [value.prop] on any value ([undefined] on what is not an object). *)
Definition field (v : value) (key : string) : value :=
  match v with
  | VObj o => getProp o key
  | _ => VUndefined
  end.

Definition isUndefined (v : value) : bool :=
  match v with VUndefined => true | _ => false end.

Definition isNullish (v : value) : bool :=
  match v with VUndefined | VNull => true | _ => false end.

(** [a ?? b] *)
Definition nullish (a b : value) : value := if isNullish a then b else a.

(** ToBoolean *)
Definition toBoolean (v : value) : bool :=
  match v with
  | VUndefined | VNull => false
  | VBool b => b
  | VNum n => Num.toBoolean n
  | VStr s => negb (Js.isEmpty s)
  | VArr _ | VObj _ => true
  end.

Fixpoint joinStrings (sep : string) (l : list string) : string :=
  match l with
  | [] => EmptyString
  | [s] => s
  | s :: rest => s ++ sep ++ joinStrings sep rest
  end.

(** [String(v)]; an array is joined with commas, its [null] and [undefined]
    elements contributing the empty string. *)
Fixpoint toString (v : value) : string :=
  match v with
  | VUndefined => "undefined"
  | VNull => "null"
  | VBool b => if b then "true" else "false"
  | VNum n => Num.toString n
  | VStr s => s
  | VArr items =>
      joinStrings ","
        ((fix elems (l : list value) : list string :=
            match l with
            | [] => []
            | x :: l' => (if isNullish x then EmptyString else toString x) :: elems l'
            end) items)
  | VObj _ => "[object Object]"
  end.

(** [Number(v)] *)
Definition toNumber (v : value) : number :=
  match v with
  | VUndefined => NaN
  | VNull => S754_zero false
  | VBool b => if b then Num.ofZ 1 else S754_zero false
  | VNum n => n
  | VStr s => Num.ofString s
  | VArr _ | VObj _ => Num.ofString (toString v)
  end.

(** The truthiness rule shared by the formula [if] and the bare-identifier
    filter: [true]; a string that is not blank; a finite number; a
    non-empty array; a non-empty object. *)
Definition truthy (v : value) : bool :=
  match v with
  | VBool b => b
  | VStr s => negb (Js.isEmpty (Js.trim s))
  | VNum n => Num.isFinite n
  | VArr items => negb (Nat.eqb (List.length items) 0)
  | VObj o => negb (Nat.eqb (List.length o) 0)
  | VUndefined | VNull => false
  end.

(** [Array.isArray(v) ? v : v === undefined || v === null ? [] : [v]] *)
Definition toArray (v : value) : list value :=
  match v with
  | VArr items => items
  | VUndefined | VNull => []
  | _ => [v]
  end.

(** ** Text helpers of the plugin *)

Definition dquote : string := String (Js.chr 34) EmptyString.

Definition isQuoted (s : string) : bool :=
  (Js.startsWith s dquote && Js.endsWith s dquote)
  || (Js.startsWith s "'" && Js.endsWith s "'").

Definition stripQuotes (v : string) : string :=
  let trimmed := Js.trim v in
  if isQuoted trimmed then Js.slice trimmed 1 (-1) else trimmed.

Definition isBackslash (prev : option ascii) : bool :=
  match prev with Some c => Js.isCode 92 c | None => false end.

(** The loop of [splitOutsideQuotes]: [skip] counts the characters of a
    needle occurrence that the loop jumps over. *)
Fixpoint splitOutsideQuotesLoop (needle : string) (s : string) (prev : option ascii)
    (skip : nat) (inSingle inDouble : bool) (current : string) (parts : list string)
    : list string :=
  match s with
  | EmptyString => parts ++ [current]
  | String ch s' =>
      match skip with
      | S skip' =>
          splitOutsideQuotesLoop needle s' (Some ch) skip' inSingle inDouble current parts
      | O =>
          let inSingle1 :=
            if Js.isCode 39 ch && negb inDouble && negb (isBackslash prev)
            then negb inSingle else inSingle in
          let inDouble1 :=
            if Js.isCode 34 ch && negb inSingle1 && negb (isBackslash prev)
            then negb inDouble else inDouble in
          if negb inSingle1 && negb inDouble1 && Js.startsWith s needle then
            splitOutsideQuotesLoop needle s' (Some ch) (String.length needle - 1)
              inSingle1 inDouble1 EmptyString (parts ++ [current])
          else
            splitOutsideQuotesLoop needle s' (Some ch) O inSingle1 inDouble1
              (current ++ String ch EmptyString) parts
      end
  end.

Definition nonEmpty (s : string) : bool := negb (Js.isEmpty s).

Definition splitOutsideQuotes (input needle : string) : list string :=
  filter nonEmpty
    (map Js.trim (splitOutsideQuotesLoop needle input None 0 false false EmptyString [])).

Definition parseStringListLiteral (inner : string) : list string :=
  filter nonEmpty (map (fun part => stripQuotes (Js.trim part)) (splitOutsideQuotes inner ",")).

Fixpoint splitTopLevelCommasLoop (s : string) (prev : option ascii) (depth : nat)
    (inSingle inDouble : bool) (current : string) (parts : list string) : list string :=
  match s with
  | EmptyString => parts ++ [current]
  | String ch s' =>
      let add := current ++ String ch EmptyString in
      if Js.isCode 39 ch && negb inDouble && negb (isBackslash prev) then
        splitTopLevelCommasLoop s' (Some ch) depth (negb inSingle) inDouble add parts
      else if Js.isCode 34 ch && negb inSingle && negb (isBackslash prev) then
        splitTopLevelCommasLoop s' (Some ch) depth inSingle (negb inDouble) add parts
      else if negb inSingle && negb inDouble then
        if Js.isCode 40 ch then
          splitTopLevelCommasLoop s' (Some ch) (S depth) inSingle inDouble add parts
        else if Js.isCode 41 ch then
          splitTopLevelCommasLoop s' (Some ch) (Nat.pred depth) inSingle inDouble add parts
        else if Js.isCode 44 ch && Nat.eqb depth 0 then
          splitTopLevelCommasLoop s' (Some ch) depth inSingle inDouble EmptyString
            (parts ++ [current])
        else splitTopLevelCommasLoop s' (Some ch) depth inSingle inDouble add parts
      else splitTopLevelCommasLoop s' (Some ch) depth inSingle inDouble add parts
  end.

Definition splitTopLevelCommas (input : string) : list string :=
  splitTopLevelCommasLoop input None 0 false false EmptyString [].

(** The wiki-link pattern of [normalizeLinkish] as the source has it, with
    its doubled backslashes: a backslash; one character of a class that
    holds the backslash, the opening bracket, the two parentheses, the dot
    and the star; a backslash; a closing bracket; the end of the input.  It
    has no capture group. *)
Definition reWiki : regex :=
  seqs [lit "\";
        Chr (fun c => Js.isCode 92 c || Js.isCode 91 c || Js.isCode 40 c
                      || Js.isCode 46 c || Js.isCode 42 c || Js.isCode 41 c);
        lit "\"; lit "]"; Eos].

(** The pattern [/\\.md$/i] of [normalizeLinkish] as the source has it: a
    backslash, any character, then [md] at the end. *)
Definition reBackslashAnyMd : regex := seqs [lit "\"; dot; litI "md"; Eos].

(** [/\.md$/i] *)
Definition reDotMd : regex := seqs [litI ".md"; Eos].

(** [/\/+$/g] *)
Definition reTrailingSlashes : regex := seqs [plus (lit "/"); Eos].

Definition firstPart (sep : ascii) (v : string) : string :=
  match Js.splitChar sep v with
  | p :: _ => p
  | [] => v
  end.

(** When the wiki pattern matches, [wiki[1]] is [undefined] and the next
    [v.split] throws: [None]. *)
Definition normalizeLinkish (value : string) : option string :=
  let v := Js.trim value in
  if Regex.test reWiki v then None
  else
    let v1 := firstPart "|" v in
    let v2 := firstPart "#" v1 in
    Some (Js.trim (Regex.remove reBackslashAnyMd v2)).

Definition dirname (path : string) : string :=
  let normalized := Js.backslashesToSlashes path in
  match Js.lastIndexOfChar "/" normalized with
  | None => EmptyString
  | Some idx => Js.slice normalized 0 (Z.of_nat idx)
  end.

(** [s.replace(/^#/, empty)] *)
Definition stripHash (s : string) : string :=
  if Js.startsWith s "#" then Js.sliceFrom s 1 else s.

(** ** Notes and schemas *)

(** A note as the engine sees it: the [TFile] with its [stat], and what the
    metadata cache holds for it (the frontmatter, the [tag] of each tag
    entry and the [link] of each link entry, empty when the cache has
    none). *)
Record TFile : Type := {
  path : string;
  basename : string;
  extension : string;
  stat_size : number;
  stat_ctime : number;
  stat_mtime : number;
  cache_frontmatter : value;
  cache_tags : list string;
  cache_links : list string
}.

Inductive PropertyKind : Type := KindNote | KindFile | KindFormula | KindUnknown.

Record BaseSchemaProperty : Type := {
  prop_key : string;
  prop_kind : PropertyKind;
  prop_displayName : value;
  prop_valueType : value
}.

Record BaseSchemaView : Type := {
  view_name : string;
  view_type : string;
  view_limit : option number;
  view_order : option (list string);
  view_filters : value;
  view_description : option string
}.

Record BaseSchemaResponse : Type := {
  schema_id : string;
  schema_path : string;
  schema_name : option string;
  schema_properties : list BaseSchemaProperty;
  schema_formulas : option object;
  schema_views : list BaseSchemaView;
  schema_filters : value
}.

Definition getFrontmatter (file : TFile) : object :=
  match cache_frontmatter file with
  | VObj fm => fm
  | _ => []
  end.

Definition hasString (l : list string) (s : string) : bool :=
  existsb (String.eqb s) l.

(** The tokens of [s.split(/[, ]+/).map(trim).filter(Boolean)]: the maximal
    runs without comma or space, trimmed, the empty ones dropped. *)
Fixpoint tokensLoop (s : string) (current : string) : list string :=
  match s with
  | EmptyString => [current]
  | String c s' =>
      if Js.isCode 44 c || Js.isCode 32 c then current :: tokensLoop s' EmptyString
      else tokensLoop s' (current ++ String c EmptyString)
  end.

Definition tagTokens (s : string) : list string :=
  filter nonEmpty (map Js.trim (tokensLoop s EmptyString)).

(** The tag set of a note, as the list of its elements. *)
Definition getTagSet (file : TFile) : list string :=
  let fromCache := filter nonEmpty (map stripHash (cache_tags file)) in
  let fromFm :=
    match getProp (getFrontmatter file) "tags" with
    | VStr fmTags => map stripHash (tagTokens fmTags)
    | VArr fmTags =>
        flat_map (fun t =>
          match t with
          | VStr s => if nonEmpty (Js.trim s) then [stripHash s] else []
          | _ => []
          end) fmTags
    | _ => []
    end in
  fromCache ++ fromFm.

Definition fileHasLink (file : TFile) (target : string) : bool :=
  let want := Js.trim target in
  if Js.isEmpty want then false
  else
    let normalizedWant := Regex.remove reDotMd want in
    existsb (fun raw =>
      nonEmpty raw
      && (String.eqb (Regex.remove reDotMd raw) normalizedWant || String.eqb raw want))
      (cache_links file).

(** ** Value resolver and formula evaluator *)

Definition evaluator : Type := TFile -> string -> option BaseSchemaResponse -> option value.

Definition evalFormulaWith (evalExpr : evaluator)
    (file : TFile) (formulaKey : string) (schema : option BaseSchemaResponse) : option value :=
  match schema with
  | Some sch =>
      match schema_formulas sch with
      | Some formulas =>
          match getProp formulas formulaKey with
          | VStr expr => evalExpr file expr schema
          | _ => Some VUndefined
          end
      | None => Some VUndefined
      end
  | None => Some VUndefined
  end.

Definition getValueForRefWith (evalExpr : evaluator)
    (file : TFile) (ref : string) (schema : option BaseSchemaResponse) : option value :=
  let fm := getFrontmatter file in
  let trimmed := Js.trim ref in
  if Js.startsWith trimmed "file." then
    let key := Js.sliceFrom trimmed 5 in
    Some (if String.eqb key "path" then VStr (path file)
          else if String.eqb key "name" then VStr (basename file)
          else if String.eqb key "ext" then VStr (extension file)
          else if String.eqb key "size" then VNum (stat_size file)
          else if String.eqb key "ctime" then VNum (stat_ctime file)
          else if String.eqb key "mtime" then VNum (stat_mtime file)
          else if String.eqb key "folder" then VStr (dirname (path file))
          else VUndefined)
  else if Js.startsWith trimmed "note." then
    Some (getProp fm (Js.sliceFrom trimmed 5))
  else if Js.startsWith trimmed "formula." then
    evalFormulaWith evalExpr file (Js.sliceFrom trimmed 8) schema
  else Some (getProp fm trimmed).

(** [/^-?\d+(?:\.\d+)?$/] *)
Definition reNumber : regex :=
  seqs [opt (lit "-"); plus digit; opt (Seq (lit ".") (plus digit)); Eos].

(** [/^[\p{L}\p{N}_-]+$/u] *)
Definition reRefToken : regex := seqs [plus refChar; Eos].

(** [/^join\s*\(\s*list\s*\(\s*([^\)]+)\s*\)\s*\)\s*$/s] *)
Definition reJoinList : regex :=
  seqs [lit "join"; star space; lit "("; star space; lit "list"; star space; lit "(";
        star space; Group 1 (plus notCloseParen); star space; lit ")"; star space;
        lit ")"; star space; Eos].

(** [/^list\s*\(\s*([^\)]+)\s*\)\s*$/s] *)
Definition reList : regex :=
  seqs [lit "list"; star space; lit "("; star space; Group 1 (plus notCloseParen);
        star space; lit ")"; star space; Eos].

(** The pattern of [if], with the [s] flag: [if], an opening parenthesis,
    group 1 with anything, a closing parenthesis at the end. *)
Definition reIf : regex := seqs [lit "if("; Group 1 (star dotAll); lit ")"; Eos].

Definition isDirectRef (raw : string) : bool :=
  Js.startsWith raw "file." || Js.startsWith raw "note." || Js.startsWith raw "formula.".

(** [evalFormulaExpression] with a bound on the depth of its calls. *)
Fixpoint evalFormulaExpression (fuel : nat) (file : TFile) (expr : string)
    (schema : option BaseSchemaResponse) {struct fuel} : option value :=
  match fuel with
  | O => None
  | S fuel' =>
      let getValueForRef := getValueForRefWith (evalFormulaExpression fuel') in
      let raw := Js.trim expr in
      if Js.isEmpty raw then Some VUndefined
      else if String.eqb raw "null" then Some VNull
      else if Regex.test reNumber raw then Some (VNum (Num.ofString raw))
      else if isQuoted raw then Some (VStr (stripQuotes raw))
      else if isDirectRef raw then getValueForRef file raw schema
      else if Regex.test reRefToken raw then getValueForRef file raw schema
      else
        match Regex.exec reJoinList raw with
        | Some m =>
            match getValueForRef file (Js.trim (group 1 m)) schema with
            | Some v => Some (VStr (joinStrings ", " (map toString (toArray v))))
            | None => None
            end
        | None =>
            match Regex.exec reList raw with
            | Some m =>
                match getValueForRef file (Js.trim (group 1 m)) schema with
                | Some v => Some (VArr (toArray v))
                | None => None
                end
            | None =>
                match Regex.exec reIf raw with
                | Some m =>
                    match map Js.trim (splitTopLevelCommas (group 1 m)) with
                    | condRef :: thenRef :: rest =>
                        match rest with
                        | [] => Some VUndefined
                        | _ =>
                            let elseExpr := Js.trim (joinStrings "," rest) in
                            match getValueForRef file condRef schema with
                            | Some condVal =>
                                if truthy condVal
                                then getValueForRef file thenRef schema
                                else evalFormulaExpression fuel' file elseExpr schema
                            | None => None
                            end
                        end
                    | _ => Some VUndefined
                    end
                | None => Some VUndefined
                end
            end
        end
  end.

Definition getValueForRef (fuel : nat) : evaluator :=
  getValueForRefWith (evalFormulaExpression fuel).

Definition evalFormula (fuel : nat) : evaluator :=
  evalFormulaWith (evalFormulaExpression fuel).

(** ** Filter evaluator *)

(** The result of a filter: [ok] is the truth value of the source's [ok]
    field, the only way the engine reads it. *)
Record FilterResult : Type := { ok : bool; warnings : list string }.

Definition passing (ws : list string) : FilterResult := {| ok := true; warnings := ws |}.

(** The loop of an [or]: every part is evaluated, the warnings of all of
    them are collected. *)
Fixpoint orLoop {A : Type} (eval : A -> option FilterResult) (parts : list A)
    (any : bool) (ws : list string) : option FilterResult :=
  match parts with
  | [] => Some {| ok := any; warnings := ws |}
  | part :: rest =>
      match eval part with
      | Some res => orLoop eval rest (if ok res then true else any) (ws ++ warnings res)
      | None => None
      end
  end.

(** The loop of an [and]: it returns at the first part that fails. *)
Fixpoint andLoop {A : Type} (eval : A -> option FilterResult) (parts : list A)
    (ws : list string) : option FilterResult :=
  match parts with
  | [] => Some {| ok := true; warnings := ws |}
  | part :: rest =>
      match eval part with
      | Some res =>
          if ok res then andLoop eval rest (ws ++ warnings res)
          else Some {| ok := false; warnings := ws ++ warnings res |}
      | None => None
      end
  end.

Definition negated (ws : list string) (r : option FilterResult) : option FilterResult :=
  match r with
  | Some res => Some {| ok := negb (ok res); warnings := ws ++ warnings res |}
  | None => None
  end.

(** The patterns of the built-in predicates: a name, an opening
    parenthesis, group 1 with at least one character and no line break, a
    closing parenthesis at the end, as in [/^file\.hasTag\((.+)\)$/]. *)
Definition reCall (name : string) : regex :=
  seqs [lit name; lit "("; Group 1 (plus dot); lit ")"; Eos].

Definition reHasTag : regex := reCall "file.hasTag".
Definition reInFolder : regex := reCall "file.inFolder".
Definition reHasLink : regex := reCall "file.hasLink".
Definition rePathStartsWith : regex := reCall "file.path.startsWith".
Definition rePathContains : regex := reCall "file.path.contains".
Definition reFolderStartsWith : regex := reCall "file.folder.startsWith".
Definition reFolderContains : regex := reCall "file.folder.contains".
Definition reFileTagsContains : regex := reCall "file.tags.contains".

(** The list-literal pattern, with the [s] flag: a bracketed group 1, then
    [.contains] with group 2 between parentheses. *)
Definition reListContains : regex :=
  seqs [lit "["; Group 1 (star dotAll); lit "].contains("; Group 2 (star dotAll);
        lit ")"; Eos].

(** [list(prop).contains(link(target))] and [prop.contains(link(target))]:
    group 1 is a reference token, group 2 the target. *)
Definition reListPropContainsLink : regex :=
  seqs [lit "list("; Group 1 (plus refChar); lit ").contains(link(";
        Group 2 (plus dot); lit "))"; Eos].

Definition rePropContainsLink : regex :=
  seqs [Group 1 (plus refChar); lit ".contains(link("; Group 2 (plus dot); lit "))"; Eos].

(** [file.(path|name|folder|ext).(contains|startsWith)(needle)] *)
Definition reFileFieldOp : regex :=
  seqs [lit "file."; Group 1 (alts [lit "path"; lit "name"; lit "folder"; lit "ext"]);
        lit "."; Group 2 (alts [lit "contains"; lit "startsWith"]);
        lit "("; Group 3 (plus dot); lit ")"; Eos].

(** The comparison pattern: a lazy group 1, white space, the operator in
    the order [==], [=], [!=], [>=], [<=], [>], [<], white space, a lazy
    group 3, white space, the end. *)
Definition reComparison : regex :=
  seqs [Group 1 (lazyStar dot); star space;
        Group 2 (alts [lit "=="; lit "="; lit "!="; lit ">="; lit "<="; lit ">"; lit "<"]);
        star space; Group 3 (lazyStar dot); star space; Eos].

(** [/^(true|false)$/i], [/^true$/i] and [/^-?\d+(\.\d+)?$/] *)
Definition reBoolean : regex := seqs [Group 1 (Alt (litI "true") (litI "false")); Eos].
Definition reTrue : regex := seqs [litI "true"; Eos].
Definition reNumberLiteral : regex :=
  seqs [opt (lit "-"); plus digit; opt (Group 1 (Seq (lit ".") (plus digit))); Eos].

Definition asNumber (v : value) : number :=
  match v with
  | VNum n => n
  | _ => toNumber v
  end.

(** The right-hand side of a comparison. *)
Definition rightOperand (rightRaw : string) : value :=
  if Regex.test reBoolean rightRaw then VBool (Regex.test reTrue rightRaw)
  else if Regex.test reNumberLiteral rightRaw then VNum (Num.ofString rightRaw)
  else VStr (stripQuotes rightRaw).

(** The [switch] on the operator; the pattern admits these seven only. *)
Definition compareValues (op : string) (left right : value) : bool :=
  let leftNum := asNumber left in
  let rightNum := asNumber right in
  let bothNumeric := Num.isFinite leftNum && Num.isFinite rightNum in
  let l := toString left in
  let r := toString right in
  if String.eqb op "==" || String.eqb op "=" then
    if bothNumeric then Num.eqb leftNum rightNum else String.eqb l r
  else if String.eqb op "!=" then
    if bothNumeric then negb (Num.eqb leftNum rightNum) else negb (String.eqb l r)
  else if String.eqb op ">" then
    if bothNumeric then Num.gtb leftNum rightNum else String.ltb r l
  else if String.eqb op "<" then
    if bothNumeric then Num.ltb leftNum rightNum else String.ltb l r
  else if String.eqb op ">=" then
    if bothNumeric then Num.geb leftNum rightNum else String.leb r l
  else
    if bothNumeric then Num.leb leftNum rightNum else String.leb l r.

(** [arr.some((x) => normalizeLinkish(String(x)) === want)] *)
Fixpoint someLinkIs (want : string) (arr : list value) : option bool :=
  match arr with
  | [] => Some false
  | x :: rest =>
      match normalizeLinkish (toString x) with
      | Some n => if String.eqb n want then Some true else someLinkIs want rest
      | None => None
      end
  end.

Definition containsLink (resolve : string -> option value) (key target : string)
    : option FilterResult :=
  match normalizeLinkish (stripQuotes target) with
  | Some want =>
      match resolve key with
      | Some v =>
          match someLinkIs want (toArray v) with
          | Some b => Some {| ok := b; warnings := [] |}
          | None => None
          end
      | None => None
      end
  | None => None
  end.

Definition answer (b : bool) : option FilterResult := Some {| ok := b; warnings := [] |}.

(** One form of the statement grammar: the pattern tried on the whole
    statement and what the evaluator returns when it matches. *)
Record form : Type := {
  pattern : regex;
  action : captures -> option FilterResult
}.

Definition cleanFolder (arg : string) : string :=
  Regex.remove reTrailingSlashes (Js.backslashesToSlashes (stripQuotes arg)).

(** The forms tried after the logical splits and the negations, in the
    order of the source; [resolve] is [getValueForRef] on the note. *)
Definition forms (resolve : string -> option value) (file : TFile) (raw : string)
    : list form :=
  [ {| pattern := reHasTag;
       action := fun m => answer (hasString (getTagSet file) (stripHash (stripQuotes (group 1 m)))) |};
    {| pattern := reInFolder;
       action := fun m =>
         let folder := cleanFolder (group 1 m) in
         answer (if Js.isEmpty folder then true
                 else Js.startsWith (path file) (folder ++ "/")) |};
    {| pattern := reHasLink;
       action := fun m => answer (fileHasLink file (stripQuotes (group 1 m))) |};
    {| pattern := reListContains;
       action := fun m =>
         let items := parseStringListLiteral (group 1 m) in
         let needleRef := Js.trim (group 2 m) in
         match resolve needleRef with
         | Some v =>
             let needle := if isUndefined v then VStr (stripQuotes needleRef) else v in
             answer (hasString items (toString (nullish needle (VStr EmptyString))))
         | None => None
         end |};
    {| pattern := rePathStartsWith;
       action := fun m =>
         answer (Js.startsWith (path file) (Js.backslashesToSlashes (stripQuotes (group 1 m)))) |};
    {| pattern := rePathContains;
       action := fun m =>
         answer (Js.includes (path file) (Js.backslashesToSlashes (stripQuotes (group 1 m)))) |};
    {| pattern := reFolderStartsWith;
       action := fun m => answer (Js.startsWith (dirname (path file)) (cleanFolder (group 1 m))) |};
    {| pattern := reFolderContains;
       action := fun m =>
         answer (Js.includes (dirname (path file))
                   (Js.backslashesToSlashes (stripQuotes (group 1 m)))) |};
    {| pattern := reFileTagsContains;
       action := fun m => answer (hasString (getTagSet file) (stripHash (stripQuotes (group 1 m)))) |};
    {| pattern := reListPropContainsLink;
       action := fun m => containsLink resolve (group 1 m) (group 2 m) |};
    {| pattern := rePropContainsLink;
       action := fun m => containsLink resolve (group 1 m) (group 2 m) |};
    {| pattern := reFileFieldOp;
       action := fun m =>
         let needle := stripQuotes (group 3 m) in
         match resolve ("file." ++ group 1 m) with
         | Some v =>
             let hay := toString (nullish v (VStr EmptyString)) in
             answer (if String.eqb (group 2 m) "contains" then Js.includes hay needle
                     else Js.startsWith hay needle)
         | None => None
         end |};
    {| pattern := reComparison;
       action := fun m =>
         match resolve (Js.trim (group 1 m)) with
         | Some lhs =>
             answer (compareValues (group 2 m) lhs (rightOperand (Js.trim (group 3 m))))
         | None => None
         end |};
    {| pattern := reRefToken;
       action := fun _ =>
         match resolve raw with
         | Some v => answer (truthy v)
         | None => None
         end |} ].

Definition unrecognizedWarning (raw : string) : string := "Filter non reconnu: " ++ raw.

(** The ordered dispatch: the first form whose pattern matches decides;
    when none does, the statement passes with a warning. *)
Fixpoint dispatch (fs : list form) (raw : string) : option FilterResult :=
  match fs with
  | [] => Some (passing [unrecognizedWarning raw])
  | f :: rest =>
      match Regex.exec (pattern f) raw with
      | Some m => action f m
      | None => dispatch rest raw
      end
  end.

Definition severalParts (parts : list string) : bool := (1 <? List.length parts)%nat.

(** [evaluateStatement] with a bound on the depth of its calls. *)
Fixpoint evaluateStatement (fuel : nat) (file : TFile) (statement : string)
    (schema : option BaseSchemaResponse) {struct fuel} : option FilterResult :=
  match fuel with
  | O => None
  | S fuel' =>
      let recur := fun part => evaluateStatement fuel' file part schema in
      let raw := Js.trim statement in
      if Js.isEmpty raw then Some (passing [])
      else if severalParts (splitOutsideQuotes raw " or ") then
        orLoop recur (splitOutsideQuotes raw " or ") false []
      else if severalParts (splitOutsideQuotes raw "||") then
        orLoop recur (splitOutsideQuotes raw "||") false []
      else if severalParts (splitOutsideQuotes raw " and ") then
        andLoop recur (splitOutsideQuotes raw " and ") []
      else if severalParts (splitOutsideQuotes raw "&&") then
        andLoop recur (splitOutsideQuotes raw "&&") []
      else if Js.startsWith raw "not " then negated [] (recur (Js.sliceFrom raw 4))
      else if Js.startsWith raw "!" then negated [] (recur (Js.sliceFrom raw 1))
      else
        dispatch (forms (fun ref => getValueForRef fuel' file ref schema) file raw) raw
  end.

Definition unknownShapeWarning : string :=
  "Filter non support" ++ String (Js.chr 233) " (shape inconnu).".

(** [evaluateFilter] on the structured tree. *)
Fixpoint evaluateFilter (fuel : nat) (file : TFile) (filter : value)
    (schema : option BaseSchemaResponse) {struct fuel} : option FilterResult :=
  match fuel with
  | O => None
  | S fuel' =>
      let recur := fun part => evaluateFilter fuel' file part schema in
      if negb (toBoolean filter) then Some (passing [])
      else
        match filter with
        | VStr statement => evaluateStatement fuel' file statement schema
        | VObj o =>
            match getProp o "and" with
            | VArr parts => andLoop recur parts []
            | _ =>
                match getProp o "or" with
                | VArr parts => orLoop recur parts false []
                | _ =>
                    if toBoolean (getProp o "not")
                    then negated [] (recur (getProp o "not"))
                    else Some (passing [unknownShapeWarning])
                end
            end
        | _ => Some (passing [unknownShapeWarning])
        end
  end.

(** ** Row building *)

Definition formulaRef (key : string) : string := "formula." ++ key.

Fixpoint buildRowPropsLoop (fuel : nat) (file : TFile) (schema : BaseSchemaResponse)
    (ps : list BaseSchemaProperty) (props : object) : option object :=
  match ps with
  | [] => Some props
  | p :: rest =>
      let ref :=
        match prop_kind p with
        | KindFormula => formulaRef (prop_key p)
        | _ => prop_key p
        end in
      match getValueForRef fuel file ref (Some schema) with
      | Some v => buildRowPropsLoop fuel file schema rest (setProp props (prop_key p) v)
      | None => None
      end
  end.

Definition buildRowProps (fuel : nat) (file : TFile) (schema : BaseSchemaResponse)
    : option object :=
  buildRowPropsLoop fuel file schema (schema_properties schema) [].

Fixpoint buildComputedLoop (fuel : nat) (file : TFile) (schema : BaseSchemaResponse)
    (keys : list string) (computed : object) : option object :=
  match keys with
  | [] => Some computed
  | key :: rest =>
      match evalFormula fuel file key (Some schema) with
      | Some v => buildComputedLoop fuel file schema rest (setProp computed key v)
      | None => None
      end
  end.

Definition buildComputed (fuel : nat) (file : TFile) (schema : BaseSchemaResponse)
    : option object :=
  let formulas := match schema_formulas schema with Some f => f | None => [] end in
  buildComputedLoop fuel file schema (map fst formulas) [].

(** A [BaseQueryRow] as the value that goes into the response. *)
Definition queryRow (file : TFile) (props : object) (computed : option object) : value :=
  VObj [("file", VObj [("path", VStr (path file)); ("name", VStr (basename file))]);
        ("props", VObj props);
        ("computed", match computed with Some c => VObj c | None => VUndefined end)].

(** ** Query planner: page size, page number, warnings, pagination *)

(** [clampInt]; the bounds and the fallback are integers, and so is the
    result, kept as an integer. *)
Definition clampInt (v : value) (fallback min max : Z) : Z :=
  let num := toNumber v in
  if negb (Num.isFinite num) then fallback
  else Z.max min (Z.min max (Num.truncZ num)).

(** [viewName ? schema.views.find((v) => v.name === viewName) : schema.views[0]] *)
Definition selectView (schema : BaseSchemaResponse) (body : value) : option BaseSchemaView :=
  match field body "view" with
  | VStr viewName =>
      if Js.isEmpty viewName then hd_error (schema_views schema)
      else find (fun v => String.eqb (view_name v) viewName) (schema_views schema)
  | _ => hd_error (schema_views schema)
  end.

(** [view?.limit] *)
Definition viewLimit (view : option BaseSchemaView) : value :=
  match view with
  | Some v => match view_limit v with Some n => VNum n | None => VUndefined end
  | None => VUndefined
  end.

Definition viewFilters (view : option BaseSchemaView) : value :=
  match view with
  | Some v => view_filters v
  | None => VUndefined
  end.

(** [clampInt(body?.limit ?? view?.limit ?? 20, 20, 1, 500)] *)
Definition queryLimit (body : value) (view : option BaseSchemaView) : Z :=
  clampInt (nullish (field body "limit") (nullish (viewLimit view) (VNum (Num.ofZ 20))))
           20 1 500.

(** [clampInt(body?.page ?? 1, 1, 1, 1_000_000)] *)
Definition queryPage (body : value) : Z :=
  clampInt (nullish (field body "page") (VNum (Num.ofZ 1))) 1 1 1000000.

(** The warnings of a query: the [Set] in insertion order and the
    truncation flag. *)
Record WarningState : Type := {
  warningsSet : list string;
  warningsTruncated : bool
}.

Definition noWarnings : WarningState := {| warningsSet := []; warningsTruncated := false |}.

(** [Set.prototype.add] *)
Definition setAdd (s : list string) (w : string) : list string :=
  if hasString s w then s else s ++ [w].

Fixpoint addWarnings (st : WarningState) (ws : list string) : WarningState :=
  match ws with
  | [] => st
  | w :: rest =>
      if (200 <=? List.length (warningsSet st))%nat
      then {| warningsSet := warningsSet st; warningsTruncated := true |}
      else addWarnings {| warningsSet := setAdd (warningsSet st) w;
                          warningsTruncated := warningsTruncated st |} rest
  end.

Definition truncationNotice : string :=
  "Warnings tronqu" ++ String (Js.chr 233) "s (max 200).".

(** [arr.slice(start, end)] on an array. *)
Definition arraySlice {A : Type} (l : list A) (a b : Z) : list A :=
  let len := Z.of_nat (List.length l) in
  let from := Js.relIndex len a in
  let to := Js.relIndex len b in
  firstn (Z.to_nat (to - from)) (skipn (Z.to_nat from) l).

(** The page of the match list: [start = (page - 1) * limit] and
    [matches.slice(start, start + limit)]. *)
Definition pageSlice {A : Type} (matches : list A) (page limit : Z) : list A :=
  let start := ((page - 1) * limit)%Z in
  arraySlice matches start (start + limit).

Definition combinedFilter (schema : BaseSchemaResponse) (view : option BaseSchemaView)
    (body : value) : value :=
  VObj [("and", VArr (filter toBoolean
                        [schema_filters schema; viewFilters view; field body "filter"]))].

Definition isCandidate (f : TFile) : bool :=
  negb (Js.startsWith (path f) ".obsidian/") && negb (String.eqb (extension f) "base").

(** The matching loop: the notes that pass, in enumeration order, and the
    warnings gathered on the way. *)
Fixpoint collectMatches (fuel : nat) (schema : BaseSchemaResponse) (filter : value)
    (files : list TFile) (matches : list TFile) (st : WarningState)
    : option (list TFile * WarningState) :=
  match files with
  | [] => Some (matches, st)
  | f :: rest =>
      match evaluateFilter fuel f filter (Some schema) with
      | Some r =>
          collectMatches fuel schema filter rest
            (if ok r then matches ++ [f] else matches) (addWarnings st (warnings r))
      | None => None
      end
  end.

Inductive SortDir : Type := Asc | Desc.

Definition lowerCase (s : string) : string := Js.mapChars Js.toLowerAscii s.

Definition requestSortSpec (s : value) : list (string * SortDir) :=
  match s with
  | VObj _ | VArr _ =>
      let prop := Js.trim (toString (nullish (field s "prop") (VStr EmptyString))) in
      if Js.isEmpty prop then []
      else
        let dir := lowerCase (toString (nullish (field s "dir") (VStr "asc"))) in
        [(prop, if String.eqb dir "desc" then Desc else Asc)]
  | _ => []
  end.

Definition orderSortSpec (str : string) : list (string * SortDir) :=
  let t := Js.trim str in
  let desc := Js.startsWith t "-" in
  let prop := if desc then Js.sliceFrom t 1 else t in
  if Js.isEmpty prop then [] else [(prop, if desc then Desc else Asc)].

Definition sortSpecsOf (body : value) (view : option BaseSchemaView)
    : list (string * SortDir) :=
  match field body "sort" with
  | VArr (s :: rest) => flat_map requestSortSpec (s :: rest)
  | _ =>
      match view with
      | Some v =>
          match view_order v with
          | Some order => flat_map orderSortSpec order
          | None => []
          end
      | None => []
      end
  end.

Section Host.

(** What the host provides: [String.prototype.localeCompare],
    [decodeURIComponent] ([None] when it throws) and [Date.now()]. *)
Variable localeCompare : string -> string -> Z.
Variable decodeURIComponent : string -> option string.
Variable now : number.

Definition normBaseId (id : string) : string :=
  if Js.isEmpty id then EmptyString
  else
    Js.backslashesToSlashes
      (match decodeURIComponent id with Some d => d | None => id end).

Definition ensureBaseExt (p : string) : string :=
  let normalized := normBaseId p in
  if Js.endsWith normalized ".base" then normalized else normalized ++ ".base".

(** The comparator of the match sort. *)
Fixpoint compareMatches (fuel : nat) (schema : BaseSchemaResponse)
    (specs : list (string * SortDir)) (a b : TFile) : option Z :=
  match specs with
  | [] => Some 0%Z
  | (prop, dir) :: rest =>
      match getValueForRef fuel a prop (Some schema),
            getValueForRef fuel b prop (Some schema) with
      | Some av, Some bv =>
          let aNum := asNumber av in
          let bNum := asNumber bv in
          let cmp :=
            if Num.isFinite aNum && Num.isFinite bNum then
              if Num.eqb aNum bNum then 0%Z else if Num.ltb aNum bNum then (-1)%Z else 1%Z
            else localeCompare (toString (nullish av (VStr EmptyString)))
                               (toString (nullish bv (VStr EmptyString))) in
          if (cmp =? 0)%Z then compareMatches fuel schema rest a b
          else Some (match dir with Asc => cmp | Desc => (- cmp)%Z end)
      | _, _ => None
      end
  end.

(** [Array.prototype.sort] with a comparator: a stable sort.  Which pairs
    the host compares is its own choice; for a comparator that is a total
    preorder every stable sort gives this result. *)
Fixpoint insertBy {A : Type} (cmp : A -> A -> option Z) (x : A) (l : list A)
    : option (list A) :=
  match l with
  | [] => Some [x]
  | y :: rest =>
      match cmp x y with
      | Some c =>
          if (c <=? 0)%Z then Some (x :: l)
          else option_map (cons y) (insertBy cmp x rest)
      | None => None
      end
  end.

Fixpoint sortBy {A : Type} (cmp : A -> A -> option Z) (l : list A) : option (list A) :=
  match l with
  | [] => Some []
  | x :: rest =>
      match sortBy cmp rest with
      | Some sorted => insertBy cmp x sorted
      | None => None
      end
  end.

(** The same sort for a comparator that always returns. *)
Fixpoint insertSorted {A : Type} (cmp : A -> A -> Z) (x : A) (l : list A) : list A :=
  match l with
  | [] => [x]
  | y :: rest => if (cmp x y <=? 0)%Z then x :: l else y :: insertSorted cmp x rest
  end.

Fixpoint sortWith {A : Type} (cmp : A -> A -> Z) (l : list A) : list A :=
  match l with
  | [] => []
  | x :: rest => insertSorted cmp x (sortWith cmp rest)
  end.

(** [Array.from(warningsSet).sort((a, b) => a.localeCompare(b))], then the
    notice when the cap was hit. *)
Definition finalWarnings (st : WarningState) : list string :=
  sortWith localeCompare (warningsSet st)
  ++ (if warningsTruncated st then [truncationNotice] else []).

Fixpoint buildRows (fuel : nat) (schema : BaseSchemaResponse) (evaluate : bool)
    (files : list TFile) : option (list value) :=
  match files with
  | [] => Some []
  | f :: rest =>
      match buildRowProps fuel f schema,
            (if evaluate then option_map Some (buildComputed fuel f schema) else Some None),
            buildRows fuel schema evaluate rest with
      | Some props, Some computed, Some rows => Some (queryRow f props computed :: rows)
      | _, _, _ => None
      end
  end.

Record EngineSnap : Type := { snap_ts : number; snap_rows : list value; snap_total : nat }.

Definition EngineCache : Type := list (string * EngineSnap).

Fixpoint cacheGet (cache : EngineCache) (key : string) : option EngineSnap :=
  match cache with
  | [] => None
  | (k, snap) :: rest => if String.eqb k key then Some snap else cacheGet rest key
  end.

Fixpoint cacheSet (cache : EngineCache) (key : string) (snap : EngineSnap) : EngineCache :=
  match cache with
  | [] => [(key, snap)]
  | (k, old) :: rest =>
      if String.eqb k key then (k, snap) :: rest else (k, old) :: cacheSet rest key snap
  end.

Inductive QuerySource : Type := SourceEngine | SourceFallback.

Record BaseQueryResponse : Type := {
  resp_total : nat;
  resp_page : Z;
  resp_rows : list value;
  resp_evaluate : bool;
  resp_source : QuerySource;
  resp_warnings : list string
}.

(** [queryBase], from the schema extracted for the base [id] on: the
    response and the engine cache after the request. *)
Definition queryBase (fuel : nat) (engineEnabled : bool) (cache : EngineCache)
    (vaultFiles : list TFile) (id : string) (schema : BaseSchemaResponse) (body : value)
    : option (BaseQueryResponse * EngineCache) :=
  let view := selectView schema body in
  let limit := queryLimit body view in
  let page := queryPage body in
  let files := filter isCandidate vaultFiles in
  match collectMatches fuel schema (combinedFilter schema view body) files [] noWarnings with
  | None => None
  | Some (unsorted, st) =>
      let specs := sortSpecsOf body view in
      match (match specs with
             | [] => Some unsorted
             | _ => sortBy (compareMatches fuel schema specs) unsorted
             end) with
      | None => None
      | Some matches =>
          let evaluate := toBoolean (field body "evaluate") in
          match buildRows fuel schema evaluate (pageSlice matches page limit) with
          | None => None
          | Some rows =>
              let shouldEngine := evaluate && engineEnabled in
              let key := ensureBaseExt id in
              let found := if shouldEngine then cacheGet cache key else None in
              let fresh :=
                match shouldEngine, found with
                | true, None =>
                    option_map (fun engineRows =>
                       Some {| snap_ts := now; snap_rows := engineRows;
                               snap_total := List.length engineRows |})
                      (buildRows fuel schema true matches)
                | _, _ => Some None
                end in
              match fresh with
              | None => None
              | Some created =>
                  let cache' :=
                    match created with
                    | Some snap => cacheSet cache key snap
                    | None => cache
                    end in
                  let snap := match created with Some s => Some s | None => found end in
                  let ws := finalWarnings st in
                  match evaluate, snap with
                  | true, Some s =>
                      Some ({| resp_total := snap_total s; resp_page := page;
                               resp_rows := pageSlice (snap_rows s) page limit;
                               resp_evaluate := evaluate; resp_source := SourceEngine;
                               resp_warnings := ws |}, cache')
                  | _, _ =>
                      Some ({| resp_total := List.length matches; resp_page := page;
                               resp_rows := rows; resp_evaluate := evaluate;
                               resp_source := SourceFallback; resp_warnings := ws |}, cache')
                  end
              end
          end
      end
  end.

End Host.

(** ** Upsert path *)

Inductive TAbstractFile : Type :=
| AFile (f : TFile)
| AFolder (folderPath : string).

Definition Vault : Type := list TAbstractFile.

Definition abstractPath (a : TAbstractFile) : string :=
  match a with
  | AFile f => path f
  | AFolder p => p
  end.

(** [vault.getAbstractFileByPath] *)
Definition getAbstractFileByPath (vault : Vault) (p : string) : option TAbstractFile :=
  find (fun a => String.eqb (abstractPath a) p) vault.

Record UpsertError : Type := { err_code : string; err_message : string }.

Record UpsertChanged : Type := { changed_keys : list string; changed_unset : option (list string) }.

Record BaseUpsertResult : Type := {
  res_file : string;
  res_mtime : number;
  res_changed : option UpsertChanged;
  res_error : option UpsertError
}.

Record BaseUpsertResponse : Type := {
  upsert_ok : bool;
  upsert_results : list BaseUpsertResult
}.

Definition failure (file : string) (mt : number) (code message : string) : BaseUpsertResult :=
  {| res_file := file; res_mtime := mt; res_changed := None;
     res_error := Some {| err_code := code; err_message := message |} |}.

Definition hasError (r : BaseUpsertResult) : bool :=
  match res_error r with Some _ => true | None => false end.

(** The mutation that the operation hands to [processFrontMatter]. *)
Definition applySet (setObj : object) (fm : object) : object :=
  fold_left (fun acc kv => setProp acc (fst kv) (snd kv)) setObj fm.

Definition applyUnset (unsetArr : list string) (fm : object) : object :=
  fold_left (fun acc k => if hasProp acc k then deleteProp acc k else acc) unsetArr fm.

Definition mutator (setObj : object) (unsetArr : list string) (fm : object) : object :=
  applyUnset unsetArr (applySet setObj fm).

Definition setObjOf (op : value) : object :=
  match field op "set" with
  | VObj o => o
  | _ => []
  end.

Definition unsetArrOf (op : value) : list string :=
  match field op "unset" with
  | VArr ks => flat_map (fun k => match k with VStr s => [s] | _ => [] end) ks
  | _ => []
  end.

(** [typeof op?.expected_mtime === "number" ? op.expected_mtime : undefined] *)
Definition expectedMtime (op : value) : option number :=
  match field op "expected_mtime" with
  | VNum n => Some n
  | _ => None
  end.

(** [expected && abstract.stat.mtime !== expected] *)
Definition mtimeConflict (expected : option number) (actual : number) : bool :=
  match expected with
  | Some e => Num.toBoolean e && negb (Num.eqb actual e)
  | None => false
  end.

Definition conflictMessage (expected actual : number) : string :=
  "Conflit mtime (expected=" ++ Num.toString expected ++ ", actual="
  ++ Num.toString actual ++ ").".

Section Upsert.

Variable decodeURIComponent : string -> option string.

(** [fileManager.processFrontMatter] of the host: the error message when it
    throws, the vault after the write otherwise. *)
Variable processFrontMatter : Vault -> TFile -> (object -> object) -> string + Vault.

(** [abstract.stat.mtime] read again after the write. *)
Definition mtimeAfter (vault : Vault) (f : TFile) : number :=
  match getAbstractFileByPath vault (path f) with
  | Some (AFile f') => stat_mtime f'
  | _ => stat_mtime f
  end.

(** The [try] block: the frontmatter write and its result. *)
Definition writeFrontmatter (vault : Vault) (filePath : string) (f : TFile) (op : value)
    : Vault * BaseUpsertResult :=
  let setObj := setObjOf op in
  let unsetArr := unsetArrOf op in
  match processFrontMatter vault f (mutator setObj unsetArr) with
  | inr vault' =>
      (vault',
       {| res_file := filePath; res_mtime := mtimeAfter vault' f;
          res_changed :=
            Some {| changed_keys := map fst setObj;
                    changed_unset := match unsetArr with [] => None | _ => Some unsetArr end |};
          res_error := None |})
  | inl message => (vault, failure filePath (stat_mtime f) "write_error" message)
  end.

(** [normBaseId(String(op?.file ?? empty))] *)
Definition targetPath (op : value) : string :=
  normBaseId decodeURIComponent (toString (nullish (field op "file") (VStr EmptyString))).

(** The body of the loop over the operations. *)
Definition upsertOne (vault : Vault) (op : value) : Vault * BaseUpsertResult :=
  let filePath := targetPath op in
  if Js.isEmpty filePath then
    (vault, failure EmptyString (S754_zero false) "validation_error"
              ("Op" ++ String (Js.chr 233) "ration sans champ 'file'."))
  else
    match getAbstractFileByPath vault filePath with
    | Some (AFile abstract) =>
        let expected := expectedMtime op in
        if mtimeConflict expected (stat_mtime abstract) then
          (vault,
           failure filePath (stat_mtime abstract) "mtime_conflict"
             (conflictMessage (match expected with Some e => e | None => NaN end)
                              (stat_mtime abstract)))
        else writeFrontmatter vault filePath abstract op
    | _ => (vault, failure filePath (S754_zero false) "not_found"
                     ("Note introuvable: " ++ filePath))
    end.

(** The loop: with [continueOnError] off it stops after the first result
    that carries an error. *)
Fixpoint upsertLoop (continueOnError : bool) (vault : Vault) (ops : list value)
    (results : list BaseUpsertResult) : Vault * list BaseUpsertResult :=
  match ops with
  | [] => (vault, results)
  | op :: rest =>
      let '(vault', result) := upsertOne vault op in
      if hasError result && negb continueOnError then (vault', (results ++ [result])%list)
      else upsertLoop continueOnError vault' rest (results ++ [result])%list
  end.

Fixpoint chars (s : string) : list value :=
  match s with
  | EmptyString => []
  | String c s' => VStr (String c EmptyString) :: chars s'
  end.

(** What [for (const op of body?.operations ?? [])] iterates over; [None]
    when the value is not iterable. *)
Definition operationsOf (body : value) : option (list value) :=
  match field body "operations" with
  | VArr ops => Some ops
  | VUndefined | VNull => Some []
  | VStr s => Some (chars s)
  | _ => None
  end.

Definition upsertBase (vault : Vault) (body : value) : option (Vault * BaseUpsertResponse) :=
  let continueOnError := toBoolean (field body "continueOnError") in
  match operationsOf body with
  | Some ops =>
      let '(vault', results) := upsertLoop continueOnError vault ops [] in
      Some (vault', {| upsert_ok := forallb (fun r => negb (hasError r)) results;
                       upsert_results := results |})
  | None => None
  end.

End Upsert.

(** ** Vocabulary of the properties *)

(** The patterns of the statement grammar after the splits and the
    negations: the built-in predicates, the comparison, the bare reference
    token. *)
Definition builtinPatterns : list regex :=
  [reHasTag; reInFolder; reHasLink; reListContains; rePathStartsWith; rePathContains;
   reFolderStartsWith; reFolderContains; reFileTagsContains; reListPropContainsLink;
   rePropContainsLink; reFileFieldOp].

Definition statementPatterns : list regex :=
  builtinPatterns ++ [reComparison; reRefToken].

Definition noneMatches (res : list regex) (raw : string) : bool :=
  forallb (fun re => negb (Regex.test re raw)) res.

(** No top-level [or]/[and] split applies to the statement. *)
Definition noSplit (raw : string) : bool :=
  negb (severalParts (splitOutsideQuotes raw " or "))
  && negb (severalParts (splitOutsideQuotes raw "||"))
  && negb (severalParts (splitOutsideQuotes raw " and "))
  && negb (severalParts (splitOutsideQuotes raw "&&")).

Definition noNegation (raw : string) : bool :=
  negb (Js.startsWith raw "not ") && negb (Js.startsWith raw "!").

(** A statement that matches none of the forms of the grammar: no split,
    no negation prefix, no built-in predicate, no comparison, not a bare
    reference token. *)
Definition unrecognized (raw : string) : bool :=
  noSplit raw && noNegation raw && noneMatches statementPatterns raw.

(** A statement that reaches the ordered dispatch. *)
Definition plainStatement (raw : string) : bool :=
  nonEmpty raw && noSplit raw && noNegation raw.

(** The arguments of an expression that the formula evaluator takes as an
    [if]: no earlier rule applies, the [if] pattern matches and the text
    between the parentheses has three arguments or more. *)
Definition ifArguments (raw : string) : option (string * string * string) :=
  if Js.isEmpty raw || String.eqb raw "null" || Regex.test reNumber raw || isQuoted raw
     || isDirectRef raw || Regex.test reRefToken raw
     || Regex.test reJoinList raw || Regex.test reList raw
  then None
  else
    match Regex.exec reIf raw with
    | Some m =>
        match map Js.trim (splitTopLevelCommas (group 1 m)) with
        | condRef :: thenRef :: e1 :: rest =>
            Some (condRef, thenRef, Js.trim (joinStrings "," (e1 :: rest)))
        | _ => None
        end
    | None => None
    end.

(** The scenario formula of the design document. *)
Definition priorityFormula : string := "if(priority, 'has-priority', 'none')".

(** A note with the given path, modification time and frontmatter. *)
Definition noteWith (p : string) (mt : Z) (fm : object) : TFile :=
  {| path := p; basename := "note"; extension := "md";
     stat_size := Num.ofZ 120; stat_ctime := Num.ofZ 1000; stat_mtime := Num.ofZ mt;
     cache_frontmatter := VObj fm; cache_tags := []; cache_links := [] |}.

Definition notePriority (n : Z) : TFile :=
  noteWith "Projects/A.md" 5000 [("status", VStr "done"); ("priority", VNum (Num.ofZ n))].

Definition isArray (v : value) : bool :=
  match v with VArr _ => true | _ => false end.





(** The pages of a match list of length [total] with page size [limit]:
    1 to the ceiling of [total / limit]. *)
Definition pageCount (total : nat) (limit : Z) : nat :=
  Z.to_nat ((Z.of_nat total + limit - 1) / limit).

Definition pageNumbers (total : nat) (limit : Z) : list Z :=
  map Z.of_nat (seq 1 (pageCount total limit)).

(** A comparison function is total when, of two texts, one comes before
    the other or they tie. *)
Definition totalComparison (cmp : string -> string -> Z) : Prop :=
  forall a b : string, (0 < cmp a b)%Z -> (cmp b a <= 0)%Z.

(** The order that a comparison function puts on the warnings. *)
Definition inOrder (cmp : string -> string -> Z) (a b : string) : Prop := (cmp a b <= 0)%Z.

(** Hosts for the examples: the comparison by code units, and
    [decodeURIComponent] on texts without escapes. *)
Definition codeUnitCompare (a b : string) : Z :=
  match String.compare a b with
  | Lt => (-1)%Z
  | Eq => 0%Z
  | Gt => 1%Z
  end.

Definition decodePlain (s : string) : option string := Some s.

(** What the warning accumulator keeps true. *)
Definition warningsBounded (st : WarningState) : Prop :=
  NoDup (warningsSet st)
  /\ (List.length (warningsSet st) <= 200)%nat
  /\ (warningsTruncated st = true -> List.length (warningsSet st) = 200%nat).

(** The warnings that the matching loop hands to [addWarnings], one after
    the other: those of the filter result of each file, in enumeration
    order. *)
Definition warningStream (fuel : nat) (schema : BaseSchemaResponse) (flt : value)
    (files : list TFile) : list string :=
  flat_map (fun f => match evaluateFilter fuel f flt (Some schema) with
                     | Some r => warnings r
                     | None => []
                     end) files.

(** The number of distinct texts of a list. *)
Definition distinctCount (l : list string) : nat := List.length (nodup string_dec l).

(** A warning is kept when one of its occurrences arrives while fewer than
    200 distinct warnings have arrived before it. *)
Definition keptWarning (stream : list string) (w : string) : Prop :=
  exists pre post : list string,
    stream = (pre ++ w :: post)%list /\ (distinctCount pre < 200)%nat.

(** The cap is hit when a warning arrives after 200 distinct ones. *)
Definition capWasHit (stream : list string) : Prop :=
  exists (pre : list string) (w : string) (post : list string),
    stream = (pre ++ w :: post)%list /\ (200 <= distinctCount pre)%nat.

(** What the accumulator holds once the warnings of [stream] have
    arrived. *)
Definition accumulated (st : WarningState) (stream : list string) : Prop :=
  NoDup (warningsSet st)
  /\ incl (warningsSet st) stream
  /\ ((List.length (warningsSet st) < 200)%nat -> incl stream (warningsSet st))
  /\ (List.length (warningsSet st) <= 200)%nat
  /\ (forall w : string, In w (warningsSet st) <-> keptWarning stream w)
  /\ (warningsTruncated st = true <-> capWasHit stream).

(** The stream of a query: the warnings of the combined filter on the
    candidate files of the vault. *)
Definition queryWarningStream (fuel : nat) (schema : BaseSchemaResponse) (body : value)
    (vaultFiles : list TFile) : list string :=
  warningStream fuel schema (combinedFilter schema (selectView schema body) body)
    (filter isCandidate vaultFiles).

(** A host for the examples of the upsert path: the write succeeds, stores
    the mutated frontmatter and sets the modification time to [mt]. *)
Definition updateFile (vault : Vault) (f : TFile) (fm : object) (mt : number) : Vault :=
  map (fun a =>
         match a with
         | AFile g =>
             if String.eqb (path g) (path f) then
               AFile {| path := path g; basename := basename g; extension := extension g;
                        stat_size := stat_size g; stat_ctime := stat_ctime g;
                        stat_mtime := mt; cache_frontmatter := VObj fm;
                        cache_tags := cache_tags g; cache_links := cache_links g |}
             else a
         | AFolder _ => a
         end) vault.

Definition writeAt (mt : Z) (vault : Vault) (f : TFile) (mutate : object -> object)
    : string + Vault :=
  inr (updateFile vault f (mutate (getFrontmatter f)) (Num.ofZ mt)).

Definition noError (r : BaseUpsertResult) : bool := negb (hasError r).

(** An upsert operation on [file] that sets [status]. *)
Definition setStatus (file : string) (status : string) (extra : object) : value :=
  VObj ([("file", VStr file); ("set", VObj [("status", VStr status)])] ++ extra).

Definition projectVault : Vault :=
  [AFolder "Projects"; AFile (notePriority 3); AFile (noteWith "Projects/B.md" 6000 [])].

(** Batches for the examples of the upsert path. *)
Definition opB : value := setStatus "Projects/B.md" "ok" [].
Definition opStale : value :=
  setStatus "Projects/A.md" "late" [("expected_mtime", VNum (Num.ofZ 4000))].
Definition opZero : value :=
  setStatus "Projects/A.md" "late" [("expected_mtime", VNum (Num.ofZ 0))].
Definition opLater : value := setStatus "Projects/B.md" "never" [].

Definition batch (ops : list value) : value :=
  VObj [("operations", VArr ops); ("continueOnError", VBool false)].

Definition errorCodes (r : option (Vault * BaseUpsertResponse)) : list (option string) :=
  match r with
  | Some (_, resp) => map (fun res => option_map err_code (res_error res)) (upsert_results resp)
  | None => []
  end.

(** Notes, schemas and requests for the examples. *)
Definition orOfEmptyAndUnknown : object := [("or", VArr [VStr EmptyString; VStr "(x)"])].

Definition noteX (n : Z) : TFile := noteWith "Inbox/x.md" 7000 [("x", VNum (Num.ofZ n))].

Definition bodyWith (fields : object) : value := VObj fields.

Definition taskSchema : BaseSchemaResponse :=
  {| schema_id := "Tasks.base"; schema_path := "Tasks.base"; schema_name := None;
     schema_properties :=
       [ {| prop_key := "status"; prop_kind := KindNote;
            prop_displayName := VUndefined; prop_valueType := VUndefined |} ];
     schema_formulas := None; schema_views := []; schema_filters := VUndefined |}.

Definition taskQuery : value :=
  VObj [("filter", VObj [("or", VArr [VStr "(b)"; VStr "(a)"])])].

Definition noteA : TFile :=
  {| path := "A.md"; basename := "A"; extension := "md";
     stat_size := Num.ofZ 64; stat_ctime := Num.ofZ 100; stat_mtime := Num.ofZ 200;
     cache_frontmatter := VObj [("status", VStr "done"); ("priority", VNum (Num.ofZ 3))];
     cache_tags := []; cache_links := [] |}.

Definition noteB : TFile :=
  {| path := "B.md"; basename := "B"; extension := "md";
     stat_size := Num.ofZ 64; stat_ctime := Num.ofZ 100; stat_mtime := Num.ofZ 200;
     cache_frontmatter := VObj [("tags", VArr [VStr "work"; VStr "urgent"])];
     cache_tags := []; cache_links := [] |}.

(** More fuel only adds results: the orders used to say so. *)
Definition evaluatorLe (e1 e2 : evaluator) : Prop :=
  forall file expr schema v, e1 file expr schema = Some v -> e2 file expr schema = Some v.

Definition resolverLe (r1 r2 : string -> option value) : Prop :=
  forall ref v, r1 ref = Some v -> r2 ref = Some v.

Definition evalLe {A : Type} (e1 e2 : A -> option FilterResult) : Prop :=
  forall part res, e1 part = Some res -> e2 part = Some res.

(** ** Vocabulary of the further properties *)

(** A text without surrounding white space. *)
Definition isTrimmed (s : string) : Prop := Js.trim s = s.

(** The names that every plain object inherits from [Object.prototype]:
    [o[key]] for such a key that is not an own key gives the inherited
    member, not [undefined]. *)
Definition objectPrototypeMembers : list string :=
  ["constructor"; "__defineGetter__"; "__defineSetter__"; "hasOwnProperty";
   "__lookupGetter__"; "__lookupSetter__"; "isPrototypeOf"; "propertyIsEnumerable";
   "toString"; "valueOf"; "__proto__"; "toLocaleString"].

Definition isPrototypeMember (key : string) : bool := hasString objectPrototypeMembers key.

(** No character of the text satisfies [p]. *)
Fixpoint noChar (p : ascii -> bool) (s : string) : bool :=
  match s with
  | EmptyString => true
  | String c s' => negb (p c) && noChar p s'
  end.

Definition isSlashOrBackslash (c : ascii) : bool := Js.isCode 47 c || Js.isCode 92 c.

Definition squote : string := "'".

Definition isQuoteChar (c : ascii) : bool := Js.isCode 39 c || Js.isCode 34 c.

(** [q ++ s ++ q] for a quote character [q]. *)
Definition quoted (q : ascii) (s : string) : string := String q (s ++ String q EmptyString).

Definition isLinkCut (c : ascii) : bool :=
  Js.isCode 124 c || Js.isCode 35 c || Js.isCode 92 c.

Definition isBackslashOr (q : ascii) (c : ascii) : bool := Js.isCode 92 c || Ascii.eqb q c.

Definition startsWithChar (p : ascii -> bool) (s : string) : bool :=
  match s with
  | String c _ => p c
  | EmptyString => false
  end.

(** The two kinds of warning that the filter evaluator gives. *)
Definition isFilterWarning (w : string) : Prop :=
  (exists raw, w = unrecognizedWarning raw) \/ w = unknownShapeWarning.

(** A schema that only declares formulas. *)
Definition schemaWithFormulas (formulas : object) : BaseSchemaResponse :=
  {| schema_id := "F.base"; schema_path := "F.base"; schema_name := None;
     schema_properties := []; schema_formulas := Some formulas;
     schema_views := []; schema_filters := VUndefined |}.

Definition noteLinks : TFile :=
  {| path := "Atlas/Home.md"; basename := "Home"; extension := "md";
     stat_size := Num.ofZ 10; stat_ctime := Num.ofZ 1; stat_mtime := Num.ofZ 2;
     cache_frontmatter := VObj [("status", VStr "done"); ("alias", VStr "H")];
     cache_tags := ["#atlas"]; cache_links := ["Atlas/Maps"; "Daily.md"] |}.

Definition andOfThree : object :=
  [("and", VArr [VStr "(a)"; VStr "status = 'late'"; VStr "(b)"])].

(** An object without [and] array and without [or] array. *)
Definition plainObject (o : object) : bool :=
  negb (isArray (getProp o "and")) && negb (isArray (getProp o "or")).

(** Whether a note passes a filter (with the given fuel). *)
Definition passes (fuel : nat) (schema : BaseSchemaResponse) (flt : value) (f : TFile) : bool :=
  match evaluateFilter fuel f flt (Some schema) with
  | Some r => ok r
  | None => false
  end.

(** The request asks for evaluated rows and the engine is on. *)
Definition servedByEngine (engineEnabled : bool) (body : value) : bool :=
  toBoolean (field body "evaluate") && engineEnabled.

(** A snapshot and requests for the examples of the engine path. *)
Definition staleSnap : EngineSnap :=
  {| snap_ts := Num.ofZ 1; snap_rows := [VStr "row 1"; VStr "row 2"; VStr "row 3"];
     snap_total := 3 |}.

Definition evaluatedQuery : value :=
  VObj [("evaluate", VBool true); ("filter", VStr "priority > 100"); ("limit", VNum (Num.ofZ 2))].

Definition vaultNotes : list TFile := [notePriority 3; noteX 7].

(** The keys of an object, in order. *)
Definition keysOf (o : object) : list string := map fst o.

Definition opMissing : value := setStatus "Projects/None.md" "x" [].
Definition opText : value :=
  setStatus "Projects/A.md" "late" [("expected_mtime", VStr "4000")].

Definition batchOf (continueOnError : bool) (ops : list value) : value :=
  VObj [("operations", VArr ops); ("continueOnError", VBool continueOnError)].

Definition isNumberValue (v : value) : bool :=
  match v with VNum _ => true | _ => false end.

(** ** Schema extraction *)

(** [isRecord(value) ? value[a] ?? value[b] : undefined], where a record is
    a value that is truthy, of type object and not an array. *)
Definition metaOf (v : value) (a b : string) : value :=
  match v with
  | VObj o => nullish (getProp o a) (getProp o b)
  | _ => VUndefined
  end.

(** [Object.entries(v)] when [v] is a record, nothing otherwise.  (The
    entries come in insertion order: keys that are canonical array indices,
    which JavaScript enumerates first, are not used as property names.) *)
Definition entriesOf (v : value) : object :=
  match v with
  | VObj o => o
  | _ => []
  end.

Definition declaredProperty (kv : string * value) : BaseSchemaProperty :=
  {| prop_key := fst kv;
     prop_kind := if Js.startsWith (fst kv) "file." then KindFile else KindNote;
     prop_displayName := metaOf (snd kv) "name" "label";
     prop_valueType := metaOf (snd kv) "type" "valueType" |}.

Definition formulaProperty (kv : string * value) : BaseSchemaProperty :=
  {| prop_key := fst kv;
     prop_kind := KindFormula;
     prop_displayName := metaOf (snd kv) "name" "label";
     prop_valueType := VStr "formula" |}.

(** [Array.isArray(v) ? v.map((x) => String(x)) : undefined] *)
Definition stringsOf (v : value) : option (list string) :=
  match v with
  | VArr items => Some (map toString items)
  | _ => None
  end.

(** One entry of [views]: skipped unless it is a record. *)
Definition viewOf (view : value) : list BaseSchemaView :=
  match view with
  | VObj o =>
      [ {| view_name := toString (nullish (getProp o "name") (VStr EmptyString));
           view_type := toString (nullish (getProp o "type") (VStr "table"));
           view_limit := match getProp o "limit" with VNum n => Some n | _ => None end;
           view_order :=
             match stringsOf (getProp o "order") with
             | Some order => Some order
             | None => stringsOf (getProp o "sort")
             end;
           view_filters := getProp o "filters";
           view_description :=
             match getProp o "description" with VStr s => Some s | _ => None end |} ]
  | _ => []
  end.

Definition extractSchema (basePath : string) (spec : object) : BaseSchemaResponse :=
  let propertiesValue := getProp spec "properties" in
  let formulasValue := getProp spec "formulas" in
  let viewsValue := getProp spec "views" in
  {| schema_id := basePath;
     schema_path := basePath;
     schema_name :=
       if toBoolean (getProp spec "name") then Some (toString (getProp spec "name"))
       else None;
     schema_properties :=
       (map declaredProperty (entriesOf propertiesValue)
        ++ map formulaProperty (entriesOf formulasValue))%list;
     schema_formulas := match formulasValue with VObj o => Some o | _ => None end;
     schema_views := match viewsValue with VArr vs => flat_map viewOf vs | _ => [] end;
     schema_filters := getProp spec "filters" |}.

(** The reference that [buildRowProps] resolves for a property. *)
Definition columnRef (p : BaseSchemaProperty) : string :=
  match prop_kind p with
  | KindFormula => formulaRef (prop_key p)
  | _ => prop_key p
  end.

(** The last property of the list with the given key. *)
Definition lastWithKey (k : string) (ps : list BaseSchemaProperty) : option BaseSchemaProperty :=
  find (fun p => String.eqb (prop_key p) k) (rev ps).

(** A base with one declared property, one formula and two views. *)
Definition taskSpec : object :=
  [("properties", VObj [("status", VObj [("name", VStr "Status")]); ("file.name", VNull)]);
   ("formulas", VObj [("label", VStr "status")]);
   ("views", VArr [VObj [("name", VStr "All"); ("limit", VNum (Num.ofZ 50))];
                   VStr "ignored";
                   VObj [("type", VStr "cards"); ("sort", VArr [VStr "-status"])]])].

(** * Properties *)

(** ** Sanity checks of the embedding on concrete inputs *)

Example regex_lazy_operator :
  exec (seqs [Group 1 (lazyStar dot); star space;
              Group 2 (alts [lit "=="; lit "="; lit "!="; lit ">="; lit "<="; lit ">"; lit "<"]);
              star space; Group 3 (lazyStar dot); star space; Eos]) "a >= 5 "
  = Some [(3, "5"); (2, ">="); (1, "a")].
Proof. reflexivity. Qed.

Example trim_example : Js.trim "  a b  " = "a b".
Proof. reflexivity. Qed.

Example number_of_string_examples :
  map Num.toString
      (map Num.ofString ["5"; " 12.50 "; "-0.1"; "1e21"; "1e23"; "0x1F"; "abc"; EmptyString; "5e-324";
                         "123456789012345678901"; "0.000001"; "0.0000001"; ".5"; "5."; "1.7976931348623157e308";
                         "-Infinity"; "1e400"; "+.5e1"; "2e"; "9007199254740993"; "0.30000000000000004"])
  = ["5"; "12.5"; "-0.1"; "1e+21"; "1e+23"; "31"; "NaN"; "0"; "5e-324";
     "123456789012345680000"; "0.000001"; "1e-7"; "0.5"; "5"; "1.7976931348623157e+308";
     "-Infinity"; "Infinity"; "5"; "NaN"; "9007199254740992"; "0.30000000000000004"].
Proof. vm_compute. reflexivity. Qed.

Example splitOutsideQuotes_example :
  splitOutsideQuotes "a = 'x or y' or b" " or " = ["a = 'x or y'"; "b"].
Proof. reflexivity. Qed.

Example splitTopLevelCommas_example :
  splitTopLevelCommas "priority, 'a,b', if(x, y, z)" = ["priority"; " 'a,b'"; " if(x, y, z)"].
Proof. reflexivity. Qed.

Example normalizeLinkish_example :
  normalizeLinkish " Atlas/Maps|alias " = Some "Atlas/Maps"
  /\ normalizeLinkish "note.md" = Some "note.md"
  /\ normalizeLinkish "\[\]" = None.
Proof. repeat split; reflexivity. Qed.

(** ** Fuel

    A result obtained with some fuel is the result with any larger fuel:
    the fuel only bounds the depth of the calls. *)

Lemma getValueForRefWith_mono (e1 e2 : evaluator) :
  evaluatorLe e1 e2 -> evaluatorLe (getValueForRefWith e1) (getValueForRefWith e2).
Proof.
  intros Hle file ref schema v. unfold getValueForRefWith, evalFormulaWith.
  repeat match goal with
         | |- context [if ?b then _ else _] => destruct b; try (intros H; exact H)
         end.
  destruct schema as [sch|]; [|intros H; exact H].
  destruct (schema_formulas sch) as [formulas|]; [|intros H; exact H].
  destruct (getProp formulas _); try (intros H; exact H). apply Hle.
Qed.

Ltac mono_step Hres IH :=
  match goal with
  | H : ?x = Some _ |- ?x = Some _ => exact H
  | H : None = Some _ |- _ => discriminate H
  | H : getValueForRefWith _ ?f ?r ?s = Some _ |- getValueForRefWith _ ?f ?r ?s = Some _ =>
      apply Hres, H
  | H : evalFormulaExpression _ ?f ?e ?s = Some _ |- evalFormulaExpression _ ?f ?e ?s = Some _ =>
      apply IH, H
  | H : (if ?b then _ else _) = Some _ |- _ => destruct b
  | H : match getValueForRefWith ?e ?f ?r ?s with _ => _ end = Some _ |- _ =>
      let E := fresh "E" in
      destruct (getValueForRefWith e f r s) eqn:E;
      [rewrite (Hres _ _ _ _ E) | discriminate H]
  | H : match ?x with _ => _ end = Some _ |- _ => destruct x
  end.

Lemma evalFormulaExpression_mono (n : nat) :
  forall m : nat, (n <= m)%nat -> evaluatorLe (evalFormulaExpression n) (evalFormulaExpression m).
Proof.
  induction n as [|n IH]; intros m Hle file expr schema v H; [discriminate H|].
  destruct m as [|m]; [lia|]. apply le_S_n in Hle. specialize (IH m Hle).
  pose proof (getValueForRefWith_mono _ _ IH) as Hres.
  cbn [evalFormulaExpression] in H |- *.
  repeat mono_step Hres IH.
Qed.

Lemma orLoop_mono {A : Type} (e1 e2 : A -> option FilterResult) (parts : list A) :
  evalLe e1 e2 ->
  forall any ws res, orLoop e1 parts any ws = Some res -> orLoop e2 parts any ws = Some res.
Proof.
  intros Hle. induction parts as [|p rest IH]; intros any ws res H; cbn in H |- *;
    [exact H|].
  destruct (e1 p) as [r|] eqn:E; [|discriminate H].
  rewrite (Hle _ _ E). apply IH, H.
Qed.

Lemma andLoop_mono {A : Type} (e1 e2 : A -> option FilterResult) (parts : list A) :
  evalLe e1 e2 ->
  forall ws res, andLoop e1 parts ws = Some res -> andLoop e2 parts ws = Some res.
Proof.
  intros Hle. induction parts as [|p rest IH]; intros ws res H; cbn in H |- *;
    [exact H|].
  destruct (e1 p) as [r|] eqn:E; [|discriminate H].
  rewrite (Hle _ _ E). destruct (ok r); [apply IH, H | exact H].
Qed.

Lemma negated_mono (ws : list string) (r1 r2 : option FilterResult) (res : FilterResult) :
  (forall r, r1 = Some r -> r2 = Some r) ->
  negated ws r1 = Some res -> negated ws r2 = Some res.
Proof.
  intros Hle H. destruct r1 as [r|]; [|discriminate H]. rewrite (Hle r eq_refl). exact H.
Qed.

Lemma containsLink_mono (r1 r2 : string -> option value) (key target : string)
    (res : FilterResult) :
  resolverLe r1 r2 ->
  containsLink r1 key target = Some res -> containsLink r2 key target = Some res.
Proof.
  intros Hle. unfold containsLink. destruct (normalizeLinkish _); [|intros H; exact H].
  destruct (r1 key) eqn:E; [|discriminate]. rewrite (Hle _ _ E). intros H; exact H.
Qed.

Lemma dispatch_mono (r1 r2 : string -> option value) (file : TFile) (raw : string)
    (res : FilterResult) :
  resolverLe r1 r2 ->
  dispatch (forms r1 file raw) raw = Some res -> dispatch (forms r2 file raw) raw = Some res.
Proof.
  intros Hle. unfold forms. cbn [dispatch pattern action].
  repeat match goal with
         | |- match Regex.exec ?re raw with _ => _ end = Some _ -> _ =>
             destruct (Regex.exec re raw)
         end;
    try (intros H; exact H); try (apply containsLink_mono, Hle);
    match goal with
    | |- match r1 ?x with _ => _ end = Some _ -> _ =>
        destruct (r1 x) eqn:E; [rewrite (Hle _ _ E); intros H; exact H | discriminate]
    end.
Qed.

Lemma evaluateStatement_mono (n : nat) :
  forall (m : nat) (file : TFile) (statement : string) (schema : option BaseSchemaResponse)
         (res : FilterResult),
    (n <= m)%nat ->
    evaluateStatement n file statement schema = Some res ->
    evaluateStatement m file statement schema = Some res.
Proof.
  induction n as [|n IH]; intros m file statement schema res Hle H; [discriminate H|].
  destruct m as [|m]; [lia|]. apply le_S_n in Hle.
  assert (Hrec : evalLe (fun part => evaluateStatement n file part schema)
                        (fun part => evaluateStatement m file part schema))
    by (intros part r; apply IH, Hle).
  cbn [evaluateStatement] in H |- *.
  repeat match type of H with
         | (if ?b then _ else _) = Some _ => destruct b
         end;
    first [ exact H
          | apply (orLoop_mono _ _ _ Hrec), H
          | apply (andLoop_mono _ _ _ Hrec), H
          | apply (negated_mono _ _ _ _ (Hrec _)), H
          | idtac ].
  revert H. apply dispatch_mono. intros ref v.
  apply (getValueForRefWith_mono _ _ (evalFormulaExpression_mono n m Hle)).
Qed.

Lemma evaluateFilter_mono (n : nat) :
  forall (m : nat) (file : TFile) (flt : value) (schema : option BaseSchemaResponse)
         (res : FilterResult),
    (n <= m)%nat ->
    evaluateFilter n file flt schema = Some res ->
    evaluateFilter m file flt schema = Some res.
Proof.
  induction n as [|n IH]; intros m file flt schema res Hle H; [discriminate H|].
  destruct m as [|m]; [lia|]. apply le_S_n in Hle.
  assert (Hrec : evalLe (fun part => evaluateFilter n file part schema)
                        (fun part => evaluateFilter m file part schema))
    by (intros part r; apply IH, Hle).
  cbn [evaluateFilter] in H |- *.
  destruct (negb (toBoolean flt)); [exact H|].
  destruct flt; try exact H.
  - apply (evaluateStatement_mono n m _ _ _ _ Hle H).
  - destruct (getProp fields "and"); try (apply (andLoop_mono _ _ _ Hrec), H);
      destruct (getProp fields "or"); try (apply (orLoop_mono _ _ _ Hrec), H);
      (destruct (toBoolean (getProp fields "not"));
       [apply (negated_mono _ _ _ _ (Hrec _)), H | exact H]).
Qed.

(** ** Order of the numbers *)

Lemma SFcompare_antisym (x y : number) :
  SFcompare y x = option_map CompOpp (SFcompare x y).
Proof.
  destruct x as [sx|sx| |sx mx ex], y as [sy|sy| |sy my ey]; simpl; try reflexivity;
    try (destruct sx; reflexivity); try (destruct sy; reflexivity);
    try (destruct sx, sy; reflexivity).
  destruct sx, sy; simpl; try reflexivity; f_equal;
    rewrite (Z.compare_antisym ex ey); destruct (ex ?= ey)%Z; simpl; try reflexivity.
  - f_equal. apply (eq_sym (Pos.compare_cont_antisym mx my Eq)).
  - apply (eq_sym (Pos.compare_cont_antisym mx my Eq)).
Qed.

Lemma finite_comparable (x y : number) :
  Num.isFinite x = true -> Num.isFinite y = true -> exists c, SFcompare x y = Some c.
Proof.
  destruct x, y; simpl; intros Hx Hy; try discriminate; eexists; reflexivity.
Qed.

Lemma gtb_is_not_leb (x y : number) :
  Num.isFinite x = true -> Num.isFinite y = true -> Num.gtb x y = negb (Num.leb x y).
Proof.
  intros Hx Hy. unfold Num.gtb, Num.leb, SFltb, SFleb.
  rewrite (SFcompare_antisym x y).
  destruct (finite_comparable x y Hx Hy) as [c ->]. destruct c; reflexivity.
Qed.

Lemma ltb_is_not_geb (x y : number) :
  Num.isFinite x = true -> Num.isFinite y = true -> Num.ltb x y = negb (Num.geb x y).
Proof.
  intros Hx Hy. unfold Num.ltb, Num.geb, SFltb, SFleb.
  rewrite (SFcompare_antisym x y).
  destruct (finite_comparable x y Hx Hy) as [c ->]. destruct c; reflexivity.
Qed.

(** ** The value resolver on bare keys *)

Lemma getValueForRefWith_bare (ev : evaluator) (file : TFile) (ref : string)
    (schema : option BaseSchemaResponse) :
  isDirectRef (Js.trim ref) = false ->
  getValueForRefWith ev file ref schema = Some (getProp (getFrontmatter file) (Js.trim ref)).
Proof.
  unfold isDirectRef, getValueForRefWith. intros H.
  apply orb_false_elim in H as [H H3]. apply orb_false_elim in H as [H1 H2].
  rewrite H1, H2, H3. reflexivity.
Qed.

(** ** The formula evaluator on [if] *)

Lemma test_false_exec (re : regex) (s : string) :
  Regex.test re s = false -> Regex.exec re s = None.
Proof. unfold Regex.test. destruct (Regex.exec re s); [discriminate | reflexivity]. Qed.

Lemma evalFormulaExpression_if (fuel : nat) (file : TFile) (expr : string)
    (schema : option BaseSchemaResponse) (condRef thenRef elseExpr : string) :
  ifArguments (Js.trim expr) = Some (condRef, thenRef, elseExpr) ->
  evalFormulaExpression (S fuel) file expr schema =
    match getValueForRef fuel file condRef schema with
    | Some condVal =>
        if truthy condVal then getValueForRef fuel file thenRef schema
        else evalFormulaExpression fuel file elseExpr schema
    | None => None
    end.
Proof.
  unfold ifArguments. intros H.
  destruct (Js.isEmpty (Js.trim expr)) eqn:E1; [discriminate|].
  destruct (String.eqb (Js.trim expr) "null") eqn:E2; [discriminate|].
  destruct (Regex.test reNumber (Js.trim expr)) eqn:E3; [discriminate|].
  destruct (isQuoted (Js.trim expr)) eqn:E4; [discriminate|].
  destruct (isDirectRef (Js.trim expr)) eqn:E5; [discriminate|].
  destruct (Regex.test reRefToken (Js.trim expr)) eqn:E6; [discriminate|].
  destruct (Regex.test reJoinList (Js.trim expr)) eqn:E7; [discriminate|].
  destruct (Regex.test reList (Js.trim expr)) eqn:E8; [discriminate|].
  simpl orb in H. cbv iota in H.
  cbn [evalFormulaExpression].
  rewrite E1, E2, E3, E4, E5, E6.
  rewrite (test_false_exec _ _ E7), (test_false_exec _ _ E8).
  destruct (Regex.exec reIf (Js.trim expr)) as [m|]; [|discriminate].
  destruct (map Js.trim (splitTopLevelCommas (group 1 m))) as [|c [|t [|e1 rest]]];
    try discriminate.
  injection H as -> -> <-. reflexivity.
Qed.

Lemma quoted_is_not_direct_ref (s : string) : isQuoted s = true -> isDirectRef s = false.
Proof.
  destruct s as [|c s']; [discriminate|].
  unfold isQuoted, isDirectRef, Js.startsWith, dquote. cbn [String.prefix Js.chr].
  intros H. apply orb_true_iff in H as [H|H]; apply andb_true_iff in H as [H _].
  - destruct (ascii_dec (Js.chr 34) c) as [<-|]; [reflexivity | discriminate].
  - destruct (ascii_dec "'"%char c) as [<-|]; [reflexivity | discriminate].
Qed.

(** C8 (amended).  For every note and every formula expression that the
    evaluator takes as an [if] with three arguments or more, when the value
    resolved for the condition is truthy the result is the Value Resolver
    applied to the text of the second argument, taken as a reference: the
    then-branch is not evaluated as a nested expression.  In particular a
    quoted then-branch yields the frontmatter value stored under the quoted
    text, quotes included, and not the string between the quotes. *)
Theorem if_truthy_resolves_then_reference (fuel : nat) (file : TFile) (expr : string)
    (schema : option BaseSchemaResponse) (condRef thenRef elseExpr : string)
    (condVal : value) :
  ifArguments (Js.trim expr) = Some (condRef, thenRef, elseExpr) ->
  getValueForRef fuel file condRef schema = Some condVal ->
  truthy condVal = true ->
  evalFormulaExpression (S fuel) file expr schema = getValueForRef fuel file thenRef schema
  /\ (isQuoted (Js.trim thenRef) = true ->
      evalFormulaExpression (S fuel) file expr schema
      = Some (getProp (getFrontmatter file) (Js.trim thenRef))).
Proof.
  intros Hif Hcond Htruthy.
  rewrite (evalFormulaExpression_if _ _ _ _ _ _ _ Hif), Hcond, Htruthy.
  split; [reflexivity|]. intros Hq.
  apply getValueForRefWith_bare, quoted_is_not_direct_ref, Hq.
Qed.

Lemma if_truthy_resolves_then_reference_witness :
  ifArguments (Js.trim priorityFormula) = Some ("priority", "'has-priority'", "'none'")
  /\ getValueForRef 1 (notePriority 3) "priority" None = Some (VNum (Num.ofZ 3))
  /\ truthy (VNum (Num.ofZ 3)) = true
  /\ evalFormulaExpression 2 (notePriority 3) priorityFormula None
     = getValueForRef 1 (notePriority 3) "'has-priority'" None.
Proof.
  split; [reflexivity|]. split; [reflexivity|]. split; [reflexivity|].
  apply (if_truthy_resolves_then_reference 1 (notePriority 3) priorityFormula None
           "priority" "'has-priority'" "'none'" (VNum (Num.ofZ 3)));
    reflexivity.
Defined.

(** C8 as stated fails: on a note with [priority: 3] the condition is
    truthy, the then-branch ['has-priority'] evaluated as an expression is
    the string [has-priority], and the formula yields [undefined]. *)
Lemma if_then_branch_is_not_evaluated :
  ifArguments (Js.trim priorityFormula) = Some ("priority", "'has-priority'", "'none'")
  /\ getValueForRef 1 (notePriority 3) "priority" None = Some (VNum (Num.ofZ 3))
  /\ truthy (VNum (Num.ofZ 3)) = true
  /\ evalFormulaExpression 2 (notePriority 3) "'has-priority'" None = Some (VStr "has-priority")
  /\ evalFormulaExpression 2 (notePriority 3) priorityFormula None = Some VUndefined
  /\ (forall fuel : nat,
        evalFormulaExpression fuel (notePriority 3) priorityFormula None
        <> Some (VStr "has-priority")).
Proof.
  repeat split; try reflexivity.
  intros [|fuel] H; [discriminate H|].
  rewrite (evalFormulaExpression_mono 1 (S fuel) ltac:(lia) (notePriority 3)
             priorityFormula None VUndefined eq_refl) in H.
  discriminate H.
Qed.

(** C1 (amended).  For every note whose frontmatter has [priority] equal
    to 0, the condition of [if(priority, 'has-priority', 'none')] is truthy
    (a finite number, 0 included, is truthy), so the then-argument is taken
    and resolved as a reference: the result is the frontmatter value under
    the key ['has-priority'], quotes included ([undefined] when the note has
    no such key), and the else-branch is not evaluated. *)
Theorem priority_zero_takes_then_reference (fuel : nat) (file : TFile)
    (schema : option BaseSchemaResponse) (negative : bool) :
  getProp (getFrontmatter file) "priority" = VNum (S754_zero negative) ->
  evalFormulaExpression (S fuel) file priorityFormula schema
  = Some (getProp (getFrontmatter file) "'has-priority'").
Proof.
  intros Hzero.
  rewrite (evalFormulaExpression_if fuel file priorityFormula schema
             "priority" "'has-priority'" "'none'") by reflexivity.
  unfold getValueForRef.
  rewrite (getValueForRefWith_bare _ file "priority") by reflexivity.
  change (Js.trim "priority") with "priority". rewrite Hzero. cbn [truthy Num.isFinite].
  rewrite (getValueForRefWith_bare _ file "'has-priority'") by reflexivity.
  reflexivity.
Qed.

Lemma priority_zero_takes_then_reference_witness :
  getProp (getFrontmatter (notePriority 0)) "priority" = VNum (S754_zero false)
  /\ evalFormulaExpression 2 (notePriority 0) priorityFormula None
     = Some (getProp (getFrontmatter (notePriority 0)) "'has-priority'").
Proof.
  split; [reflexivity|].
  apply (priority_zero_takes_then_reference 1 (notePriority 0) None false). reflexivity.
Defined.

(** C1 as stated fails: on a note with [priority: 0] the scenario formula
    evaluates to [undefined], and with no fuel to the string [none]. *)
Lemma priority_zero_is_not_none :
  getProp (getFrontmatter (notePriority 0)) "priority" = VNum (Num.ofZ 0)
  /\ Num.ofZ 0 = S754_zero false
  /\ evalFormulaExpression 2 (notePriority 0) priorityFormula None = Some VUndefined
  /\ (forall fuel : nat,
        evalFormulaExpression fuel (notePriority 0) priorityFormula None
        <> Some (VStr "none")).
Proof.
  repeat split; try reflexivity.
  intros [|fuel] H; [discriminate H|].
  rewrite (evalFormulaExpression_mono 1 (S fuel) ltac:(lia) (notePriority 0)
             priorityFormula None VUndefined eq_refl) in H.
  discriminate H.
Qed.

(** ** The filter evaluator: dispatch *)

(** Splits the boolean conjunctions among the hypotheses and turns each
    [negb b = true] into [b = false]. *)
Ltac split_conditions :=
  repeat match goal with
         | E : (_ && _) = true |- _ => apply andb_true_iff in E; destruct E
         end;
  repeat match goal with
         | E : negb _ = true |- _ => apply negb_true_iff in E
         end.

Lemma dispatch_miss (f : form) (rest : list form) (raw : string) :
  Regex.test (pattern f) raw = false -> dispatch (f :: rest) raw = dispatch rest raw.
Proof. intros H. cbn [dispatch]. rewrite (test_false_exec _ _ H). reflexivity. Qed.

Lemma dispatch_no_match (fs : list form) (raw : string) :
  noneMatches (map pattern fs) raw = true ->
  dispatch fs raw = Some (passing [unrecognizedWarning raw]).
Proof.
  unfold noneMatches. induction fs as [|f rest IH]; intros H; [reflexivity|].
  cbn [map forallb] in H. apply andb_true_iff in H as [Hf Hrest].
  apply negb_true_iff in Hf. rewrite (dispatch_miss _ _ _ Hf). apply IH, Hrest.
Qed.

Lemma dispatch_skip_prefix (pre post : list form) (raw : string) :
  noneMatches (map pattern pre) raw = true ->
  dispatch (pre ++ post) raw = dispatch post raw.
Proof.
  unfold noneMatches. induction pre as [|f rest IH]; intros H; [reflexivity|].
  cbn [map forallb] in H. apply andb_true_iff in H as [Hf Hrest].
  apply negb_true_iff in Hf. cbn [app]. rewrite (dispatch_miss _ _ _ Hf). apply IH, Hrest.
Qed.

Lemma forms_patterns (resolve : string -> option value) (file : TFile) (raw : string) :
  map pattern (forms resolve file raw) = statementPatterns.
Proof. reflexivity. Qed.

Lemma evaluateStatement_plain (fuel : nat) (file : TFile) (statement : string)
    (schema : option BaseSchemaResponse) :
  plainStatement (Js.trim statement) = true ->
  evaluateStatement (S fuel) file statement schema
  = dispatch (forms (fun ref => getValueForRef fuel file ref schema) file (Js.trim statement))
             (Js.trim statement).
Proof.
  unfold plainStatement, noSplit, noNegation, nonEmpty. intros H.
  split_conditions.
  cbn [evaluateStatement].
  repeat match goal with
         | E : _ = false |- _ => rewrite E; clear E
         end.
  reflexivity.
Qed.

Lemma dispatch_comparison (resolve : string -> option value) (file : TFile) (raw : string)
    (m : captures) :
  noneMatches builtinPatterns raw = true ->
  Regex.exec reComparison raw = Some m ->
  dispatch (forms resolve file raw) raw
  = match resolve (Js.trim (group 1 m)) with
    | Some lhs => answer (compareValues (group 2 m) lhs (rightOperand (Js.trim (group 3 m))))
    | None => None
    end.
Proof.
  intros Hnone Hm.
  rewrite <- (firstn_skipn 12 (forms resolve file raw)).
  rewrite (dispatch_skip_prefix (firstn 12 (forms resolve file raw))
             (skipn 12 (forms resolve file raw)) raw Hnone).
  unfold forms. cbn [skipn dispatch pattern action]. rewrite Hm. reflexivity.
Qed.

(** C3 (amended).  For every note and every statement whose text, once
    trimmed, is not empty and matches none of the forms of the grammar (no
    top-level or/and split, no negation prefix, no built-in predicate, no
    comparison, not a bare reference token), [evaluateStatement] returns,
    without raising, [ok: true] with the single warning
    "Filter non reconnu: " followed by the trimmed text.  (A blank statement
    passes with no warning at all.) *)
Theorem unrecognized_statement_passes_with_warning (fuel : nat) (file : TFile)
    (statement : string) (schema : option BaseSchemaResponse) :
  nonEmpty (Js.trim statement) = true ->
  unrecognized (Js.trim statement) = true ->
  evaluateStatement (S fuel) file statement schema
  = Some {| ok := true; warnings := ["Filter non reconnu: " ++ Js.trim statement] |}.
Proof.
  unfold unrecognized. intros Hne H.
  apply andb_true_iff in H as [H Hnone]. apply andb_true_iff in H as [Hsplit Hneg].
  rewrite evaluateStatement_plain
    by (unfold plainStatement; rewrite Hne, Hsplit, Hneg; reflexivity).
  apply dispatch_no_match. rewrite forms_patterns. exact Hnone.
Qed.

Lemma unrecognized_statement_passes_with_warning_witness :
  nonEmpty (Js.trim " (x) ") = true
  /\ unrecognized (Js.trim " (x) ") = true
  /\ evaluateStatement 1 (notePriority 3) " (x) " None
     = Some {| ok := true; warnings := ["Filter non reconnu: (x)"] |}.
Proof.
  split; [reflexivity|]. split; [vm_compute; reflexivity|].
  apply (unrecognized_statement_passes_with_warning 0 (notePriority 3) " (x) " None);
    vm_compute; reflexivity.
Defined.

(** C3 as stated fails on the empty statement: it matches none of the
    forms, and it passes without any warning. *)
Lemma empty_statement_has_no_warning :
  unrecognized EmptyString = true
  /\ evaluateStatement 1 (notePriority 3) EmptyString None
     = Some {| ok := true; warnings := [] |}
  /\ (forall (fuel : nat) (res : FilterResult),
        evaluateStatement fuel (notePriority 3) EmptyString None = Some res ->
        warnings res = []).
Proof.
  split; [vm_compute; reflexivity|]. split; [vm_compute; reflexivity|].
  intros [|fuel] res H; [discriminate H|].
  assert (H1 : evaluateStatement 1 (notePriority 3) EmptyString None
               = Some {| ok := true; warnings := [] |}) by (vm_compute; reflexivity).
  apply (evaluateStatement_mono 1 (S fuel)) in H1; [|lia].
  rewrite H1 in H. injection H as <-. reflexivity.
Qed.

(** ** The filter evaluator: structured [or] *)

Lemma orLoop_evaluates_all {A : Type} (eval : A -> option FilterResult)
    (parts : list A) (results : list FilterResult) :
  Forall2 (fun part res => eval part = Some res) parts results ->
  forall (any : bool) (ws : list string),
    orLoop eval parts any ws
    = Some {| ok := any || existsb ok results;
              warnings := (ws ++ List.concat (map warnings results))%list |}.
Proof.
  induction 1 as [|part res parts results Hpart _ IH]; intros any ws; cbn.
  - rewrite orb_false_r, app_nil_r. reflexivity.
  - rewrite Hpart, IH, <- app_assoc. f_equal. f_equal.
    destruct (ok res), any; reflexivity.
Qed.

(** C2 (amended).  For every note and every structured node
    [{or: [F1, ..., Fn]}] (without an [and] array), [evaluateFilter]
    evaluates every child in order, whatever the earlier children returned:
    [ok] holds when some child is ok, and the warnings are those of all the
    children, the ones after the first success included. *)
Theorem or_node_evaluates_every_child (fuel : nat) (file : TFile) (o : object)
    (schema : option BaseSchemaResponse) (parts : list value)
    (results : list FilterResult) :
  isArray (getProp o "and") = false ->
  getProp o "or" = VArr parts ->
  Forall2 (fun part res => evaluateFilter fuel file part schema = Some res) parts results ->
  evaluateFilter (S fuel) file (VObj o) schema
  = Some {| ok := existsb ok results; warnings := List.concat (map warnings results) |}.
Proof.
  intros Hand Hor Hall. cbn [evaluateFilter toBoolean negb].
  destruct (getProp o "and"); try discriminate; rewrite Hor;
    apply (orLoop_evaluates_all _ _ _ Hall false []).
Qed.

Lemma or_node_evaluates_every_child_witness :
  isArray (getProp orOfEmptyAndUnknown "and") = false
  /\ getProp orOfEmptyAndUnknown "or" = VArr [VStr EmptyString; VStr "(x)"]
  /\ evaluateFilter 3 (notePriority 3) (VObj orOfEmptyAndUnknown) None
     = Some {| ok := true; warnings := ["Filter non reconnu: (x)"] |}.
Proof.
  split; [reflexivity|]. split; [reflexivity|].
  apply (or_node_evaluates_every_child 2 (notePriority 3) orOfEmptyAndUnknown None
           [VStr EmptyString; VStr "(x)"]
           [ {| ok := true; warnings := [] |};
             {| ok := true; warnings := ["Filter non reconnu: (x)"] |} ]).
  - reflexivity.
  - reflexivity.
  - repeat constructor.
Defined.

(** C2 as stated fails: in [{or: [F1, F2]}] with [F1] the empty statement,
    which succeeds, and [F2] an unrecognized statement, the warning of [F2]
    is in the result. *)
Lemma or_node_does_not_short_circuit :
  evaluateFilter 2 (notePriority 3) (VStr EmptyString) None
  = Some {| ok := true; warnings := [] |}
  /\ evaluateFilter 2 (notePriority 3) (VStr "(x)") None
     = Some {| ok := true; warnings := ["Filter non reconnu: (x)"] |}
  /\ evaluateFilter 3 (notePriority 3) (VObj orOfEmptyAndUnknown) None
     = Some {| ok := true; warnings := ["Filter non reconnu: (x)"] |}
  /\ (forall (fuel : nat) (res : FilterResult),
        evaluateFilter fuel (notePriority 3) (VObj orOfEmptyAndUnknown) None = Some res ->
        In "Filter non reconnu: (x)" (warnings res)).
Proof.
  do 3 (split; [vm_compute; reflexivity|]).
  intros fuel res H.
  assert (H3 : evaluateFilter 3 (notePriority 3) (VObj orOfEmptyAndUnknown) None
               = Some {| ok := true; warnings := ["Filter non reconnu: (x)"] |})
    by (vm_compute; reflexivity).
  apply (evaluateFilter_mono 3 (fuel + 3)) in H3; [|lia].
  apply (evaluateFilter_mono fuel (fuel + 3)) in H; [|lia].
  rewrite H3 in H. injection H as <-. left. reflexivity.
Qed.

(** ** The filter evaluator: numeric comparison *)

Lemma evaluateStatement_comparison (fuel : nat) (file : TFile) (statement : string)
    (schema : option BaseSchemaResponse) (m : captures) (lhs : value) :
  plainStatement (Js.trim statement) = true ->
  noneMatches builtinPatterns (Js.trim statement) = true ->
  Regex.exec reComparison (Js.trim statement) = Some m ->
  getValueForRef fuel file (Js.trim (group 1 m)) schema = Some lhs ->
  evaluateStatement (S fuel) file statement schema
  = answer (compareValues (group 2 m) lhs (rightOperand (Js.trim (group 3 m)))).
Proof.
  intros Hplain Hnone Hm Hlhs.
  rewrite (evaluateStatement_plain _ _ _ _ Hplain).
  rewrite (dispatch_comparison _ _ _ m Hnone Hm), Hlhs. reflexivity.
Qed.

Lemma compareValues_numeric (op : string) (x y : number) :
  Num.isFinite x = true -> Num.isFinite y = true ->
  compareValues op (VNum x) (VNum y)
  = if String.eqb op "==" || String.eqb op "=" then Num.eqb x y
    else if String.eqb op "!=" then negb (Num.eqb x y)
    else if String.eqb op ">" then Num.gtb x y
    else if String.eqb op "<" then Num.ltb x y
    else if String.eqb op ">=" then Num.geb x y
    else Num.leb x y.
Proof.
  intros Hx Hy. unfold compareValues. cbn [asNumber]. rewrite Hx, Hy. reflexivity.
Qed.

(** The statement [x op 5] on a note where [x] resolves to the number [n]:
    the comparison of [n] with 5 under [op]. *)
Lemma compare_x_with_five (fuel : nat) (file : TFile) (schema : option BaseSchemaResponse)
    (n : number) (op : string) :
  getValueForRef fuel file "x" schema = Some (VNum n) ->
  plainStatement ("x " ++ op ++ " 5") = true ->
  noneMatches builtinPatterns ("x " ++ op ++ " 5") = true ->
  Js.trim ("x " ++ op ++ " 5") = "x " ++ op ++ " 5" ->
  Regex.exec reComparison ("x " ++ op ++ " 5") = Some [(3, "5"); (2, op); (1, "x")] ->
  evaluateStatement (S fuel) file ("x " ++ op ++ " 5") schema
  = answer (compareValues op (VNum n) (VNum (Num.ofZ 5))).
Proof.
  intros Hx Hplain Hnone Htrim Hm.
  rewrite (evaluateStatement_comparison fuel file _ schema
             [(3, "5"); (2, op); (1, "x")] (VNum n));
    rewrite ?Htrim; try assumption.
  cbn [group Nat.eqb]. reflexivity.
Qed.

(** C6.  For every note where the reference [x] resolves to a finite
    number, the result of ["x > 5"] is the negation of the result of
    ["x <= 5"], and likewise ["x < 5"] is the negation of ["x >= 5"]; each
    of the four statements returns, without warnings. *)
Theorem strict_comparison_negates_non_strict (fuel : nat) (file : TFile)
    (schema : option BaseSchemaResponse) (n : number) :
  getValueForRef fuel file "x" schema = Some (VNum n) ->
  Num.isFinite n = true ->
  exists gt lt : bool,
    evaluateStatement (S fuel) file "x > 5" schema = Some {| ok := gt; warnings := [] |}
    /\ evaluateStatement (S fuel) file "x <= 5" schema
       = Some {| ok := negb gt; warnings := [] |}
    /\ evaluateStatement (S fuel) file "x < 5" schema = Some {| ok := lt; warnings := [] |}
    /\ evaluateStatement (S fuel) file "x >= 5" schema
       = Some {| ok := negb lt; warnings := [] |}.
Proof.
  intros Hx Hfin.
  assert (Hfive : Num.isFinite (Num.ofZ 5) = true) by reflexivity.
  exists (Num.gtb n (Num.ofZ 5)), (Num.ltb n (Num.ofZ 5)).
  repeat split.
  - change "x > 5" with ("x " ++ ">" ++ " 5").
    rewrite (compare_x_with_five fuel file schema n ">" Hx) by (vm_compute; reflexivity).
    rewrite (compareValues_numeric _ _ _ Hfin Hfive). reflexivity.
  - change "x <= 5" with ("x " ++ "<=" ++ " 5").
    rewrite (compare_x_with_five fuel file schema n "<=" Hx) by (vm_compute; reflexivity).
    rewrite (compareValues_numeric _ _ _ Hfin Hfive), (gtb_is_not_leb _ _ Hfin Hfive).
    cbn [String.eqb Ascii.eqb Bool.eqb orb]. rewrite negb_involutive. reflexivity.
  - change "x < 5" with ("x " ++ "<" ++ " 5").
    rewrite (compare_x_with_five fuel file schema n "<" Hx) by (vm_compute; reflexivity).
    rewrite (compareValues_numeric _ _ _ Hfin Hfive). reflexivity.
  - change "x >= 5" with ("x " ++ ">=" ++ " 5").
    rewrite (compare_x_with_five fuel file schema n ">=" Hx) by (vm_compute; reflexivity).
    rewrite (compareValues_numeric _ _ _ Hfin Hfive), (ltb_is_not_geb _ _ Hfin Hfive).
    cbn [String.eqb Ascii.eqb Bool.eqb orb]. rewrite negb_involutive. reflexivity.
Qed.

Lemma strict_comparison_negates_non_strict_witness :
  getValueForRef 0 (noteX 7) "x" None = Some (VNum (Num.ofZ 7))
  /\ Num.isFinite (Num.ofZ 7) = true
  /\ exists gt lt : bool,
       evaluateStatement 1 (noteX 7) "x > 5" None = Some {| ok := gt; warnings := [] |}
       /\ evaluateStatement 1 (noteX 7) "x <= 5" None
          = Some {| ok := negb gt; warnings := [] |}
       /\ evaluateStatement 1 (noteX 7) "x < 5" None = Some {| ok := lt; warnings := [] |}
       /\ evaluateStatement 1 (noteX 7) "x >= 5" None
          = Some {| ok := negb lt; warnings := [] |}.
Proof.
  split; [reflexivity|]. split; [reflexivity|].
  apply (strict_comparison_negates_non_strict 0 (noteX 7) None (Num.ofZ 7)); reflexivity.
Defined.

(** ** The query planner: page size and page number *)




Example query_limit_examples :
  map (fun v => queryLimit (bodyWith [("limit", v)]) None)
      [VNum (Num.ofZ 50); VNum (Num.ofZ 0); VNum (Num.ofZ 9999); VStr "abc"; VStr "75";
       VNum (Num.ofString "2.7"); VNum Num.NaN; VNum Num.Infinity; VNull]
  = [50; 1; 500; 20; 75; 2; 20; 20; 20]%Z.
Proof. vm_compute. reflexivity. Qed.

Example query_page_examples :
  map (fun v => queryPage (bodyWith [("page", v)]))
      [VNum (Num.ofZ 3); VNum (Num.ofZ (-4)); VNum (Num.ofZ 2000000); VStr "x"; VUndefined]
  = [3; 1; 1000000; 1; 1]%Z.
Proof. vm_compute. reflexivity. Qed.

(** ** The query planner: pagination *)

Lemma firstn_skipn_add {A : Type} (a b : nat) (l : list A) :
  (firstn a l ++ firstn b (skipn a l))%list = firstn (a + b) l.
Proof.
  revert l. induction a as [|a IH]; intros l; [reflexivity|].
  destruct l as [|x l]; cbn; [now rewrite firstn_nil | now rewrite IH].
Qed.

Lemma chunks_concat {A : Type} (n k : nat) (l : list A) :
  List.concat (map (fun i => firstn n (skipn (i * n) l)) (seq 0 k)) = firstn (k * n) l.
Proof.
  induction k as [|k IH]; [reflexivity|].
  rewrite seq_S, map_app, concat_app, IH. cbn [map List.concat Nat.add].
  rewrite app_nil_r, firstn_skipn_add. f_equal. lia.
Qed.

Lemma arraySlice_window {A : Type} (l : list A) (start len : Z) :
  (0 <= start)%Z -> (0 <= len)%Z ->
  arraySlice l start (start + len) = firstn (Z.to_nat len) (skipn (Z.to_nat start) l).
Proof.
  intros Hs Hl. unfold arraySlice, Js.relIndex.
  destruct (start <? 0)%Z eqn:E1; [apply Z.ltb_lt in E1; lia|].
  destruct (start + len <? 0)%Z eqn:E2; [apply Z.ltb_lt in E2; lia|].
  set (n := List.length l).
  destruct (Z_le_gt_dec (Z.of_nat n) start) as [Hge|Hlt].
  - rewrite !Z.min_r by lia. rewrite Z.sub_diag. cbn [Z.to_nat firstn].
    rewrite (skipn_all2 l) by (fold n; lia). now rewrite firstn_nil.
  - rewrite (Z.min_l start) by lia.
    destruct (Z_le_gt_dec (start + len) (Z.of_nat n)) as [Hin|Hout].
    + rewrite Z.min_l by lia. f_equal. f_equal. lia.
    + rewrite Z.min_r by lia.
      rewrite !firstn_all2; try reflexivity; rewrite length_skipn; fold n; lia.
Qed.

Lemma pageSlice_window {A : Type} (matches : list A) (page limit : Z) :
  (1 <= page)%Z -> (1 <= limit)%Z ->
  pageSlice matches page limit
  = firstn (Z.to_nat limit) (skipn (Z.to_nat ((page - 1) * limit)) matches).
Proof. intros Hp Hl. unfold pageSlice. apply arraySlice_window; nia. Qed.

(** C5.  For every sorted match list of length T and every limit L in
    [1, 500], the page p is the slice from (p-1)*L to (p-1)*L + L of the
    list, and the pages 1 to the ceiling of T/L, put one after the other,
    are the match list itself: every match once, in order. *)
Theorem pages_concatenate_to_match_list {A : Type} (matches : list A) (limit : Z) :
  (1 <= limit <= 500)%Z ->
  (forall page : Z, (1 <= page)%Z ->
     pageSlice matches page limit
     = firstn (Z.to_nat limit) (skipn (Z.to_nat ((page - 1) * limit)) matches))
  /\ List.concat (map (fun page => pageSlice matches page limit)
                      (pageNumbers (List.length matches) limit))
     = matches.
Proof.
  intros [Hlo Hhi]. split; [intros page Hp; apply pageSlice_window; lia|].
  unfold pageNumbers. set (k := pageCount (List.length matches) limit).
  rewrite <- seq_shift, !map_map.
  rewrite (map_ext _ (fun i => firstn (Z.to_nat limit) (skipn (i * Z.to_nat limit) matches))).
  - rewrite chunks_concat. apply firstn_all2.
    unfold k, pageCount.
    assert (H : (Z.of_nat (List.length matches)
                 <= (Z.of_nat (List.length matches) + limit - 1) / limit * limit)%Z).
    { pose proof (Z.div_mod (Z.of_nat (List.length matches) + limit - 1) limit ltac:(lia)).
      pose proof (Z.mod_pos_bound (Z.of_nat (List.length matches) + limit - 1) limit ltac:(lia)).
      nia. }
    assert (0 <= (Z.of_nat (List.length matches) + limit - 1) / limit)%Z
      by (apply Z.div_pos; lia).
    nia.
  - intros i. rewrite pageSlice_window by lia. do 2 f_equal. nia.
Qed.

Lemma pages_concatenate_to_match_list_witness :
  (1 <= 3 <= 500)%Z
  /\ pageNumbers 7 3 = [1; 2; 3]%Z
  /\ List.concat (map (fun page => pageSlice ["a"; "b"; "c"; "d"; "e"; "f"; "g"] page 3)
                      (pageNumbers 7 3))
     = ["a"; "b"; "c"; "d"; "e"; "f"; "g"].
Proof.
  split; [lia|]. split; [reflexivity|].
  apply (pages_concatenate_to_match_list ["a"; "b"; "c"; "d"; "e"; "f"; "g"] 3). lia.
Defined.

(** The pages of a response: the page number is the clamped one; on the
    fallback path the rows are built from the page of the sorted match
    list, on the engine path they are the page of the snapshot rows. *)
Lemma queryBase_pages (localeCompare : string -> string -> Z)
    (decodeURIComponent : string -> option string) (now : number)
    (fuel : nat) (engineEnabled : bool) (cache : EngineCache)
    (vaultFiles : list TFile) (id : string) (schema : BaseSchemaResponse) (body : value)
    (resp : BaseQueryResponse) (cache' : EngineCache) :
  queryBase localeCompare decodeURIComponent now fuel engineEnabled cache vaultFiles id
            schema body = Some (resp, cache') ->
  let page := queryPage body in
  let limit := queryLimit body (selectView schema body) in
  resp_page resp = page
  /\ match resp_source resp with
     | SourceFallback =>
         exists matches : list TFile,
           resp_total resp = List.length matches
           /\ buildRows fuel schema (toBoolean (field body "evaluate"))
                (pageSlice matches page limit) = Some (resp_rows resp)
     | SourceEngine =>
         exists snap : EngineSnap,
           resp_total resp = snap_total snap
           /\ resp_rows resp = pageSlice (snap_rows snap) page limit
     end.
Proof.
  unfold queryBase. intros H. cbv zeta.
  destruct (collectMatches fuel schema _ _ [] noWarnings) as [[unsorted st]|];
    [|discriminate].
  destruct (match sortSpecsOf body (selectView schema body) with
            | [] => Some unsorted
            | _ => _
            end) as [matches|]; [|discriminate].
  destruct (buildRows fuel schema _ (pageSlice matches _ _)) as [rows|] eqn:Hrows;
    [|discriminate].
  repeat match type of H with
         | match ?x with _ => _ end = Some _ => destruct x eqn:?; try discriminate
         end;
    injection H as <- _; cbn; (split; [reflexivity|]);
    first [ exists matches; split; [reflexivity | assumption]
          | eexists; split; reflexivity ].
Qed.

(** ** The query planner: warnings *)

Lemma hasString_In (l : list string) (s : string) : hasString l s = true <-> In s l.
Proof.
  unfold hasString. rewrite existsb_exists. split.
  - intros [x [Hin Heq]]. apply String.eqb_eq in Heq. now subst.
  - intros Hin. exists s. split; [assumption | apply String.eqb_refl].
Qed.

Lemma setAdd_NoDup (s : list string) (w : string) : NoDup s -> NoDup (setAdd s w).
Proof.
  intros Hs. unfold setAdd. destruct (hasString s w) eqn:E; [assumption|].
  apply NoDup_app; repeat constructor; try assumption.
  - intros [].
  - intros x Hx [<-|[]]. apply hasString_In in Hx. congruence.
Qed.

Lemma setAdd_length (s : list string) (w : string) :
  (List.length (setAdd s w) <= S (List.length s))%nat.
Proof.
  unfold setAdd. destruct (hasString s w); [lia|]. rewrite length_app. cbn. lia.
Qed.

Lemma addWarnings_bounded (ws : list string) :
  forall st : WarningState, warningsBounded st -> warningsBounded (addWarnings st ws).
Proof.
  induction ws as [|w rest IH]; intros st Hst; [assumption|].
  destruct Hst as (Hnd & Hlen & Htr). cbn [addWarnings].
  destruct (200 <=? List.length (warningsSet st))%nat eqn:E.
  - apply Nat.leb_le in E. repeat split; cbn; try assumption. lia.
  - apply Nat.leb_gt in E. apply IH. repeat split; cbn.
    + apply setAdd_NoDup, Hnd.
    + pose proof (setAdd_length (warningsSet st) w). lia.
    + intros Ht. specialize (Htr Ht). lia.
Qed.

Lemma noWarnings_bounded : warningsBounded noWarnings.
Proof. repeat split; cbn; [constructor | lia | discriminate]. Qed.

Lemma collectMatches_bounded (fuel : nat) (schema : BaseSchemaResponse) (flt : value)
    (files : list TFile) :
  forall (acc : list TFile) (st : WarningState) (matches : list TFile) (st' : WarningState),
    warningsBounded st ->
    collectMatches fuel schema flt files acc st = Some (matches, st') ->
    warningsBounded st'.
Proof.
  induction files as [|f rest IH]; intros acc st matches st' Hst H; cbn in H.
  - injection H as _ <-. assumption.
  - destruct (evaluateFilter fuel f flt (Some schema)) as [r|]; [|discriminate].
    eapply IH; [|exact H]. apply addWarnings_bounded, Hst.
Qed.

Lemma distinctCount_incl (l l' : list string) :
  incl l l' -> (distinctCount l <= distinctCount l')%nat.
Proof.
  intros H. unfold distinctCount. apply NoDup_incl_length; [apply NoDup_nodup|].
  intros x Hx. apply nodup_In. apply H. apply (nodup_In string_dec l x), Hx.
Qed.

Lemma distinctCount_lower (s l : list string) :
  NoDup s -> incl s l -> (List.length s <= distinctCount l)%nat.
Proof.
  intros Hnd H. unfold distinctCount. apply NoDup_incl_length; [exact Hnd|].
  intros x Hx. apply nodup_In, H, Hx.
Qed.

Lemma distinctCount_set (s l : list string) :
  NoDup s -> incl s l -> incl l s -> List.length s = distinctCount l.
Proof.
  intros Hnd H1 H2. apply Nat.le_antisymm; [apply distinctCount_lower; assumption|].
  unfold distinctCount. apply NoDup_incl_length; [apply NoDup_nodup|].
  intros x Hx. apply H2. apply (nodup_In string_dec l x), Hx.
Qed.

Lemma setAdd_In (s : list string) (w x : string) :
  In x (setAdd s w) <-> In x s \/ x = w.
Proof.
  unfold setAdd. destruct (hasString s w) eqn:E.
  - apply hasString_In in E. split; [auto | intros [H| ->]; assumption].
  - rewrite in_app_iff. cbn. intuition.
Qed.

Lemma accumulated_empty : accumulated noWarnings [].
Proof.
  unfold accumulated, noWarnings. cbn.
  split; [constructor|]. split; [intros x Hx; exact Hx|].
  split; [intros _ x Hx; exact Hx|]. split; [lia|]. split.
  - intros w. split; [intros []|].
    intros [pre [post [H _]]]. destruct pre; discriminate H.
  - split; [discriminate|].
    intros [pre [w [post [H _]]]]. destruct pre; discriminate H.
Qed.

(** A warning that arrives when the set is full is dropped, and the cap is
    hit. *)
Lemma accumulated_full (st : WarningState) (stream : list string) (w : string)
    (rest : list string) :
  accumulated st stream ->
  (200 <= List.length (warningsSet st))%nat ->
  accumulated {| warningsSet := warningsSet st; warningsTruncated := true |}
              (stream ++ w :: rest).
Proof.
  intros (Hnd & Hin & Hall & Hlen & Hkept & Htr) Hfull.
  unfold accumulated. cbn [warningsSet warningsTruncated].
  pose proof (distinctCount_lower _ _ Hnd Hin) as Hd.
  split; [exact Hnd|].
  split; [intros x Hx; apply in_or_app; left; apply Hin, Hx|].
  split; [intros Hlt; lia|]. split; [exact Hlen|]. split.
  - intros x. split.
    + intros Hx. apply Hkept in Hx as [pre [post [-> Hpre]]].
      exists pre, (post ++ w :: rest)%list. split; [|exact Hpre].
      rewrite <- app_assoc. reflexivity.
    + intros [pre [post [Heq Hpre]]]. apply Hkept.
      apply app_eq_app in Heq as [mid [[Hs Hmid]|[Hp Hmid]]].
      * destruct mid as [|y mid]; cbn in Hmid.
        -- exfalso. rewrite app_nil_r in Hs. subst pre. lia.
        -- injection Hmid as <- _. exists pre, mid. split; [exact Hs | exact Hpre].
      * exfalso. pose proof (distinctCount_incl stream pre) as Hle. subst pre.
        specialize (Hle (fun y Hy => in_or_app _ _ y (or_introl Hy))). lia.
  - split; [|reflexivity]. intros _. exists stream, w, rest. split; [reflexivity | lia].
Qed.

(** A warning that arrives before the cap is added to the set. *)
Lemma accumulated_add (st : WarningState) (stream : list string) (w : string) :
  accumulated st stream ->
  (List.length (warningsSet st) < 200)%nat ->
  accumulated {| warningsSet := setAdd (warningsSet st) w;
                 warningsTruncated := warningsTruncated st |}
              (stream ++ [w]).
Proof.
  intros (Hnd & Hin & Hall & Hlen & Hkept & Htr) Hroom.
  unfold accumulated. cbn [warningsSet warningsTruncated].
  specialize (Hall Hroom).
  pose proof (distinctCount_set _ _ Hnd Hin Hall) as Hd.
  split; [apply setAdd_NoDup, Hnd|].
  split.
  { intros x Hx. apply setAdd_In in Hx as [Hx| ->]; apply in_or_app;
      [left; apply Hin, Hx | right; now left]. }
  split.
  { intros _ x Hx. apply setAdd_In. apply in_app_or in Hx as [Hx|[<-|[]]];
      [left; apply Hall, Hx | now right]. }
  split; [pose proof (setAdd_length (warningsSet st) w); lia|].
  split.
  - intros x. rewrite setAdd_In. split.
    + intros [Hx| ->].
      * apply Hkept in Hx as [pre [post [-> Hpre]]].
        exists pre, (post ++ [w])%list. split; [|exact Hpre].
        rewrite <- app_assoc. reflexivity.
      * exists stream, []. split; [reflexivity | lia].
    + intros [pre [post [Heq Hpre]]].
      apply app_eq_app in Heq as [mid [[Hs Hmid]|[Hp Hmid]]].
      * destruct mid as [|y mid]; cbn in Hmid; [injection Hmid as <- _; now right|].
        injection Hmid as <- _. left. apply Hkept.
        exists pre, mid. split; [exact Hs | exact Hpre].
      * destruct mid as [|y mid]; cbn in Hmid; [injection Hmid as <- _; now right|].
        injection Hmid as _ Hmid. destruct mid; discriminate Hmid.
  - split.
    + intros Ht. apply Htr in Ht as [pre [x [post [-> Hpre]]]].
      exists pre, x, (post ++ [w])%list. split; [|exact Hpre].
      rewrite <- app_assoc. reflexivity.
    + intros [pre [x [post [Heq Hpre]]]]. apply Htr.
      apply app_eq_app in Heq as [mid [[Hs Hmid]|[Hp Hmid]]].
      * destruct mid as [|y mid]; cbn in Hmid.
        -- exfalso. rewrite app_nil_r in Hs. subst pre. lia.
        -- injection Hmid as <- _. exists pre, x, mid. split; [exact Hs | exact Hpre].
      * exfalso. destruct mid as [|y mid]; cbn in Hmid.
        -- rewrite app_nil_r in Hp. subst pre. lia.
        -- injection Hmid as _ Hmid. destruct mid; discriminate Hmid.
Qed.

Lemma addWarnings_accumulated (ws : list string) :
  forall (st : WarningState) (stream : list string),
    accumulated st stream -> accumulated (addWarnings st ws) (stream ++ ws).
Proof.
  induction ws as [|w rest IH]; intros st stream Hst; cbn [addWarnings].
  - now rewrite app_nil_r.
  - destruct (200 <=? List.length (warningsSet st))%nat eqn:E.
    + apply Nat.leb_le in E. apply accumulated_full; assumption.
    + apply Nat.leb_gt in E.
      replace (stream ++ w :: rest)%list with ((stream ++ [w]) ++ rest)%list
        by (rewrite <- app_assoc; reflexivity).
      apply IH, accumulated_add; assumption.
Qed.

Lemma collectMatches_accumulated (fuel : nat) (schema : BaseSchemaResponse) (flt : value)
    (files : list TFile) :
  forall (acc : list TFile) (st : WarningState) (stream : list string)
         (matches : list TFile) (st' : WarningState),
    accumulated st stream ->
    collectMatches fuel schema flt files acc st = Some (matches, st') ->
    accumulated st' (stream ++ warningStream fuel schema flt files).
Proof.
  induction files as [|f rest IH]; intros acc st stream matches st' Hst H;
    cbn [collectMatches] in H.
  - injection H as _ <-. unfold warningStream. cbn. now rewrite app_nil_r.
  - unfold warningStream. cbn [flat_map]. fold (warningStream fuel schema flt rest).
    destruct (evaluateFilter fuel f flt (Some schema)) as [r|]; [|discriminate H].
    rewrite app_assoc. eapply IH; [|exact H]. apply addWarnings_accumulated, Hst.
Qed.

Section Warnings.

Variable localeCompare : string -> string -> Z.
Hypothesis localeCompare_total : totalComparison localeCompare.

Lemma insertSorted_perm (x : string) (l : list string) :
  Permutation (insertSorted localeCompare x l) (x :: l).
Proof.
  induction l as [|y rest IH]; cbn; [reflexivity|].
  destruct (localeCompare x y <=? 0)%Z; [reflexivity|].
  rewrite IH. apply perm_swap.
Qed.

Lemma sortWith_perm (l : list string) : Permutation (sortWith localeCompare l) l.
Proof.
  induction l as [|x rest IH]; cbn; [reflexivity|].
  rewrite insertSorted_perm. now constructor.
Qed.

Lemma insertSorted_sorted (x : string) (l : list string) :
  Sorted (inOrder localeCompare) l ->
  Sorted (inOrder localeCompare) (insertSorted localeCompare x l).
Proof.
  induction l as [|y rest IH]; intros Hl; cbn.
  - repeat constructor.
  - destruct (localeCompare x y <=? 0)%Z eqn:E.
    + apply Z.leb_le in E. constructor; [assumption | constructor; exact E].
    + apply Z.leb_gt in E. inversion Hl as [|? ? Hrest Hhd]; subst.
      constructor; [apply IH, Hrest|].
      destruct rest as [|z rest']; cbn.
      * constructor. apply localeCompare_total. lia.
      * destruct (localeCompare x z <=? 0)%Z.
        -- constructor. apply localeCompare_total. lia.
        -- inversion Hhd; subst. constructor. assumption.
Qed.

Lemma sortWith_sorted (l : list string) :
  Sorted (inOrder localeCompare) (sortWith localeCompare l).
Proof.
  induction l as [|x rest IH]; cbn; [constructor | apply insertSorted_sorted, IH].
Qed.

Lemma finalWarnings_shape (st : WarningState) :
  warningsBounded st ->
  exists (sorted : list string) (truncated : bool),
    finalWarnings localeCompare st
    = (sorted ++ (if truncated then [truncationNotice] else []))%list
    /\ NoDup sorted
    /\ Sorted (inOrder localeCompare) sorted
    /\ (truncated = true -> List.length sorted = 200%nat)
    /\ (List.length (finalWarnings localeCompare st) <= 201)%nat.
Proof.
  intros (Hnd & Hlen & Htr).
  exists (sortWith localeCompare (warningsSet st)), (warningsTruncated st).
  pose proof (sortWith_perm (warningsSet st)) as Hperm.
  pose proof (Permutation_length Hperm) as Hl.
  repeat split.
  - apply (Permutation_NoDup (Permutation_sym Hperm) Hnd).
  - apply sortWith_sorted.
  - intros Ht. rewrite Hl. apply Htr, Ht.
  - unfold finalWarnings. rewrite length_app, Hl.
    destruct (warningsTruncated st); cbn; lia.
Qed.

Lemma finalWarnings_accumulated (st : WarningState) (stream : list string) :
  accumulated st stream ->
  exists (sorted : list string) (truncated : bool),
    finalWarnings localeCompare st
    = (sorted ++ (if truncated then [truncationNotice] else []))%list
    /\ NoDup sorted
    /\ Sorted (inOrder localeCompare) sorted
    /\ (forall w : string, In w sorted <-> keptWarning stream w)
    /\ (truncated = true <-> capWasHit stream)
    /\ (truncated = true -> List.length sorted = 200%nat)
    /\ (List.length (finalWarnings localeCompare st) <= 201)%nat.
Proof.
  intros (Hnd & Hin & Hall & Hlen & Hkept & Htr).
  exists (sortWith localeCompare (warningsSet st)), (warningsTruncated st).
  pose proof (sortWith_perm (warningsSet st)) as Hperm.
  pose proof (Permutation_length Hperm) as Hl.
  split; [reflexivity|].
  split; [apply (Permutation_NoDup (Permutation_sym Hperm) Hnd)|].
  split; [apply sortWith_sorted|].
  split.
  { intros w. rewrite <- Hkept. split; apply Permutation_in;
      [exact Hperm | exact (Permutation_sym Hperm)]. }
  split; [exact Htr|].
  split.
  - intros Ht. rewrite Hl. apply Htr in Ht as [pre [x [post [-> Hpre]]]].
    destruct (Nat.lt_ge_cases (List.length (warningsSet st)) 200) as [Hlt|Hge]; [|lia].
    exfalso. specialize (Hall Hlt).
    pose proof (distinctCount_set _ _ Hnd Hin Hall) as Hd.
    pose proof (distinctCount_incl pre (pre ++ x :: post)
                  (fun y Hy => in_or_app _ _ y (or_introl Hy))). lia.
  - unfold finalWarnings. rewrite length_app, Hl.
    destruct (warningsTruncated st); cbn; lia.
Qed.

Variable decodeURIComponent : string -> option string.
Variable now : number.

Lemma queryBase_warnings (fuel : nat) (engineEnabled : bool) (cache : EngineCache)
    (vaultFiles : list TFile) (id : string) (schema : BaseSchemaResponse) (body : value)
    (resp : BaseQueryResponse) (cache' : EngineCache) :
  queryBase localeCompare decodeURIComponent now fuel engineEnabled cache vaultFiles id
            schema body = Some (resp, cache') ->
  exists st : WarningState,
    accumulated st (queryWarningStream fuel schema body vaultFiles)
    /\ resp_warnings resp = finalWarnings localeCompare st.
Proof.
  unfold queryBase. intros H.
  destruct (collectMatches fuel schema _ _ [] noWarnings) as [[unsorted st]|] eqn:Hc;
    [|discriminate].
  exists st. split.
  { apply (collectMatches_accumulated _ _ _ _ _ _ [] _ _ accumulated_empty Hc). }
  repeat match type of H with
         | match ?x with _ => _ end = Some _ => destruct x; try discriminate
         end;
    injection H as <- _; reflexivity.
Qed.

(** C10.  In every query response the warnings are a list without
    duplicates, sorted by the locale comparison, followed by the notice
    "Warnings tronques (max 200)." (with its accent) exactly when the cap
    of 200 entries was hit, that is when a warning of the filter results
    arrived after 200 distinct ones; the sorted part holds the warnings
    that arrived before the cap and no other, and the list has at most 201
    entries. *)
Theorem response_warnings_sorted_and_capped (fuel : nat) (engineEnabled : bool)
    (cache : EngineCache) (vaultFiles : list TFile) (id : string)
    (schema : BaseSchemaResponse) (body : value)
    (resp : BaseQueryResponse) (cache' : EngineCache) :
  queryBase localeCompare decodeURIComponent now fuel engineEnabled cache vaultFiles id
            schema body = Some (resp, cache') ->
  exists (sorted : list string) (truncated : bool),
    resp_warnings resp = (sorted ++ (if truncated then [truncationNotice] else []))%list
    /\ NoDup sorted
    /\ Sorted (inOrder localeCompare) sorted
    /\ (forall w : string,
          In w sorted <-> keptWarning (queryWarningStream fuel schema body vaultFiles) w)
    /\ (truncated = true <-> capWasHit (queryWarningStream fuel schema body vaultFiles))
    /\ (truncated = true -> List.length sorted = 200%nat)
    /\ (List.length (resp_warnings resp) <= 201)%nat.
Proof.
  intros H. destruct (queryBase_warnings _ _ _ _ _ _ _ _ _ H) as (st & Hst & ->).
  apply finalWarnings_accumulated, Hst.
Qed.

End Warnings.

Lemma codeUnitCompare_total : totalComparison codeUnitCompare.
Proof.
  intros a b. unfold codeUnitCompare. rewrite (String.compare_antisym a b).
  destruct (String.compare b a); cbn; lia.
Qed.

Lemma response_warnings_sorted_and_capped_witness :
  option_map (fun rc => resp_warnings (fst rc))
    (queryBase codeUnitCompare decodePlain (Num.ofZ 0) 4 false []
       [notePriority 3; noteX 7] "Tasks" taskSchema taskQuery)
  = Some ["Filter non reconnu: (a)"; "Filter non reconnu: (b)"]
  /\ match queryBase codeUnitCompare decodePlain (Num.ofZ 0) 4 false []
             [notePriority 3; noteX 7] "Tasks" taskSchema taskQuery with
     | Some (resp, _) =>
         exists (sorted : list string) (truncated : bool),
           resp_warnings resp
           = (sorted ++ (if truncated then [truncationNotice] else []))%list
           /\ NoDup sorted
           /\ Sorted (inOrder codeUnitCompare) sorted
           /\ (forall w : string,
                 In w sorted
                 <-> keptWarning
                       (queryWarningStream 4 taskSchema taskQuery [notePriority 3; noteX 7])
                       w)
           /\ (truncated = true
               <-> capWasHit
                     (queryWarningStream 4 taskSchema taskQuery [notePriority 3; noteX 7]))
           /\ (truncated = true -> List.length sorted = 200%nat)
           /\ (List.length (resp_warnings resp) <= 201)%nat
     | None => False
     end.
Proof.
  split; [vm_compute; reflexivity|].
  destruct (queryBase codeUnitCompare decodePlain (Num.ofZ 0) 4 false []
              [notePriority 3; noteX 7] "Tasks" taskSchema taskQuery)
    as [[resp cache']|] eqn:E.
  - exact (response_warnings_sorted_and_capped codeUnitCompare codeUnitCompare_total
             decodePlain (Num.ofZ 0) 4 false [] [notePriority 3; noteX 7] "Tasks"
             taskSchema taskQuery resp cache' E).
  - vm_compute in E. discriminate E.
Defined.

(** ** The upsert path *)

Section UpsertProperties.

Variable decodeURIComponent : string -> option string.
Variable processFrontMatter : Vault -> TFile -> (object -> object) -> string + Vault.

#[local] Abbreviation runOne := (upsertOne decodeURIComponent processFrontMatter).
#[local] Abbreviation runLoop := (upsertLoop decodeURIComponent processFrontMatter).
#[local] Abbreviation runBase := (upsertBase decodeURIComponent processFrontMatter).
#[local] Abbreviation target := (targetPath decodeURIComponent).
#[local] Abbreviation write := (writeFrontmatter processFrontMatter).

Lemma forallb_noError_app (rs : list BaseUpsertResult) (r : BaseUpsertResult) :
  forallb noError (rs ++ [r]) = true -> forallb noError rs = true /\ hasError r = false.
Proof.
  rewrite forallb_app. cbn. unfold noError at 2. intros H.
  apply andb_true_iff in H as [H1 H2]. rewrite andb_true_r in H2.
  apply negb_true_iff in H2. now split.
Qed.

(** With [continueOnError] off, a prefix of the batch whose results carry
    no error has run to its end, and the loop goes on with the rest. *)
Lemma upsertLoop_after_successes (before : list value) :
  forall (vault : Vault) (acc : list BaseUpsertResult) (vault1 : Vault)
         (results1 : list BaseUpsertResult) (rest : list value),
    runLoop false vault before acc = (vault1, results1) ->
    forallb noError results1 = true ->
    runLoop false vault (before ++ rest) acc = runLoop false vault1 rest results1.
Proof.
  induction before as [|op before' IH]; intros vault acc vault1 results1 rest Hrun Hok;
    cbn in Hrun |- *.
  - injection Hrun as <- <-. reflexivity.
  - destruct (runOne vault op) as [vault' result] eqn:Hone.
    destruct (hasError result) eqn:Herr; cbn [andb negb] in Hrun |- *.
    + injection Hrun as <- <-.
      apply forallb_noError_app in Hok as [_ Hok]. congruence.
    + apply (IH _ _ _ _ _ Hrun Hok).
Qed.

Lemma upsertOne_conflict (vault : Vault) (op : value) (abstract : TFile) (expected : number) :
  Js.isEmpty (target op) = false ->
  getAbstractFileByPath vault (target op) = Some (AFile abstract) ->
  field op "expected_mtime" = VNum expected ->
  Num.toBoolean expected = true ->
  Num.eqb (stat_mtime abstract) expected = false ->
  runOne vault op
  = (vault, failure (target op) (stat_mtime abstract) "mtime_conflict"
              (conflictMessage expected (stat_mtime abstract))).
Proof.
  intros Hpath Hfile Hexp Htrue Hdiff. unfold upsertOne.
  rewrite Hpath, Hfile. unfold expectedMtime, mtimeConflict.
  rewrite Hexp, Htrue, Hdiff. reflexivity.
Qed.

(** C4 (amended).  For every batch of upsert operations processed with
    [continueOnError] off: if an operation is reached (every operation
    before it succeeded), its target note exists, and it carries an
    [expected_mtime] that is a number other than 0 and NaN and differs from
    the actual modification time of the note, then its result has the error
    code [mtime_conflict], it is the last result of the response, and no
    operation after it is executed (the vault is the one the earlier
    operations left). *)
Theorem stale_expected_mtime_stops_batch (vault : Vault) (body : value)
    (before after : list value) (op : value) (vault1 : Vault)
    (results1 : list BaseUpsertResult) (abstract : TFile) (expected : number) :
  toBoolean (field body "continueOnError") = false ->
  field body "operations" = VArr (before ++ op :: after) ->
  runLoop false vault before [] = (vault1, results1) ->
  forallb noError results1 = true ->
  Js.isEmpty (target op) = false ->
  getAbstractFileByPath vault1 (target op) = Some (AFile abstract) ->
  field op "expected_mtime" = VNum expected ->
  Num.toBoolean expected = true ->
  Num.eqb (stat_mtime abstract) expected = false ->
  runBase vault body
  = Some (vault1,
          {| upsert_ok := false;
             upsert_results :=
               results1 ++ [failure (target op) (stat_mtime abstract) "mtime_conflict"
                              (conflictMessage expected (stat_mtime abstract))] |}).
Proof.
  intros Hcont Hops Hbefore Hok Hpath Hfile Hexp Htrue Hdiff.
  unfold upsertBase, operationsOf. rewrite Hcont, Hops.
  rewrite (upsertLoop_after_successes _ _ _ _ _ _ Hbefore Hok).
  cbn [upsertLoop].
  rewrite (upsertOne_conflict _ _ _ _ Hpath Hfile Hexp Htrue Hdiff).
  cbn [hasError failure res_error andb negb].
  rewrite forallb_app. cbn. rewrite andb_false_r. reflexivity.
Qed.

(** C9.  An upsert operation whose [expected_mtime] is the number 0 is not
    checked against the modification time of the note: when its target
    note exists the operation is the frontmatter write, whatever the
    actual modification time, and in no case does its result carry the
    error code [mtime_conflict]. *)
Theorem expected_mtime_zero_bypasses_guard (vault : Vault) (op : value) (negative : bool) :
  field op "expected_mtime" = VNum (S754_zero negative) ->
  (forall abstract : TFile,
     Js.isEmpty (target op) = false ->
     getAbstractFileByPath vault (target op) = Some (AFile abstract) ->
     runOne vault op = write vault (target op) abstract op)
  /\ (forall e : UpsertError,
        res_error (snd (runOne vault op)) = Some e -> err_code e <> "mtime_conflict").
Proof.
  intros Hzero.
  assert (Hguard : forall actual, mtimeConflict (expectedMtime op) actual = false).
  { intros actual. unfold expectedMtime, mtimeConflict. rewrite Hzero. reflexivity. }
  split.
  - intros abstract Hpath Hfile. unfold upsertOne.
    rewrite Hpath, Hfile, Hguard. reflexivity.
  - intros e. unfold upsertOne.
    destruct (Js.isEmpty (target op)); [cbn; intros [= <-]; discriminate|].
    destruct (getAbstractFileByPath vault (target op)) as [[abstract|folder]|];
      try (cbn; intros [= <-]; discriminate).
    rewrite Hguard. unfold writeFrontmatter.
    destruct (processFrontMatter vault abstract _); cbn; intros [= <-]; discriminate.
Qed.

End UpsertProperties.

Lemma stale_expected_mtime_stops_batch_witness :
  let run := upsertLoop decodePlain (writeAt 9000) false projectVault [opB] [] in
  toBoolean (field (batch [opB; opStale; opLater]) "continueOnError") = false
  /\ forallb noError (snd run) = true
  /\ getAbstractFileByPath (fst run) (targetPath decodePlain opStale)
     = Some (AFile (notePriority 3))
  /\ Num.toBoolean (Num.ofZ 4000) = true
  /\ Num.eqb (stat_mtime (notePriority 3)) (Num.ofZ 4000) = false
  /\ upsertBase decodePlain (writeAt 9000) projectVault (batch [opB; opStale; opLater])
     = Some (fst run,
             {| upsert_ok := false;
                upsert_results :=
                  snd run
                  ++ [failure "Projects/A.md" (Num.ofZ 5000) "mtime_conflict"
                        "Conflit mtime (expected=4000, actual=5000)."] |}).
Proof.
  cbv zeta. repeat (split; [vm_compute; reflexivity|]).
  apply (stale_expected_mtime_stops_batch decodePlain (writeAt 9000) projectVault
           (batch [opB; opStale; opLater]) [opB] [opLater] opStale
           (fst (upsertLoop decodePlain (writeAt 9000) false projectVault [opB] []))
           (snd (upsertLoop decodePlain (writeAt 9000) false projectVault [opB] []))
           (notePriority 3) (Num.ofZ 4000));
    vm_compute; reflexivity.
Defined.

(** C4 as stated fails: the first operation of the batch carries
    [expected_mtime: 0] while its note was modified at 5000; its result has
    no error, and the operation after it is executed. *)
Lemma expected_mtime_zero_is_no_conflict :
  field opZero "expected_mtime" = VNum (Num.ofZ 0)
  /\ getAbstractFileByPath projectVault (targetPath decodePlain opZero)
     = Some (AFile (notePriority 3))
  /\ stat_mtime (notePriority 3) = Num.ofZ 5000
  /\ Num.eqb (stat_mtime (notePriority 3)) (Num.ofZ 0) = false
  /\ errorCodes (upsertBase decodePlain (writeAt 9000) projectVault (batch [opZero; opLater]))
     = [None; None].
Proof. repeat split; vm_compute; reflexivity. Qed.

Lemma expected_mtime_zero_bypasses_guard_witness :
  field opZero "expected_mtime" = VNum (S754_zero false)
  /\ upsertOne decodePlain (writeAt 9000) projectVault opZero
     = writeFrontmatter (writeAt 9000) projectVault "Projects/A.md" (notePriority 3) opZero
  /\ (forall e : UpsertError,
        res_error (snd (upsertOne decodePlain (writeAt 9000) projectVault opZero)) = Some e ->
        err_code e <> "mtime_conflict").
Proof.
  split; [reflexivity|].
  destruct (expected_mtime_zero_bypasses_guard decodePlain (writeAt 9000) projectVault
              opZero false eq_refl) as [Hwrite Hnever].
  split; [apply Hwrite; reflexivity | exact Hnever].
Defined.

(** ** The scenarios of the design document on the embedding *)

Example scenario_status_and_priority :
  evaluateStatement 2 noteA "status = 'done' and priority >= 2" None
  = Some {| ok := true; warnings := [] |}.
Proof. vm_compute. reflexivity. Qed.

Example scenario_has_tag :
  evaluateStatement 1 noteB "file.hasTag('work')" None = Some {| ok := true; warnings := [] |}
  /\ evaluateStatement 1 noteB "file.hasTag('missing')" None
     = Some {| ok := false; warnings := [] |}.
Proof. split; vm_compute; reflexivity. Qed.

Example scenario_else_branch :
  evalFormulaExpression 2 noteB priorityFormula None = Some (VStr "none").
Proof. vm_compute. reflexivity. Qed.

(** * Further properties *)
(** ** Texts: trimming, slicing, searching *)

Lemma trimEnd_idempotent (s : string) : Js.trimEnd (Js.trimEnd s) = Js.trimEnd s.
Proof.
  induction s as [|c s IH]; [reflexivity|]. cbn [Js.trimEnd].
  destruct (Js.trimEnd s) as [|d t] eqn:E.
  - destruct (Js.isWhiteSpace c) eqn:W; [reflexivity|]. cbn. rewrite W. reflexivity.
  - cbn [Js.trimEnd]. cbn [Js.trimEnd] in IH. rewrite IH. reflexivity.
Qed.

Lemma trimStart_head (c : ascii) (s : string) :
  Js.isWhiteSpace c = false -> Js.trimStart (String c s) = String c s.
Proof. intros H. cbn. rewrite H. reflexivity. Qed.

Lemma trimStart_shape (s : string) :
  Js.trimStart s = EmptyString
  \/ exists c t, Js.trimStart s = String c t /\ Js.isWhiteSpace c = false.
Proof.
  induction s as [|c s IH]; [left; reflexivity|]. cbn.
  destruct (Js.isWhiteSpace c) eqn:W; [exact IH|]. right. exists c, s. now split.
Qed.

Lemma trimEnd_head (c : ascii) (s : string) :
  Js.isWhiteSpace c = false -> exists t, Js.trimEnd (String c s) = String c t.
Proof.
  intros H. cbn. destruct (Js.trimEnd s); [rewrite H|]; eexists; reflexivity.
Qed.

Lemma trim_idempotent (s : string) : Js.trim (Js.trim s) = Js.trim s.
Proof.
  unfold Js.trim. destruct (trimStart_shape s) as [E|(c & t & E & W)]; rewrite E.
  - reflexivity.
  - destruct (trimEnd_head c t W) as [u Hu]. rewrite Hu.
    rewrite (trimStart_head _ _ W), <- Hu. apply trimEnd_idempotent.
Qed.

Lemma trimEnd_snoc (s : string) (c : ascii) :
  Js.isWhiteSpace c = false ->
  Js.trimEnd (s ++ String c EmptyString) = s ++ String c EmptyString.
Proof.
  intros H. induction s as [|d s IH]; cbn.
  - rewrite H. reflexivity.
  - cbn in IH. rewrite IH. destruct s; reflexivity.
Qed.

Lemma length_append (s t : string) :
  String.length (s ++ t) = (String.length s + String.length t)%nat.
Proof. induction s as [|c s IH]; cbn; [reflexivity | now rewrite IH]. Qed.

Lemma substring_prefix (s t : string) : substring 0 (String.length s) (s ++ t) = s.
Proof. induction s as [|c s IH]; cbn; [destruct t; reflexivity | now rewrite IH]. Qed.

Lemma substring_suffix (s t : string) :
  substring (String.length s) (String.length t) (s ++ t) = t.
Proof.
  induction s as [|c s IH]; cbn; [|exact IH].
  induction t as [|d t IHt]; cbn; [reflexivity | now rewrite IHt].
Qed.

Lemma append_assoc (s t u : string) : (s ++ t) ++ u = s ++ (t ++ u).
Proof. induction s as [|c s IH]; cbn; [reflexivity | now rewrite IH]. Qed.

Lemma append_empty (s : string) : s ++ EmptyString = s.
Proof. induction s as [|c s IH]; cbn; [reflexivity | now rewrite IH]. Qed.

Lemma prefix_append (p s : string) : String.prefix p (p ++ s) = true.
Proof.
  induction p as [|c p IH]; cbn; [destruct s; reflexivity|].
  destruct (ascii_dec c c); [exact IH | congruence].
Qed.

Lemma endsWith_append (s p : string) : Js.endsWith (s ++ p) p = true.
Proof.
  unfold Js.endsWith. rewrite length_append.
  replace (String.length s + String.length p - String.length p)%nat with (String.length s)
    by lia.
  rewrite substring_suffix, String.eqb_refl, andb_true_r. apply Nat.leb_le. lia.
Qed.

Lemma sliceFrom_append (p s : string) :
  Js.sliceFrom (p ++ s) (Z.of_nat (String.length p)) = s.
Proof.
  unfold Js.sliceFrom, Js.slice, Js.relIndex. rewrite length_append.
  destruct (Z.of_nat (String.length p) <? 0)%Z eqn:E1; [apply Z.ltb_lt in E1; lia|].
  destruct (Z.of_nat (String.length p + String.length s) <? 0)%Z eqn:E2;
    [apply Z.ltb_lt in E2; lia|].
  rewrite !Z.min_l by lia.
  replace (Z.to_nat (Z.of_nat (String.length p + String.length s) - Z.of_nat (String.length p)))
    with (String.length s) by lia.
  rewrite Nat2Z.id. apply substring_suffix.
Qed.

Lemma slice_inner (q : ascii) (s : string) :
  Js.slice (String q (s ++ String q EmptyString)) 1 (-1) = s.
Proof.
  unfold Js.slice, Js.relIndex. cbn [String.length]. rewrite length_append. cbn [String.length].
  set (n := String.length s).
  destruct (1 <? 0)%Z eqn:E1; [discriminate|]. cbn [Z.ltb Z.compare].
  replace (Z.max (Z.of_nat (S (n + 1)) + -1) 0) with (Z.of_nat (S n)) by lia.
  rewrite Z.min_l by lia.
  replace (Z.to_nat (Z.of_nat (S n) - 1)) with n by lia.
  change (Z.to_nat 1) with 1%nat. cbn [substring]. apply substring_prefix.
Qed.

Lemma eqb_code (d c : ascii) : Ascii.eqb d c = (Js.code c =? Js.code d)%nat.
Proof.
  destruct (Ascii.eqb_spec d c) as [->|Hne]; [now rewrite Nat.eqb_refl|].
  symmetry. apply Nat.eqb_neq. intros H. apply Hne. unfold Js.code in H.
  rewrite <- (ascii_nat_embedding d), <- (ascii_nat_embedding c). now rewrite H.
Qed.

Lemma isCode_true (n : nat) (c : ascii) : Js.isCode n c = true -> c = Js.chr n.
Proof.
  unfold Js.isCode, Js.code, Js.chr. intros H. apply Nat.eqb_eq in H.
  rewrite <- H. symmetry. apply ascii_nat_embedding.
Qed.

Lemma quote_is_not_space (q : ascii) : isQuoteChar q = true -> Js.isWhiteSpace q = false.
Proof.
  unfold isQuoteChar. intros H. apply orb_true_iff in H as [H|H];
    apply isCode_true in H; subst; reflexivity.
Qed.

Lemma trim_quoted (q : ascii) (s : string) :
  isQuoteChar q = true -> Js.trim (quoted q s) = quoted q s.
Proof.
  intros H. pose proof (quote_is_not_space q H) as W. unfold Js.trim, quoted.
  rewrite (trimStart_head _ _ W).
  change (String q (s ++ String q EmptyString)) with ((String q s) ++ String q EmptyString).
  apply trimEnd_snoc, W.
Qed.

Lemma isQuoted_quoted (q : ascii) (s : string) :
  isQuoteChar q = true -> isQuoted (quoted q s) = true.
Proof.
  intros H. unfold isQuoted, quoted.
  assert (E : forall p, p = String q EmptyString ->
              Js.startsWith (String q (s ++ String q EmptyString)) p
              && Js.endsWith (String q (s ++ String q EmptyString)) p = true).
  { intros p ->. apply andb_true_iff. split.
    - unfold Js.startsWith. cbn. destruct (ascii_dec q q); [|congruence].
      destruct (s ++ String q EmptyString); reflexivity.
    - change (String q (s ++ String q EmptyString)) with ((String q s) ++ String q EmptyString).
      apply endsWith_append. }
  unfold isQuoteChar in H. apply orb_true_iff in H as [H|H]; apply isCode_true in H.
  - rewrite (E "'") by (now rewrite H). apply orb_true_r.
  - rewrite (E dquote) by (now rewrite H). reflexivity.
Qed.

(** X1.  Quoting a text and stripping the quotes gives the text back: for
    a single or a double quote [q] and every text [s], whatever it holds,
    [stripQuotes] of [q s q] is [s]; only the outer quotes go, and what is
    between them is not trimmed. *)
Theorem stripQuotes_of_quoted (q : ascii) (s : string) :
  isQuoteChar q = true -> stripQuotes (quoted q s) = s.
Proof.
  intros H. unfold stripQuotes. rewrite (trim_quoted q s H), (isQuoted_quoted q s H).
  apply slice_inner.
Qed.

Lemma stripQuotes_of_quoted_witness :
  isQuoteChar "'"%char = true /\ stripQuotes (quoted "'"%char " it's done ") = " it's done ".
Proof. split; [reflexivity|]. apply (stripQuotes_of_quoted "'"%char " it's done "). reflexivity. Defined.

(** ** Splitting on commas *)

Lemma joinStrings_cons (sep p : string) (l : list string) :
  l <> [] -> joinStrings sep (p :: l) = p ++ sep ++ joinStrings sep l.
Proof. destruct l; [congruence | reflexivity]. Qed.

Lemma joinStrings_snoc (sep a b : string) (parts : list string) :
  joinStrings sep ((parts ++ [a]) ++ [b]) = joinStrings sep (parts ++ [a ++ sep ++ b]).
Proof.
  induction parts as [|p rest IH]; [reflexivity|]. cbn [app].
  rewrite !joinStrings_cons, IH; try reflexivity; destruct rest; discriminate.
Qed.

Lemma splitTopLevelCommasLoop_join (s : string) :
  forall (prev : option ascii) (depth : nat) (inSingle inDouble : bool)
         (current : string) (parts : list string),
    joinStrings "," (splitTopLevelCommasLoop s prev depth inSingle inDouble current parts)
    = joinStrings "," (parts ++ [current ++ s]).
Proof.
  induction s as [|ch s IH]; intros prev depth inSingle inDouble current parts;
    cbn [splitTopLevelCommasLoop]; [now rewrite append_empty|].
  assert (Hadd : forall p d a b,
            joinStrings "," (splitTopLevelCommasLoop s p d a b
                               (current ++ String ch EmptyString) parts)
            = joinStrings "," (parts ++ [current ++ String ch s])).
  { intros. rewrite IH, append_assoc. reflexivity. }
  repeat match goal with
         | |- context [if ?b then _ else _] =>
             destruct b eqn:?; try apply Hadd
         end.
  rewrite IH, joinStrings_snoc.
  match goal with
  | E : Js.isCode 44 ch && _ = true |- _ =>
      apply andb_true_iff in E; destruct E as [E _]; apply isCode_true in E; subst ch
  end.
  reflexivity.
Qed.

(** X2.  [splitTopLevelCommas] loses nothing: joining its parts with commas
    gives the input back, and there is always at least one part. *)
Theorem splitTopLevelCommas_join (input : string) :
  joinStrings "," (splitTopLevelCommas input) = input
  /\ splitTopLevelCommas input <> [].
Proof.
  split.
  - unfold splitTopLevelCommas. rewrite splitTopLevelCommasLoop_join. reflexivity.
  - intros E. pose proof (splitTopLevelCommasLoop_join input None 0 false false EmptyString [])
      as H. unfold splitTopLevelCommas in E. rewrite E in H. cbn in H.
    destruct input; [|discriminate H].
    cbn in E. discriminate E.
Qed.

(** ** Splitting outside quotes *)

Lemma splitOutsideQuotes_parts (input needle : string) :
  Forall (fun part => nonEmpty part = true /\ Js.trim part = part)
         (splitOutsideQuotes input needle).
Proof.
  unfold splitOutsideQuotes.
  induction (splitOutsideQuotesLoop needle input None 0 false false EmptyString [])
    as [|p rest IH]; cbn; [constructor|].
  destruct (nonEmpty (Js.trim p)) eqn:E; [|exact IH].
  constructor; [split; [exact E | apply trim_idempotent] | exact IH].
Qed.

(** Inside single quotes the loop only gathers characters, up to the
    closing quote. *)
Lemma splitOutsideQuotesLoop_in_single (needle inner : string) :
  startsWithChar isQuoteChar needle = false -> needle <> EmptyString ->
  noChar (isBackslashOr "'"%char) inner = true ->
  forall (prev : option ascii) (current : string) (parts : list string),
    isBackslash prev = false ->
    splitOutsideQuotesLoop needle (inner ++ "'") prev 0 true false current parts
    = (parts ++ [(current ++ inner ++ "'")%string])%list.
Proof.
  intros Hneedle Hne. induction inner as [|ch inner IH]; intros Hin prev current parts Hprev.
  - cbn. rewrite Hprev. cbn.
    destruct needle as [|c needle]; [congruence|]. cbn in Hneedle.
    unfold Js.startsWith. cbn.
    destruct (ascii_dec c "'"%char) as [->|]; [discriminate Hneedle | reflexivity].
  - cbn [noChar] in Hin. apply andb_true_iff in Hin as [Hch Hin].
    unfold isBackslashOr in Hch. apply negb_true_iff, orb_false_iff in Hch as [Hbs Hq].
    cbn [append splitOutsideQuotesLoop].
    assert (H39 : Js.isCode 39 ch = false).
    { rewrite eqb_code in Hq. unfold Js.isCode. rewrite Nat.eqb_sym in Hq.
      rewrite Nat.eqb_sym. exact Hq. }
    rewrite H39. cbn [andb negb].
    rewrite andb_false_r. cbn [andb].
    rewrite (IH Hin (Some ch)) by exact Hbs.
    rewrite append_assoc. reflexivity.
Qed.

Lemma splitOutsideQuotesLoop_in_double (needle inner : string) :
  startsWithChar isQuoteChar needle = false -> needle <> EmptyString ->
  noChar (isBackslashOr (Js.chr 34)) inner = true ->
  forall (prev : option ascii) (current : string) (parts : list string),
    isBackslash prev = false ->
    splitOutsideQuotesLoop needle (inner ++ dquote) prev 0 false true current parts
    = (parts ++ [(current ++ inner ++ dquote)%string])%list.
Proof.
  intros Hneedle Hne. induction inner as [|ch inner IH]; intros Hin prev current parts Hprev.
  - unfold dquote. cbn [append splitOutsideQuotesLoop]. rewrite Hprev.
    change (Js.isCode 39 (Js.chr 34)) with false.
    change (Js.isCode 34 (Js.chr 34)) with true. cbn [andb negb].
    destruct needle as [|c needle]; [congruence|]. cbn [startsWithChar] in Hneedle.
    unfold Js.startsWith. cbn [String.prefix].
    destruct (ascii_dec c (Js.chr 34)) as [->|]; [discriminate Hneedle | reflexivity].
  - cbn [noChar] in Hin. apply andb_true_iff in Hin as [Hch Hin].
    unfold isBackslashOr in Hch. apply negb_true_iff, orb_false_iff in Hch as [Hbs Hq].
    cbn [append splitOutsideQuotesLoop].
    assert (H34 : Js.isCode 34 ch = false).
    { rewrite eqb_code in Hq. unfold Js.isCode. rewrite Nat.eqb_sym in Hq.
      rewrite Nat.eqb_sym. exact Hq. }
    rewrite H34. cbn [andb negb]. rewrite andb_false_r. cbn [andb negb].
    destruct (Js.isCode 39 ch); cbn [andb negb];
      rewrite (IH Hin (Some ch)) by exact Hbs; rewrite append_assoc; reflexivity.
Qed.

(** X3.  A quoted text is never split: for a single or double quote [q],
    a text [inner] without that quote and without backslash, and a needle
    that is not empty and does not begin with a quote (as [" or "], ["||"],
    [" and "], ["&&"] and [","] are), [splitOutsideQuotes] of [q inner q]
    is the one part [q inner q], wherever the needle occurs in [inner]. *)
Theorem quoted_text_is_not_split (q : ascii) (inner needle : string) :
  isQuoteChar q = true ->
  startsWithChar isQuoteChar needle = false ->
  needle <> EmptyString ->
  noChar (isBackslashOr q) inner = true ->
  splitOutsideQuotes (quoted q inner) needle = [quoted q inner].
Proof.
  intros Hq Hneedle Hne Hin. unfold splitOutsideQuotes.
  assert (Hloop : splitOutsideQuotesLoop needle (quoted q inner) None 0 false false
                    EmptyString [] = [quoted q inner]).
  { unfold isQuoteChar in Hq. apply orb_true_iff in Hq as [Hq|Hq];
      apply isCode_true in Hq; subst q; unfold quoted;
      cbn [splitOutsideQuotesLoop isBackslash].
    - change (Js.isCode 39 (Js.chr 39)) with true. cbn [andb negb append].
      apply (splitOutsideQuotesLoop_in_single needle inner Hneedle Hne Hin
               (Some (Js.chr 39)) "'" []). reflexivity.
    - change (Js.isCode 39 (Js.chr 34)) with false.
      change (Js.isCode 34 (Js.chr 34)) with true. cbn [andb negb append].
      apply (splitOutsideQuotesLoop_in_double needle inner Hneedle Hne Hin
               (Some (Js.chr 34)) dquote []). reflexivity. }
  rewrite Hloop. cbn [map filter]. rewrite (trim_quoted q inner Hq). reflexivity.
Qed.

Lemma quoted_text_is_not_split_witness :
  isQuoteChar "'"%char = true
  /\ splitOutsideQuotes (quoted "'"%char "done or late and x") " or "
     = ["'done or late and x'"].
Proof.
  split; [reflexivity|].
  apply (quoted_text_is_not_split "'"%char "done or late and x" " or ");
    [reflexivity | reflexivity | discriminate | reflexivity].
Defined.

(** ** Paths *)

Lemma noChar_append (p : ascii -> bool) (s t : string) :
  noChar p (s ++ t) = noChar p s && noChar p t.
Proof. induction s as [|c s IH]; cbn; [reflexivity | now rewrite IH, andb_assoc]. Qed.

Lemma mapChars_append (f : ascii -> ascii) (s t : string) :
  Js.mapChars f (s ++ t) = Js.mapChars f s ++ Js.mapChars f t.
Proof. induction s as [|c s IH]; cbn; [reflexivity | now rewrite IH]. Qed.

Lemma mapChars_length (f : ascii -> ascii) (s : string) :
  String.length (Js.mapChars f s) = String.length s.
Proof. induction s as [|c s IH]; cbn; [reflexivity | now rewrite IH]. Qed.

Lemma backslashesToSlashes_plain (s : string) :
  noChar (Js.isCode 92) s = true -> Js.backslashesToSlashes s = s.
Proof.
  unfold Js.backslashesToSlashes. induction s as [|c s IH]; cbn; [reflexivity|].
  intros H. apply andb_true_iff in H as [Hc Hs]. apply negb_true_iff in Hc.
  now rewrite Hc, IH.
Qed.

Lemma backslashesToSlashes_append (s t : string) :
  Js.backslashesToSlashes (s ++ t) = Js.backslashesToSlashes s ++ Js.backslashesToSlashes t.
Proof. apply mapChars_append. Qed.

Lemma backslashesToSlashes_clean (s : string) :
  noChar (Js.isCode 92) (Js.backslashesToSlashes s) = true.
Proof.
  unfold Js.backslashesToSlashes. induction s as [|c s IH]; cbn; [reflexivity|].
  rewrite IH, andb_true_r. destruct (Js.isCode 92 c) eqn:E; [reflexivity | now rewrite E].
Qed.

Lemma noChar_weaken (p r : ascii -> bool) (s : string) :
  (forall c, r c = true -> p c = true) -> noChar p s = true -> noChar r s = true.
Proof.
  intros Hpr. induction s as [|c s IH]; cbn; [reflexivity|]. intros H.
  apply andb_true_iff in H as [Hc Hs]. apply negb_true_iff in Hc.
  rewrite (IH Hs), andb_true_r. destruct (r c) eqn:E; [|reflexivity].
  now rewrite (Hpr c E) in Hc.
Qed.

Lemma lastIndexOfChar_none (c : ascii) (s : string) :
  noChar (Ascii.eqb c) s = true -> Js.lastIndexOfChar c s = None.
Proof.
  induction s as [|d s IH]; cbn; [reflexivity|]. intros H.
  apply andb_true_iff in H as [Hd Hs]. apply negb_true_iff in Hd. now rewrite (IH Hs), Hd.
Qed.

Lemma lastIndexOfChar_last (c : ascii) (s t : string) :
  noChar (Ascii.eqb c) t = true ->
  Js.lastIndexOfChar c (s ++ String c t) = Some (String.length s).
Proof.
  intros Ht. induction s as [|d s IH]; cbn.
  - now rewrite (lastIndexOfChar_none c t Ht), Ascii.eqb_refl.
  - cbn in IH. now rewrite IH.
Qed.

Lemma slice_prefix (s t : string) :
  Js.slice (s ++ t) 0 (Z.of_nat (String.length s)) = s.
Proof.
  unfold Js.slice, Js.relIndex. rewrite length_append. cbn [Z.ltb Z.compare].
  destruct (Z.of_nat (String.length s) <? 0)%Z eqn:E; [apply Z.ltb_lt in E; lia|].
  rewrite Z.min_l by lia. rewrite Z.min_l by lia. rewrite Z.sub_0_r, Nat2Z.id.
  apply substring_prefix.
Qed.

Lemma slash_eqb (c : ascii) : Ascii.eqb "/"%char c = Js.isCode 47 c.
Proof. rewrite eqb_code. reflexivity. Qed.

(** X4.  [dirname] gives the folder of a path: for a name without slash or
    backslash, the folder of [dir/name] is [dir] with its backslashes
    turned into slashes, and the folder of the bare [name] is empty. *)
Theorem dirname_of_joined (dir name : string) :
  noChar isSlashOrBackslash name = true ->
  dirname (dir ++ "/" ++ name) = Js.backslashesToSlashes dir
  /\ dirname name = EmptyString.
Proof.
  intros Hname.
  assert (Hbs : noChar (Js.isCode 92) name = true)
    by (apply (noChar_weaken isSlashOrBackslash); [|exact Hname];
        intros c Hc; unfold isSlashOrBackslash; now rewrite Hc, orb_true_r).
  assert (Hsl : noChar (Ascii.eqb "/"%char) name = true)
    by (apply (noChar_weaken isSlashOrBackslash); [|exact Hname];
        intros c Hc; unfold isSlashOrBackslash; rewrite slash_eqb in Hc; now rewrite Hc).
  unfold dirname. split.
  - rewrite backslashesToSlashes_append.
    change (Js.backslashesToSlashes ("/" ++ name))
      with (String "/"%char (Js.backslashesToSlashes name)).
    rewrite (backslashesToSlashes_plain name Hbs).
    rewrite (lastIndexOfChar_last "/"%char _ name Hsl).
    apply slice_prefix.
  - rewrite (backslashesToSlashes_plain name Hbs), (lastIndexOfChar_none _ _ Hsl).
    reflexivity.
Qed.

Lemma dirname_of_joined_witness :
  noChar isSlashOrBackslash "A.md" = true
  /\ dirname ("Atlas\Maps" ++ "/" ++ "A.md") = "Atlas/Maps"
  /\ dirname "A.md" = EmptyString.
Proof.
  split; [reflexivity|]. apply (dirname_of_joined "Atlas\Maps" "A.md"). reflexivity.
Defined.

(** X5.  The base identifier always ends with [.base] and holds no
    backslash, whatever the host's [decodeURIComponent] does. *)
Theorem ensureBaseExt_shape (decodeURIComponent : string -> option string) (p : string) :
  Js.endsWith (ensureBaseExt decodeURIComponent p) ".base" = true
  /\ noChar (Js.isCode 92) (ensureBaseExt decodeURIComponent p) = true.
Proof.
  unfold ensureBaseExt.
  assert (Hnorm : noChar (Js.isCode 92) (normBaseId decodeURIComponent p) = true).
  { unfold normBaseId. destruct (Js.isEmpty p); [reflexivity|].
    apply backslashesToSlashes_clean. }
  destruct (Js.endsWith (normBaseId decodeURIComponent p) ".base") eqn:E.
  - split; assumption.
  - split; [apply endsWith_append|]. rewrite noChar_append, Hnorm. reflexivity.
Qed.

(** ** Links *)

Lemma backslash_eqb (c : ascii) : Js.eqChar "\"%char c = Js.isCode 92 c.
Proof. unfold Js.eqChar. rewrite eqb_code. reflexivity. Qed.

Lemma matchAt_backslash_first (r2 : regex) (s : string) :
  startsWithChar (Js.isCode 92) s = false ->
  matchAt (Seq (lit "\") r2) s = None.
Proof.
  unfold matchAt. destruct s as [|c s]; intros H; cbn [run lit]; [reflexivity|].
  cbn in H. now rewrite backslash_eqb, H.
Qed.

Lemma noChar_head (p : ascii -> bool) (s : string) :
  noChar p s = true -> startsWithChar p s = false.
Proof.
  destruct s as [|c s]; cbn; [reflexivity|]. intros H.
  apply andb_true_iff in H as [H _]. now apply negb_true_iff in H.
Qed.

Lemma search_backslash_first (r2 : regex) (s : string) :
  noChar (Js.isCode 92) s = true -> search (Seq (lit "\") r2) s = None.
Proof.
  induction s as [|c s IH]; intros H.
  - cbn [search]. now rewrite matchAt_backslash_first.
  - cbn [search]. rewrite (matchAt_backslash_first r2 _ (noChar_head _ _ H)).
    cbn in H. apply andb_true_iff in H as [_ H]. now rewrite (IH H).
Qed.

Lemma splitChar_none (sep : ascii) (s : string) :
  noChar (Ascii.eqb sep) s = true -> Js.splitChar sep s = [s].
Proof.
  induction s as [|c s IH]; cbn; [reflexivity|]. intros H.
  apply andb_true_iff in H as [Hc Hs]. apply negb_true_iff in Hc.
  rewrite Ascii.eqb_sym, Hc, (IH Hs). reflexivity.
Qed.

Lemma code_eqb (n : nat) (c : ascii) :
  (n < 256)%nat -> Ascii.eqb (Js.chr n) c = Js.isCode n c.
Proof.
  intros Hn. rewrite eqb_code. unfold Js.isCode, Js.code, Js.chr.
  now rewrite nat_ascii_embedding.
Qed.

(** X6.  [normalizeLinkish] as the source has it only cuts at [|] and [#]
    and trims: a trimmed text without pipe, hash or backslash comes back
    unchanged.  In particular the brackets of a wiki link and a final
    [.md] are kept. *)
Theorem normalizeLinkish_keeps_plain_text (v : string) :
  Js.trim v = v ->
  noChar isLinkCut v = true ->
  normalizeLinkish v = Some v.
Proof.
  intros Htrim Hplain.
  assert (Hbs : noChar (Js.isCode 92) v = true)
    by (apply (noChar_weaken isLinkCut); [|exact Hplain];
        intros c Hc; unfold isLinkCut; now rewrite Hc, orb_true_r).
  assert (Hpipe : noChar (Ascii.eqb "|"%char) v = true).
  { apply (noChar_weaken isLinkCut); [|exact Hplain]. intros c Hc.
    change "|"%char with (Js.chr 124) in Hc. rewrite code_eqb in Hc by lia.
    unfold isLinkCut. now rewrite Hc. }
  assert (Hhash : noChar (Ascii.eqb "#"%char) v = true).
  { apply (noChar_weaken isLinkCut); [|exact Hplain]. intros c Hc.
    change "#"%char with (Js.chr 35) in Hc. rewrite code_eqb in Hc by lia.
    unfold isLinkCut. now rewrite Hc, orb_true_r. }
  unfold normalizeLinkish. rewrite Htrim.
  assert (Hwiki : Regex.test reWiki v = false).
  { unfold Regex.test, Regex.exec, reWiki. cbn [seqs].
    now rewrite (matchAt_backslash_first _ v (noChar_head _ _ Hbs)). }
  rewrite Hwiki. unfold firstPart. rewrite (splitChar_none _ _ Hpipe), (splitChar_none _ _ Hhash).
  unfold Regex.remove, reBackslashAnyMd. cbn [seqs].
  now rewrite (search_backslash_first _ v Hbs), Htrim.
Qed.

Lemma normalizeLinkish_keeps_plain_text_witness :
  Js.trim "[[Atlas/Maps.md]]" = "[[Atlas/Maps.md]]"
  /\ noChar isLinkCut "[[Atlas/Maps.md]]" = true
  /\ normalizeLinkish "[[Atlas/Maps.md]]" = Some "[[Atlas/Maps.md]]".
Proof.
  split; [reflexivity|]. split; [reflexivity|].
  apply (normalizeLinkish_keeps_plain_text "[[Atlas/Maps.md]]"); reflexivity.
Defined.

Lemma matchAt_reDotMd_long (a b c d : ascii) (t : string) :
  matchAt reDotMd (String a (String b (String c (String d t)))) = None.
Proof.
  unfold matchAt, reDotMd. cbn [seqs litI run].
  destruct (Js.eqCharI "."%char a); [|reflexivity].
  destruct (Js.eqCharI "m"%char b); [|reflexivity].
  destruct (Js.eqCharI "d"%char c); reflexivity.
Qed.

Lemma search_reDotMd_suffix (s : string) :
  search reDotMd (s ++ ".md") = Some (s, EmptyString).
Proof.
  induction s as [|c s IH]; [reflexivity|].
  cbn [append search]. cbn [append] in IH.
  destruct (s ++ ".md") as [|x [|y [|z u]]] eqn:E;
    try (destruct s as [|? [|? [|? ?]]]; discriminate E).
  rewrite matchAt_reDotMd_long, IH. reflexivity.
Qed.

Lemma remove_reDotMd_suffix (s : string) : Regex.remove reDotMd (s ++ ".md") = s.
Proof. unfold Regex.remove. rewrite search_reDotMd_suffix. apply append_empty. Qed.

Lemma trim_with_suffix (s : string) (c : ascii) (t : string) :
  startsWithChar Js.isWhiteSpace (s ++ t ++ String c EmptyString) = false ->
  Js.isWhiteSpace c = false ->
  Js.trim (s ++ t ++ String c EmptyString) = s ++ t ++ String c EmptyString.
Proof.
  intros Hhead Hc. unfold Js.trim.
  assert (Hs : Js.trimStart (s ++ t ++ String c EmptyString) = s ++ t ++ String c EmptyString).
  { destruct (s ++ t ++ String c EmptyString) as [|d u]; [reflexivity|].
    cbn in Hhead. now apply trimStart_head. }
  rewrite Hs, <- append_assoc. apply trimEnd_snoc, Hc.
Qed.

Lemma fileHasLink_found (file : TFile) (target raw : string) :
  In raw (cache_links file) ->
  nonEmpty (Js.trim target) = true ->
  nonEmpty raw = true ->
  Regex.remove reDotMd raw = Regex.remove reDotMd (Js.trim target) ->
  fileHasLink file target = true.
Proof.
  intros Hin Hwant Hraw Hsame. unfold fileHasLink.
  unfold nonEmpty in Hwant. apply negb_true_iff in Hwant. rewrite Hwant.
  apply existsb_exists. exists raw. split; [exact Hin|].
  rewrite Hraw, Hsame, String.eqb_refl. reflexivity.
Qed.

(** X7.  A note has each of its links: for every link of the note that is
    not empty and has no surrounding white space, [fileHasLink] with that
    very text as target holds; and with a blank target it never holds. *)
Theorem fileHasLink_own_links (file : TFile) (raw blank : string) :
  In raw (cache_links file) ->
  nonEmpty raw = true ->
  Js.trim raw = raw ->
  Js.trim blank = EmptyString ->
  fileHasLink file raw = true /\ fileHasLink file blank = false.
Proof.
  intros Hin Hne Htrim Hblank. split.
  - apply (fileHasLink_found file raw raw Hin); rewrite ?Htrim; auto.
  - unfold fileHasLink. rewrite Hblank. reflexivity.
Qed.

(** X8.  [fileHasLink] does not mind a final [.md]: for a name that does
    not itself end with [.md], is not empty and does not begin with white
    space nor end with it, a note that links to [name] has the link
    [name.md], and a note that links to [name.md] has the link [name]. *)
Theorem fileHasLink_ignores_md_suffix (file : TFile) (name : string) :
  nonEmpty name = true ->
  Js.trim name = name ->
  Regex.remove reDotMd name = name ->
  (In name (cache_links file) -> fileHasLink file (name ++ ".md") = true)
  /\ (In (name ++ ".md") (cache_links file) -> fileHasLink file name = true).
Proof.
  intros Hne Htrim Hplain.
  assert (Hhead : startsWithChar Js.isWhiteSpace (name ++ ".md") = false).
  { destruct name as [|c name]; [discriminate Hne|]. cbn.
    destruct (Js.isWhiteSpace c) eqn:W; [|reflexivity].
    unfold Js.trim in Htrim. cbn [Js.trimStart] in Htrim. rewrite W in Htrim.
    assert (Hlen : forall s, (String.length (Js.trimEnd s) <= String.length s)%nat).
    { induction s as [|d s IH]; cbn; [lia|].
      destruct (Js.trimEnd s); [destruct (Js.isWhiteSpace d); cbn; lia | cbn in *; lia]. }
    assert (Hlen2 : forall s, (String.length (Js.trimStart s) <= String.length s)%nat).
    { induction s as [|d s IH]; cbn; [lia|]. destruct (Js.isWhiteSpace d); cbn; lia. }
    pose proof (Hlen (Js.trimStart name)). pose proof (Hlen2 name).
    rewrite Htrim in H. cbn in H. lia. }
  assert (Htrim2 : Js.trim (name ++ ".md") = name ++ ".md")
    by (apply (trim_with_suffix name "d"%char ".m"); [exact Hhead | reflexivity]).
  assert (Hne2 : nonEmpty (name ++ ".md") = true)
    by (destruct name; [discriminate Hne | reflexivity]).
  split; intros Hin.
  - apply (fileHasLink_found file _ name Hin); rewrite ?Htrim2; auto.
    now rewrite remove_reDotMd_suffix.
  - apply (fileHasLink_found file _ (name ++ ".md") Hin); rewrite ?Htrim; auto.
    now rewrite remove_reDotMd_suffix.
Qed.

Lemma fileHasLink_own_links_witness :
  In "Atlas/Maps" (cache_links noteLinks)
  /\ fileHasLink noteLinks "Atlas/Maps" = true /\ fileHasLink noteLinks "   " = false.
Proof.
  split; [left; reflexivity|].
  apply (fileHasLink_own_links noteLinks "Atlas/Maps" "   ");
    [left; reflexivity | reflexivity | reflexivity | reflexivity].
Defined.

Lemma fileHasLink_ignores_md_suffix_witness :
  Regex.remove reDotMd "Daily" = "Daily"
  /\ fileHasLink noteLinks "Atlas/Maps.md" = true
  /\ fileHasLink noteLinks "Daily" = true.
Proof.
  split; [reflexivity|]. split.
  - destruct (fileHasLink_ignores_md_suffix noteLinks "Atlas/Maps" eq_refl eq_refl eq_refl)
      as [Hwith _].
    apply Hwith. left. reflexivity.
  - destruct (fileHasLink_ignores_md_suffix noteLinks "Daily" eq_refl eq_refl eq_refl)
      as [_ Hwithout].
    apply Hwithout. right. left. reflexivity.
Defined.

(** ** The value resolver and the formula evaluator, further *)

Lemma trimEnd_of_trimmed (s : string) : Js.trim s = s -> Js.trimEnd s = s.
Proof.
  intros H. pose proof (trimEnd_idempotent (Js.trimStart s)) as E.
  fold (Js.trim s) in E. now rewrite H in E.
Qed.

Lemma trimEnd_append (p k : string) :
  Js.trimEnd k = k -> k <> EmptyString -> Js.trimEnd (p ++ k) = p ++ k.
Proof.
  intros Hk Hne. induction p as [|c p IH]; [exact Hk|].
  cbn [append Js.trimEnd]. rewrite IH.
  destruct (p ++ k) eqn:E; [|reflexivity].
  destruct p; [cbn in E; congruence | discriminate E].
Qed.

Lemma trim_prefixed (p k : string) :
  startsWithChar Js.isWhiteSpace p = false -> Js.trimEnd p = p -> p <> EmptyString ->
  Js.trim k = k -> Js.trim (p ++ k) = p ++ k.
Proof.
  intros Hhead Hp Hne Hk. unfold Js.trim.
  destruct p as [|c p]; [congruence|]. cbn in Hhead.
  cbn [append]. rewrite (trimStart_head _ _ Hhead).
  destruct k as [|d k].
  - rewrite !append_empty. exact Hp.
  - apply (trimEnd_append (String c p)); [apply trimEnd_of_trimmed, Hk | discriminate].
Qed.

(** X9.  The [note.] prefix is implicit: for a frontmatter key without
    surrounding white space that does not begin with [file.], [note.] or
    [formula.] and names no member of [Object.prototype], the references
    [note.key] and [key] resolve to the same value, the one stored in the
    frontmatter ([undefined] when the note has no such key), with any
    fuel. *)
Theorem note_prefix_is_implicit (fuel : nat) (file : TFile) (key : string)
    (schema : option BaseSchemaResponse) :
  Js.trim key = key ->
  isDirectRef key = false ->
  isPrototypeMember key = false ->
  getValueForRef fuel file ("note." ++ key) schema
  = Some (getProp (getFrontmatter file) key)
  /\ getValueForRef fuel file key schema = Some (getProp (getFrontmatter file) key).
Proof.
  intros Htrim Hbare _. split.
  - unfold getValueForRef, getValueForRefWith.
    rewrite (trim_prefixed "note." key) by first [exact Htrim | reflexivity | discriminate].
    change (Js.startsWith ("note." ++ key) "file.") with false.
    unfold Js.startsWith. rewrite (prefix_append "note." key).
    replace (Js.sliceFrom ("note." ++ key) 5) with key
      by (symmetry; apply (sliceFrom_append "note." key)).
    reflexivity.
  - unfold getValueForRef. rewrite getValueForRefWith_bare by (now rewrite Htrim).
    now rewrite Htrim.
Qed.

Lemma note_prefix_is_implicit_witness :
  Js.trim "alias" = "alias"
  /\ isPrototypeMember "alias" = false
  /\ getValueForRef 0 noteLinks "note.alias" None = Some (VStr "H")
  /\ getValueForRef 0 noteLinks "alias" None = Some (VStr "H").
Proof.
  split; [reflexivity|]. split; [reflexivity|].
  apply (note_prefix_is_implicit 0 noteLinks "alias" None); reflexivity.
Defined.

(** X10.  A formula that refers to itself never yields a value: when the
    expression of the formula [key] is the reference [formula.key], its
    evaluation does not return with any fuel (in the source the recursion
    has no end and overflows the call stack). *)
Theorem self_reference_never_returns (file : TFile) (sch : BaseSchemaResponse)
    (formulas : object) (key expr : string) :
  schema_formulas sch = Some formulas ->
  getProp formulas key = VStr expr ->
  Js.trim expr = "formula." ++ key ->
  forall fuel : nat,
    evalFormulaExpression fuel file expr (Some sch) = None
    /\ evalFormula fuel file key (Some sch) = None.
Proof.
  intros Hforms Hprop Htrim.
  assert (Hexpr : forall fuel, evalFormulaExpression fuel file expr (Some sch) = None).
  { induction fuel as [|fuel IH]; [reflexivity|].
    cbn [evalFormulaExpression]. rewrite Htrim.
    change (Js.isEmpty ("formula." ++ key)) with false.
    change (String.eqb ("formula." ++ key) "null") with false.
    replace (Regex.test reNumber ("formula." ++ key)) with false by reflexivity.
    replace (isQuoted ("formula." ++ key)) with false by reflexivity.
    replace (isDirectRef ("formula." ++ key)) with true
      by (unfold isDirectRef, Js.startsWith; rewrite (prefix_append "formula." key);
          reflexivity).
    unfold getValueForRefWith.
    assert (Hidem : Js.trim ("formula." ++ key) = "formula." ++ key)
      by (rewrite <- Htrim; apply trim_idempotent).
    rewrite Hidem.
    change (Js.startsWith ("formula." ++ key) "file.") with false.
    change (Js.startsWith ("formula." ++ key) "note.") with false.
    unfold Js.startsWith. rewrite (prefix_append "formula." key).
    replace (Js.sliceFrom ("formula." ++ key) 8) with key
      by (symmetry; apply (sliceFrom_append "formula." key)).
    unfold evalFormulaWith. rewrite Hforms, Hprop. exact IH. }
  intros fuel. split; [apply Hexpr|].
  unfold evalFormula, evalFormulaWith. rewrite Hforms, Hprop. apply Hexpr.
Qed.

Lemma self_reference_never_returns_witness :
  getProp [("loop", VStr " formula.loop ")] "loop" = VStr " formula.loop "
  /\ forall fuel : nat,
       evalFormulaExpression fuel noteLinks " formula.loop "
         (Some (schemaWithFormulas [("loop", VStr " formula.loop ")])) = None
       /\ evalFormula fuel noteLinks "loop"
            (Some (schemaWithFormulas [("loop", VStr " formula.loop ")])) = None.
Proof.
  split; [reflexivity|].
  apply (self_reference_never_returns noteLinks
           (schemaWithFormulas [("loop", VStr " formula.loop ")])
           [("loop", VStr " formula.loop ")] "loop" " formula.loop "); reflexivity.
Defined.

(** X11.  The else-branch of an [if] is a nested expression: for every
    expression that the evaluator takes as an [if] with three arguments or
    more, when the value resolved for the condition is not truthy the
    result is the evaluation of the rest of the arguments, joined by commas
    and trimmed, as a formula expression of its own. *)
Theorem if_falsy_evaluates_else_expression (fuel : nat) (file : TFile) (expr : string)
    (schema : option BaseSchemaResponse) (condRef thenRef elseExpr : string)
    (condVal : value) :
  ifArguments (Js.trim expr) = Some (condRef, thenRef, elseExpr) ->
  getValueForRef fuel file condRef schema = Some condVal ->
  truthy condVal = false ->
  evalFormulaExpression (S fuel) file expr schema
  = evalFormulaExpression fuel file elseExpr schema.
Proof.
  intros Hif Hcond Hfalsy.
  now rewrite (evalFormulaExpression_if _ _ _ _ _ _ _ Hif), Hcond, Hfalsy.
Qed.

Lemma if_falsy_evaluates_else_expression_witness :
  ifArguments (Js.trim "if(missing, status, if(alias, alias, 'none'))")
  = Some ("missing", "status", "if(alias, alias, 'none')")
  /\ evalFormulaExpression 3 noteLinks "if(missing, status, if(alias, alias, 'none'))" None
     = evalFormulaExpression 2 noteLinks "if(alias, alias, 'none')" None
  /\ evalFormulaExpression 2 noteLinks "if(alias, alias, 'none')" None = Some (VStr "H").
Proof.
  split; [reflexivity|]. split; [|reflexivity].
  apply (if_falsy_evaluates_else_expression 2 noteLinks
           "if(missing, status, if(alias, alias, 'none'))" None
           "missing" "status" "if(alias, alias, 'none')" VUndefined); reflexivity.
Defined.

(** ** The structured filter, further *)

Lemma andLoop_all_pass {A : Type} (eval : A -> option FilterResult)
    (parts : list A) (results : list FilterResult) :
  Forall2 (fun part res => eval part = Some res) parts results ->
  forallb ok results = true ->
  forall (rest : list A) (ws : list string),
    andLoop eval (parts ++ rest) ws
    = andLoop eval rest (ws ++ List.concat (map warnings results))%list.
Proof.
  induction 1 as [|part res parts results Hpart _ IH]; intros Hok rest ws; cbn.
  - now rewrite app_nil_r.
  - cbn in Hok. apply andb_true_iff in Hok as [Hres Hok].
    rewrite Hpart, Hres, (IH Hok), <- app_assoc. reflexivity.
Qed.

(** X12.  [{and: [...]}] stops at the first child that fails: when the
    children before it pass, the result is [ok: false] with the warnings of
    the children up to and including the failing one, and the children
    after it are not evaluated, whatever they are. *)
Theorem and_node_stops_at_first_failure (fuel : nat) (file : TFile) (o : object)
    (schema : option BaseSchemaResponse) (before after : list value) (failing : value)
    (results : list FilterResult) (failed : FilterResult) :
  getProp o "and" = VArr (before ++ failing :: after) ->
  Forall2 (fun part res => evaluateFilter fuel file part schema = Some res) before results ->
  forallb ok results = true ->
  evaluateFilter fuel file failing schema = Some failed ->
  ok failed = false ->
  evaluateFilter (S fuel) file (VObj o) schema
  = Some {| ok := false;
            warnings := (List.concat (map warnings results) ++ warnings failed)%list |}.
Proof.
  intros Hand Hbefore Hok Hfail Hnot. cbn [evaluateFilter toBoolean negb]. rewrite Hand.
  rewrite (andLoop_all_pass _ _ _ Hbefore Hok). cbn [andLoop app]. now rewrite Hfail, Hnot.
Qed.

Lemma and_node_stops_at_first_failure_witness :
  evaluateFilter 3 noteLinks (VObj andOfThree) None
  = Some {| ok := false; warnings := ["Filter non reconnu: (a)"] |}.
Proof.
  apply (and_node_stops_at_first_failure 2 noteLinks andOfThree None
           [VStr "(a)"] [VStr "(b)"] (VStr "status = 'late'")
           [ {| ok := true; warnings := ["Filter non reconnu: (a)"] |} ]
           {| ok := false; warnings := [] |});
    try reflexivity.
  repeat constructor.
Defined.

(** X13.  [{and: [...]}] of children that all pass passes, with the
    warnings of all the children in order; in particular [{and: []}]
    passes without warning. *)
Theorem and_node_of_passing_children (fuel : nat) (file : TFile) (o : object)
    (schema : option BaseSchemaResponse) (parts : list value)
    (results : list FilterResult) :
  getProp o "and" = VArr parts ->
  Forall2 (fun part res => evaluateFilter fuel file part schema = Some res) parts results ->
  forallb ok results = true ->
  evaluateFilter (S fuel) file (VObj o) schema
  = Some {| ok := true; warnings := List.concat (map warnings results) |}.
Proof.
  intros Hand Hparts Hok. cbn [evaluateFilter toBoolean negb]. rewrite Hand.
  rewrite <- (app_nil_r parts), (andLoop_all_pass _ _ _ Hparts Hok). reflexivity.
Qed.

Lemma and_node_of_passing_children_witness :
  evaluateFilter 1 noteLinks (VObj [("and", VArr [])]) None
  = Some {| ok := true; warnings := [] |}
  /\ evaluateFilter 3 noteLinks (VObj [("and", VArr [VStr "(a)"; VStr "status = done"])]) None
     = Some {| ok := true; warnings := ["Filter non reconnu: (a)"] |}.
Proof.
  split.
  - apply (and_node_of_passing_children 0 noteLinks [("and", VArr [])] None [] []);
      [reflexivity | constructor | reflexivity].
  - apply (and_node_of_passing_children 2 noteLinks
             [("and", VArr [VStr "(a)"; VStr "status = done"])] None
             [VStr "(a)"; VStr "status = done"]
             [ {| ok := true; warnings := ["Filter non reconnu: (a)"] |};
               {| ok := true; warnings := [] |} ]);
      [reflexivity | repeat constructor | reflexivity].
Defined.

Lemma evaluateFilter_not (fuel : nat) (file : TFile) (o : object)
    (schema : option BaseSchemaResponse) :
  plainObject o = true ->
  toBoolean (getProp o "not") = true ->
  evaluateFilter (S fuel) file (VObj o) schema
  = negated [] (evaluateFilter fuel file (getProp o "not") schema).
Proof.
  unfold plainObject. intros Hplain Hnot. apply andb_true_iff in Hplain as [Hand Hor].
  cbn [evaluateFilter toBoolean negb]. rewrite Hnot.
  destruct (getProp o "and"); try discriminate Hand;
    destruct (getProp o "or"); try discriminate Hor; reflexivity.
Qed.

(** X14.  Two negations cancel: for a filter [F] that is not falsy,
    [{not: {not: F}}] (with no [and] or [or] array beside the [not]) gives
    the result of [F], its warnings included. *)
Theorem double_negation_node (fuel : nat) (file : TFile) (outer inner : object)
    (schema : option BaseSchemaResponse) (F : value) (res : FilterResult) :
  plainObject outer = true ->
  getProp outer "not" = VObj inner ->
  plainObject inner = true ->
  getProp inner "not" = F ->
  toBoolean F = true ->
  evaluateFilter fuel file F schema = Some res ->
  evaluateFilter (S (S fuel)) file (VObj outer) schema = Some res.
Proof.
  intros Houter Hnot1 Hinner Hnot2 Htruthy Hres.
  rewrite (evaluateFilter_not _ _ _ _ Houter) by (now rewrite Hnot1).
  rewrite Hnot1, (evaluateFilter_not _ _ _ _ Hinner) by (now rewrite Hnot2).
  rewrite Hnot2, Hres. destruct res as [b ws]. cbn. now rewrite negb_involutive.
Qed.

Lemma double_negation_node_witness :
  evaluateFilter 4 noteLinks
    (VObj [("not", VObj [("not", VStr "status = done")])]) None
  = Some {| ok := true; warnings := [] |}.
Proof.
  apply (double_negation_node 2 noteLinks
           [("not", VObj [("not", VStr "status = done")])]
           [("not", VStr "status = done")] None (VStr "status = done")
           {| ok := true; warnings := [] |}); reflexivity.
Defined.

(** ** The warnings of the filter evaluator *)

Lemma orLoop_warnings {A : Type} (P : string -> Prop) (eval : A -> option FilterResult)
    (parts : list A) :
  (forall part res, eval part = Some res -> Forall P (warnings res)) ->
  forall any ws res,
    Forall P ws -> orLoop eval parts any ws = Some res -> Forall P (warnings res).
Proof.
  intros Heval. induction parts as [|p rest IH]; intros any ws res Hws H; cbn in H.
  - injection H as <-. exact Hws.
  - destruct (eval p) as [r|] eqn:E; [|discriminate H].
    apply (IH _ _ _ (proj2 (Forall_app _ _ _) (conj Hws (Heval _ _ E))) H).
Qed.

Lemma andLoop_warnings {A : Type} (P : string -> Prop) (eval : A -> option FilterResult)
    (parts : list A) :
  (forall part res, eval part = Some res -> Forall P (warnings res)) ->
  forall ws res,
    Forall P ws -> andLoop eval parts ws = Some res -> Forall P (warnings res).
Proof.
  intros Heval. induction parts as [|p rest IH]; intros ws res Hws H; cbn in H.
  - injection H as <-. exact Hws.
  - destruct (eval p) as [r|] eqn:E; [|discriminate H].
    pose proof (proj2 (Forall_app _ _ _) (conj Hws (Heval _ _ E))) as Hall.
    destruct (ok r); [apply (IH _ _ Hall H) | injection H as <-; exact Hall].
Qed.

Lemma negated_warnings (P : string -> Prop) (r : option FilterResult) (res : FilterResult) :
  (forall x, r = Some x -> Forall P (warnings x)) ->
  negated [] r = Some res -> Forall P (warnings res).
Proof.
  intros Hr H. destruct r as [x|]; [|discriminate H]. injection H as <-. cbn.
  apply Hr. reflexivity.
Qed.

Lemma dispatch_result_warnings (resolve : string -> option value) (file : TFile)
    (raw : string) (res : FilterResult) :
  dispatch (forms resolve file raw) raw = Some res ->
  warnings res = [] \/ warnings res = [unrecognizedWarning raw].
Proof.
  unfold forms. cbn [dispatch pattern action]. unfold containsLink, answer.
  repeat match goal with
         | |- match ?x with _ => _ end = Some _ -> _ => destruct x
         end;
    intros H; try discriminate H; injection H as <-; auto.
Qed.

Lemma evaluateStatement_warnings (fuel : nat) :
  forall (file : TFile) (statement : string) (schema : option BaseSchemaResponse)
         (res : FilterResult),
    evaluateStatement fuel file statement schema = Some res ->
    Forall isFilterWarning (warnings res).
Proof.
  induction fuel as [|fuel IH]; intros file statement schema res H; [discriminate H|].
  cbn [evaluateStatement] in H.
  assert (Hrec : forall part r, evaluateStatement fuel file part schema = Some r ->
                                Forall isFilterWarning (warnings r))
    by (intros part r; apply IH).
  repeat match type of H with
         | (if ?b then _ else _) = Some _ => destruct b
         end.
  - injection H as <-. constructor.
  - apply (orLoop_warnings _ _ _ Hrec _ _ _ (Forall_nil _) H).
  - apply (orLoop_warnings _ _ _ Hrec _ _ _ (Forall_nil _) H).
  - apply (andLoop_warnings _ _ _ Hrec _ _ (Forall_nil _) H).
  - apply (andLoop_warnings _ _ _ Hrec _ _ (Forall_nil _) H).
  - apply (negated_warnings _ _ _ (Hrec _) H).
  - apply (negated_warnings _ _ _ (Hrec _) H).
  - destruct (dispatch_result_warnings _ _ _ _ H) as [-> | ->]; [constructor|].
    constructor; [|constructor]. left. eexists. reflexivity.
Qed.

(** X15.  The filter evaluator gives two kinds of warning and no other:
    every warning of a result of [evaluateFilter] is "Filter non reconnu: "
    followed by a statement, or the unknown-shape warning. *)
Theorem evaluateFilter_warnings (fuel : nat) :
  forall (file : TFile) (flt : value) (schema : option BaseSchemaResponse)
         (res : FilterResult),
    evaluateFilter fuel file flt schema = Some res ->
    Forall isFilterWarning (warnings res).
Proof.
  induction fuel as [|fuel IH]; intros file flt schema res H; [discriminate H|].
  cbn [evaluateFilter] in H.
  assert (Hrec : forall part r, evaluateFilter fuel file part schema = Some r ->
                                Forall isFilterWarning (warnings r))
    by (intros part r; apply IH).
  assert (Hshape : Forall isFilterWarning [unknownShapeWarning])
    by (repeat constructor; now right).
  destruct (negb (toBoolean flt)); [injection H as <-; constructor|].
  destruct flt; try (injection H as <-; exact Hshape).
  - apply (evaluateStatement_warnings _ _ _ _ _ H).
  - destruct (getProp fields "and");
      try (apply (andLoop_warnings _ _ _ Hrec _ _ (Forall_nil _) H));
      destruct (getProp fields "or");
      try (apply (orLoop_warnings _ _ _ Hrec _ _ _ (Forall_nil _) H));
      (destruct (toBoolean (getProp fields "not"));
       [apply (negated_warnings _ _ _ (Hrec _) H) | injection H as <-; exact Hshape]).
Qed.

Lemma evaluateFilter_warnings_witness :
  evaluateFilter 3 noteLinks (VObj [("or", VArr [VStr "(a)"; VNum (Num.ofZ 7)])]) None
  = Some {| ok := true;
            warnings := ["Filter non reconnu: (a)"; unknownShapeWarning] |}
  /\ Forall isFilterWarning ["Filter non reconnu: (a)"; unknownShapeWarning].
Proof.
  split; [vm_compute; reflexivity|].
  apply (evaluateFilter_warnings 3 noteLinks
           (VObj [("or", VArr [VStr "(a)"; VNum (Num.ofZ 7)])]) None
           {| ok := true; warnings := ["Filter non reconnu: (a)"; unknownShapeWarning] |}).
  vm_compute. reflexivity.
Defined.

(** ** The query planner, further *)

(** X16.  A page never holds more rows than the limit, and a page that
    starts at or after the end of the match list is empty. *)
Theorem page_is_bounded {A : Type} (matches : list A) (page limit : Z) :
  (1 <= page)%Z -> (1 <= limit)%Z ->
  (Z.of_nat (List.length (pageSlice matches page limit)) <= limit)%Z
  /\ ((Z.of_nat (List.length matches) <= (page - 1) * limit)%Z ->
      pageSlice matches page limit = []).
Proof.
  intros Hp Hl. rewrite (pageSlice_window matches page limit Hp Hl). split.
  - rewrite length_firstn. lia.
  - intros Hlast. rewrite skipn_all2 by lia. apply firstn_nil.
Qed.

Lemma page_is_bounded_witness :
  (1 <= 4)%Z /\ (1 <= 3)%Z
  /\ (Z.of_nat (List.length (pageSlice ["a"; "b"; "c"; "d"; "e"; "f"; "g"] 4 3)) <= 3)%Z
  /\ pageSlice ["a"; "b"; "c"; "d"; "e"; "f"; "g"] 4 3 = [].
Proof.
  split; [lia|]. split; [lia|].
  destruct (page_is_bounded ["a"; "b"; "c"; "d"; "e"; "f"; "g"] 4 3 ltac:(lia) ltac:(lia))
    as [Hlen Hempty].
  split; [exact Hlen | apply Hempty; cbn; lia].
Defined.

Lemma collectMatches_filter (fuel : nat) (schema : BaseSchemaResponse) (flt : value)
    (files : list TFile) :
  forall (acc : list TFile) (st : WarningState) (matches : list TFile) (st' : WarningState),
    collectMatches fuel schema flt files acc st = Some (matches, st') ->
    matches = (acc ++ filter (passes fuel schema flt) files)%list.
Proof.
  induction files as [|f rest IH]; intros acc st matches st' H; cbn in H.
  - injection H as <- _. now rewrite app_nil_r.
  - cbn [filter]. unfold passes at 1.
    destruct (evaluateFilter fuel f flt (Some schema)) as [r|]; [|discriminate H].
    rewrite (IH _ _ _ _ H). destruct (ok r); [now rewrite <- app_assoc | reflexivity].
Qed.

(** X17.  The matching loop keeps the enumeration order: the matches are
    exactly the notes that pass the filter, each once, in the order in
    which the vault lists them. *)
Theorem collectMatches_keeps_order (fuel : nat) (schema : BaseSchemaResponse) (flt : value)
    (files matches : list TFile) (st st' : WarningState) :
  collectMatches fuel schema flt files [] st = Some (matches, st') ->
  matches = filter (passes fuel schema flt) files.
Proof. intros H. apply (collectMatches_filter _ _ _ _ _ _ _ _ H). Qed.

Lemma insertBy_perm {A : Type} (cmp : A -> A -> option Z) (x : A) (l l' : list A) :
  insertBy cmp x l = Some l' -> Permutation l' (x :: l).
Proof.
  revert l'. induction l as [|y rest IH]; intros l' H; cbn in H.
  - injection H as <-. reflexivity.
  - destruct (cmp x y) as [c|]; [|discriminate H].
    destruct (c <=? 0)%Z; [injection H as <-; reflexivity|].
    destruct (insertBy cmp x rest) as [r|]; [|discriminate H].
    injection H as <-. rewrite (IH r eq_refl). apply perm_swap.
Qed.

Lemma sortBy_perm {A : Type} (cmp : A -> A -> option Z) (l l' : list A) :
  sortBy cmp l = Some l' -> Permutation l' l.
Proof.
  revert l'. induction l as [|x rest IH]; intros l' H; cbn in H.
  - injection H as <-. reflexivity.
  - destruct (sortBy cmp rest) as [sorted|]; [|discriminate H].
    rewrite (insertBy_perm _ _ _ _ H). constructor. apply IH. reflexivity.
Qed.

Section QueryProperties.

Variable localeCompare : string -> string -> Z.
Variable decodeURIComponent : string -> option string.
Variable now : Num.number.

#[local] Abbreviation runQuery := (queryBase localeCompare decodeURIComponent now).

(** X18.  With the engine off, or without [evaluate] in the request, the
    response comes from the fallback, and the handler, from the extracted
    schema on, leaves the snapshot cache as it was. *)
Theorem fallback_leaves_cache (fuel : nat) (engineEnabled : bool) (cache : EngineCache)
    (vaultFiles : list TFile) (id : string) (schema : BaseSchemaResponse) (body : value)
    (resp : BaseQueryResponse) (cache' : EngineCache) :
  servedByEngine engineEnabled body = false ->
  runQuery fuel engineEnabled cache vaultFiles id schema body = Some (resp, cache') ->
  resp_source resp = SourceFallback /\ cache' = cache.
Proof.
  unfold servedByEngine. intros Hoff H. unfold queryBase in H. rewrite Hoff in H.
  repeat match type of H with
         | match ?x with _ => _ end = Some _ => destruct x eqn:?; try discriminate H
         end;
    injection H as <- <-; split; reflexivity.
Qed.

(** X19.  With the engine on and [evaluate] asked, a snapshot that is in
    the cache for the base is what the response serves: its rows, paged,
    and its total, whatever the filter, the view and the sort of the
    request; the cache is left as it was. *)
Theorem snapshot_is_served (fuel : nat) (cache : EngineCache)
    (vaultFiles : list TFile) (id : string) (schema : BaseSchemaResponse) (body : value)
    (snap : EngineSnap) (resp : BaseQueryResponse) (cache' : EngineCache) :
  toBoolean (field body "evaluate") = true ->
  cacheGet cache (ensureBaseExt decodeURIComponent id) = Some snap ->
  runQuery fuel true cache vaultFiles id schema body = Some (resp, cache') ->
  resp_source resp = SourceEngine
  /\ resp_total resp = snap_total snap
  /\ resp_rows resp
     = pageSlice (snap_rows snap) (queryPage body) (queryLimit body (selectView schema body))
  /\ cache' = cache.
Proof.
  intros Heval Hsnap H. unfold queryBase in H. rewrite Heval, Hsnap in H. cbn [andb] in H.
  repeat match type of H with
         | match ?x with _ => _ end = Some _ => destruct x eqn:?; try discriminate H
         end;
    injection H as <- <-; repeat split; reflexivity.
Qed.

Lemma cacheGet_cacheSet (cache : EngineCache) (key : string) (snap : EngineSnap) :
  cacheGet (cacheSet cache key snap) key = Some snap.
Proof.
  induction cache as [|[k old] rest IH]; cbn.
  - now rewrite String.eqb_refl.
  - destruct (String.eqb k key) eqn:E; cbn; rewrite E; [reflexivity | exact IH].
Qed.

(** X20.  With the engine on and [evaluate] asked, a base without snapshot
    gets one: the rows of all the matches, evaluated, are stored under the
    identifier of the base, and the response serves the page of that
    snapshot. *)
Theorem snapshot_is_created (fuel : nat) (cache : EngineCache)
    (vaultFiles : list TFile) (id : string) (schema : BaseSchemaResponse) (body : value)
    (resp : BaseQueryResponse) (cache' : EngineCache) :
  toBoolean (field body "evaluate") = true ->
  cacheGet cache (ensureBaseExt decodeURIComponent id) = None ->
  runQuery fuel true cache vaultFiles id schema body = Some (resp, cache') ->
  exists snap : EngineSnap,
    cacheGet cache' (ensureBaseExt decodeURIComponent id) = Some snap
    /\ snap_total snap = List.length (snap_rows snap)
    /\ resp_source resp = SourceEngine
    /\ resp_total resp = snap_total snap
    /\ resp_rows resp
       = pageSlice (snap_rows snap) (queryPage body)
                   (queryLimit body (selectView schema body)).
Proof.
  intros Heval Hsnap H. unfold queryBase in H. rewrite Heval, Hsnap in H. cbn [andb] in H.
  repeat match type of H with
         | match ?x with _ => _ end = Some _ => destruct x eqn:?; try discriminate H
         end;
    match goal with
    | E : option_map _ ?b = Some _ |- _ =>
        destruct b; [|discriminate E]; cbn in E; injection E as <-
    end;
    match goal with
    | E : @Some EngineSnap _ = Some _ |- _ => injection E as <-
    | E : @Some EngineSnap _ = None |- _ => discriminate E
    end;
    injection H as <- <-;
    eexists; rewrite cacheGet_cacheSet; repeat split; reflexivity.
Qed.

(** X21.  On the fallback path the total of the response counts all the
    matches, not the rows of the page: it is the number of notes of the
    vault, outside the configuration folder and other than base files,
    that pass the combined filter. *)
Theorem fallback_total_counts_matches (fuel : nat) (engineEnabled : bool)
    (cache : EngineCache) (vaultFiles : list TFile) (id : string)
    (schema : BaseSchemaResponse) (body : value)
    (resp : BaseQueryResponse) (cache' : EngineCache) :
  runQuery fuel engineEnabled cache vaultFiles id schema body = Some (resp, cache') ->
  resp_source resp = SourceFallback ->
  resp_total resp
  = List.length
      (filter (passes fuel schema (combinedFilter schema (selectView schema body) body))
              (filter isCandidate vaultFiles)).
Proof.
  intros H Hsrc. unfold queryBase in H.
  destruct (collectMatches fuel schema _ _ [] noWarnings) as [[unsorted st]|] eqn:Hc;
    [|discriminate H].
  apply collectMatches_filter in Hc. cbn [app] in Hc. rewrite <- Hc.
  destruct (match sortSpecsOf body (selectView schema body) with
            | [] => Some unsorted
            | _ => _
            end) as [matches|] eqn:Hsort; [|discriminate H].
  assert (Hlen : List.length matches = List.length unsorted).
  { destruct (sortSpecsOf body (selectView schema body)).
    - now injection Hsort as <-.
    - apply Permutation_length, (sortBy_perm _ _ _ Hsort). }
  rewrite <- Hlen.
  repeat match type of H with
         | match ?x with _ => _ end = Some _ => destruct x eqn:?; try discriminate H
         end;
    injection H as <- _; cbn in Hsrc |- *; try discriminate Hsrc; reflexivity.
Qed.

End QueryProperties.

Lemma collectMatches_keeps_order_witness :
  collectMatches 3 taskSchema (VStr "x") vaultNotes [] noWarnings
  = Some ([noteX 7], noWarnings)
  /\ [noteX 7] = filter (passes 3 taskSchema (VStr "x")) vaultNotes.
Proof.
  split; [vm_compute; reflexivity|].
  apply (collectMatches_keeps_order 3 taskSchema (VStr "x") vaultNotes [noteX 7]
           noWarnings noWarnings).
  vm_compute. reflexivity.
Defined.

Lemma fallback_leaves_cache_witness :
  servedByEngine true taskQuery = false
  /\ match queryBase codeUnitCompare decodePlain (Num.ofZ 0) 4 true [("Tasks.base", staleSnap)] vaultNotes "Tasks" taskSchema
             taskQuery with
     | Some (resp, cache') =>
         resp_source resp = SourceFallback /\ cache' = [("Tasks.base", staleSnap)]
     | None => False
     end.
Proof.
  split; [reflexivity|].
  destruct (queryBase codeUnitCompare decodePlain (Num.ofZ 0) 4 true [("Tasks.base", staleSnap)] vaultNotes "Tasks" taskSchema
              taskQuery) as [[resp cache']|] eqn:E.
  - exact (fallback_leaves_cache codeUnitCompare decodePlain (Num.ofZ 0) 4 true
             [("Tasks.base", staleSnap)] vaultNotes "Tasks" taskSchema taskQuery
             resp cache' eq_refl E).
  - vm_compute in E. discriminate E.
Defined.

Lemma snapshot_is_served_witness :
  cacheGet [("Tasks.base", staleSnap)] (ensureBaseExt decodePlain "Tasks") = Some staleSnap
  /\ match queryBase codeUnitCompare decodePlain (Num.ofZ 0) 4 true [("Tasks.base", staleSnap)] vaultNotes "Tasks" taskSchema
             evaluatedQuery with
     | Some (resp, cache') =>
         resp_source resp = SourceEngine
         /\ resp_total resp = 3%nat
         /\ resp_rows resp = [VStr "row 1"; VStr "row 2"]
         /\ cache' = [("Tasks.base", staleSnap)]
     | None => False
     end.
Proof.
  split; [reflexivity|].
  destruct (queryBase codeUnitCompare decodePlain (Num.ofZ 0) 4 true [("Tasks.base", staleSnap)] vaultNotes "Tasks" taskSchema
              evaluatedQuery) as [[resp cache']|] eqn:E.
  - exact (snapshot_is_served codeUnitCompare decodePlain (Num.ofZ 0) 4
             [("Tasks.base", staleSnap)] vaultNotes "Tasks" taskSchema evaluatedQuery
             staleSnap resp cache' eq_refl eq_refl E).
  - vm_compute in E. discriminate E.
Defined.

Lemma snapshot_is_created_witness :
  cacheGet [] (ensureBaseExt decodePlain "Tasks") = None
  /\ match queryBase codeUnitCompare decodePlain (Num.ofZ 0) 4 true [] vaultNotes "Tasks" taskSchema evaluatedQuery with
     | Some (resp, cache') =>
         exists snap : EngineSnap,
           cacheGet cache' (ensureBaseExt decodePlain "Tasks") = Some snap
           /\ snap_total snap = List.length (snap_rows snap)
           /\ resp_source resp = SourceEngine
           /\ resp_total resp = snap_total snap
           /\ resp_rows resp
              = pageSlice (snap_rows snap) (queryPage evaluatedQuery)
                          (queryLimit evaluatedQuery (selectView taskSchema evaluatedQuery))
     | None => False
     end.
Proof.
  split; [reflexivity|].
  destruct (queryBase codeUnitCompare decodePlain (Num.ofZ 0) 4 true [] vaultNotes "Tasks" taskSchema evaluatedQuery)
    as [[resp cache']|] eqn:E.
  - exact (snapshot_is_created codeUnitCompare decodePlain (Num.ofZ 0) 4
             [] vaultNotes "Tasks" taskSchema evaluatedQuery resp cache' eq_refl eq_refl E).
  - vm_compute in E. discriminate E.
Defined.

Lemma fallback_total_counts_matches_witness :
  match queryBase codeUnitCompare decodePlain (Num.ofZ 0) 4 false [] vaultNotes "Tasks" taskSchema
          (VObj [("filter", VStr "x"); ("limit", VNum (Num.ofZ 1))]) with
  | Some (resp, _) =>
      resp_source resp = SourceFallback
      /\ resp_total resp
         = List.length
             (filter (passes 4 taskSchema
                        (combinedFilter taskSchema
                           (selectView taskSchema
                              (VObj [("filter", VStr "x"); ("limit", VNum (Num.ofZ 1))]))
                           (VObj [("filter", VStr "x"); ("limit", VNum (Num.ofZ 1))])))
                     (filter isCandidate vaultNotes))
  | None => False
  end.
Proof.
  destruct (queryBase codeUnitCompare decodePlain (Num.ofZ 0) 4 false [] vaultNotes "Tasks" taskSchema
              (VObj [("filter", VStr "x"); ("limit", VNum (Num.ofZ 1))]))
    as [[resp cache']|] eqn:E.
  - assert (Hsrc : resp_source resp = SourceFallback).
    { vm_compute in E. injection E as <- _. reflexivity. }
    split; [exact Hsrc|].
    exact (fallback_total_counts_matches codeUnitCompare decodePlain (Num.ofZ 0) 4 false
             [] vaultNotes "Tasks" taskSchema _ resp cache' E Hsrc).
  - vm_compute in E. discriminate E.
Defined.

(** ** Objects *)

Lemma getProp_setProp_same (o : object) (k : string) (v : value) :
  getProp (setProp o k v) k = v.
Proof.
  induction o as [|[k' w] rest IH]; cbn.
  - now rewrite String.eqb_refl.
  - destruct (String.eqb k' k) eqn:E; cbn; rewrite E; [reflexivity | exact IH].
Qed.

Lemma getProp_setProp_other (o : object) (k k' : string) (v : value) :
  k <> k' -> getProp (setProp o k v) k' = getProp o k'.
Proof.
  intros Hne. induction o as [|[j w] rest IH]; cbn.
  - destruct (String.eqb k k') eqn:E; [apply String.eqb_eq in E; congruence | reflexivity].
  - destruct (String.eqb j k) eqn:E; cbn.
    + apply String.eqb_eq in E. subst j.
      destruct (String.eqb k k') eqn:E'; [apply String.eqb_eq in E'; congruence | reflexivity].
    + destruct (String.eqb j k'); [reflexivity | exact IH].
Qed.

Lemma hasProp_setProp (o : object) (k k' : string) (v : value) :
  hasProp (setProp o k v) k' = hasProp o k' || String.eqb k k'.
Proof.
  unfold hasProp. induction o as [|[j w] rest IH]; cbn.
  - now rewrite orb_false_r.
  - destruct (String.eqb j k) eqn:E; cbn.
    + apply String.eqb_eq in E. subst j.
      destruct (String.eqb k k'); [reflexivity | now rewrite orb_false_r].
    + rewrite IH. now rewrite orb_assoc.
Qed.

Lemma getProp_deleteProp_same (o : object) (k : string) :
  getProp (deleteProp o k) k = VUndefined.
Proof.
  unfold deleteProp. induction o as [|[j w] rest IH]; cbn; [reflexivity|].
  destruct (String.eqb j k) eqn:E; cbn; [exact IH | now rewrite E].
Qed.

Lemma getProp_deleteProp_other (o : object) (k k' : string) :
  k <> k' -> getProp (deleteProp o k) k' = getProp o k'.
Proof.
  intros Hne. unfold deleteProp. induction o as [|[j w] rest IH]; cbn; [reflexivity|].
  destruct (String.eqb j k) eqn:E; cbn.
  - apply String.eqb_eq in E. subst j.
    destruct (String.eqb k k') eqn:E'; [apply String.eqb_eq in E'; congruence | exact IH].
  - destruct (String.eqb j k'); [reflexivity | exact IH].
Qed.

Lemma deleteProp_absent (o : object) (k : string) :
  hasProp o k = false -> deleteProp o k = o.
Proof.
  unfold hasProp, deleteProp. induction o as [|[j w] rest IH]; cbn; [reflexivity|].
  intros H. apply orb_false_iff in H as [Hj Hrest]. rewrite Hj. cbn. now rewrite (IH Hrest).
Qed.

(** ** Rows *)

Lemma buildRowPropsLoop_keys (fuel : nat) (file : TFile) (schema : BaseSchemaResponse)
    (ps : list BaseSchemaProperty) :
  forall (props result : object),
    buildRowPropsLoop fuel file schema ps props = Some result ->
    (forall p, In p ps -> hasProp result (prop_key p) = true)
    /\ (forall k, hasProp props k = true -> hasProp result k = true).
Proof.
  induction ps as [|p rest IH]; intros props result H; cbn [buildRowPropsLoop] in H.
  - injection H as <-. split; [intros p [] | auto].
  - destruct (getValueForRef fuel file _ (Some schema)) as [v|]; [|discriminate H].
    destruct (IH _ _ H) as [Hrest Hkeep]. split.
    + intros q [<-|Hq]; [|apply Hrest, Hq].
      apply Hkeep. rewrite hasProp_setProp, String.eqb_refl. apply orb_true_r.
    + intros k Hk. apply Hkeep. rewrite hasProp_setProp, Hk. reflexivity.
Qed.

(** X22.  A row has a value for every property of the schema: when
    [buildRowProps] returns, each declared key, formula keys included, is a
    key of the [props] of the row. *)
Theorem row_has_every_property (fuel : nat) (file : TFile) (schema : BaseSchemaResponse)
    (props : object) (p : BaseSchemaProperty) :
  buildRowProps fuel file schema = Some props ->
  In p (schema_properties schema) ->
  hasProp props (prop_key p) = true.
Proof.
  intros H Hin. apply (proj1 (buildRowPropsLoop_keys _ _ _ _ _ _ H) p Hin).
Qed.

Lemma buildComputedLoop_values (fuel : nat) (file : TFile) (schema : BaseSchemaResponse)
    (keys : list string) :
  forall (computed result : object),
    buildComputedLoop fuel file schema keys computed = Some result ->
    (forall k, In k keys -> evalFormula fuel file k (Some schema) = Some (getProp result k))
    /\ (forall k, ~ In k keys -> getProp result k = getProp computed k).
Proof.
  induction keys as [|key rest IH]; intros computed result H; cbn [buildComputedLoop] in H.
  - injection H as <-. split; [intros k [] | auto].
  - destruct (evalFormula fuel file key (Some schema)) as [v|] eqn:E; [|discriminate H].
    destruct (IH _ _ H) as [Hrest Hkeep]. split.
    + intros k [<-|Hk]; [|apply Hrest, Hk].
      destruct (in_dec string_dec key rest) as [Hin|Hout]; [apply Hrest, Hin|].
      rewrite (Hkeep key Hout), getProp_setProp_same. exact E.
    + intros k Hk. rewrite (Hkeep k) by (intros Hin; apply Hk; now right).
      apply getProp_setProp_other. intros ->. apply Hk. now left.
Qed.

(** X23.  The computed map of a row holds the value of every formula: when
    [buildComputed] returns, the entry of each formula key of the schema
    is the result of evaluating that formula on the note. *)
Theorem computed_holds_formula_values (fuel : nat) (file : TFile)
    (schema : BaseSchemaResponse) (formulas computed : object) (key : string) :
  schema_formulas schema = Some formulas ->
  buildComputed fuel file schema = Some computed ->
  In key (keysOf formulas) ->
  evalFormula fuel file key (Some schema) = Some (getProp computed key).
Proof.
  unfold buildComputed, keysOf. intros Hf H Hin. rewrite Hf in H.
  apply (proj1 (buildComputedLoop_values _ _ _ _ _ _ H) key Hin).
Qed.

(** ** The frontmatter mutation *)

Lemma hasProp_false_getProp (o : object) (k : string) :
  hasProp o k = false -> getProp o k = VUndefined.
Proof.
  unfold hasProp. induction o as [|[j w] rest IH]; cbn; [reflexivity|].
  intros H. apply orb_false_iff in H as [Hj Hrest]. rewrite Hj. exact (IH Hrest).
Qed.

Lemma hasProp_deleteProp (o : object) (j k : string) :
  hasProp (deleteProp o j) k = hasProp o k && negb (String.eqb j k).
Proof.
  unfold hasProp, deleteProp. induction o as [|[i w] rest IH]; cbn; [reflexivity|].
  destruct (String.eqb i j) eqn:E; cbn.
  - apply String.eqb_eq in E. subst i. rewrite IH.
    destruct (String.eqb j k); cbn; [now rewrite andb_false_r | reflexivity].
  - rewrite IH. destruct (String.eqb i k) eqn:E'; cbn; [|reflexivity].
    apply String.eqb_eq in E'. subst i. now rewrite String.eqb_sym, E.
Qed.

Lemma applyUnset_cons (k : string) (ks : list string) (fm : object) :
  applyUnset (k :: ks) fm = applyUnset ks (deleteProp fm k).
Proof.
  unfold applyUnset. cbn [fold_left].
  destruct (hasProp fm k) eqn:E; [reflexivity | now rewrite (deleteProp_absent fm k E)].
Qed.

Lemma hasProp_applyUnset (ks : list string) :
  forall (fm : object) (k : string),
    hasProp (applyUnset ks fm) k = hasProp fm k && negb (existsb (String.eqb k) ks).
Proof.
  induction ks as [|j rest IH]; intros fm k.
  - cbn. now rewrite andb_true_r.
  - rewrite applyUnset_cons, IH, hasProp_deleteProp. cbn [existsb].
    rewrite negb_orb. rewrite (String.eqb_sym j k), andb_assoc. reflexivity.
Qed.

Lemma getProp_applyUnset_other (ks : list string) :
  forall (fm : object) (k : string),
    ~ In k ks -> getProp (applyUnset ks fm) k = getProp fm k.
Proof.
  induction ks as [|j rest IH]; intros fm k Hout; [reflexivity|].
  rewrite applyUnset_cons, IH by (intros H; apply Hout; now right).
  apply getProp_deleteProp_other. intros ->. apply Hout. now left.
Qed.

Lemma getProp_applySet_other (setObj : object) :
  forall (fm : object) (k : string),
    ~ In k (keysOf setObj) -> getProp (applySet setObj fm) k = getProp fm k.
Proof.
  unfold applySet, keysOf.
  induction setObj as [|[j w] rest IH]; intros fm k Hout; [reflexivity|].
  cbn [fold_left fst snd]. rewrite IH by (intros H; apply Hout; now right).
  apply getProp_setProp_other. intros ->. apply Hout. now left.
Qed.

Lemma getProp_applySet_in (setObj : object) :
  forall (fm : object) (k : string) (v : value),
    NoDup (keysOf setObj) -> In (k, v) setObj -> getProp (applySet setObj fm) k = v.
Proof.
  unfold applySet, keysOf.
  induction setObj as [|[j w] rest IH]; intros fm k v Hnd Hin; [destruct Hin|].
  cbn [map fst] in Hnd. inversion Hnd as [|? ? Hj Hrest]; subst.
  cbn [fold_left fst snd]. destruct Hin as [[= -> ->]|Hin].
  - fold (applySet rest (setProp fm k v)).
    rewrite (getProp_applySet_other rest _ k Hj). apply getProp_setProp_same.
  - apply (IH _ _ _ Hrest Hin).
Qed.

(** X24.  The frontmatter mutation of an upsert operation sets, then
    unsets: after it a key listed in [unset] is absent even when [set]
    names it too, a key of [set] that is not unset reads back the value
    given, and every other key keeps the value it had.  (The keys of the
    [set] object are distinct, as the keys of a JavaScript object are.) *)
Theorem mutator_sets_then_unsets (setObj : object) (unsetArr : list string) (fm : object)
    (k : string) :
  NoDup (keysOf setObj) ->
  (In k unsetArr ->
     hasProp (mutator setObj unsetArr fm) k = false
     /\ getProp (mutator setObj unsetArr fm) k = VUndefined)
  /\ (~ In k unsetArr ->
        forall v : value, In (k, v) setObj -> getProp (mutator setObj unsetArr fm) k = v)
  /\ (~ In k unsetArr -> ~ In k (keysOf setObj) ->
        getProp (mutator setObj unsetArr fm) k = getProp fm k).
Proof.
  intros Hnd. unfold mutator. split; [|split].
  - intros Hin.
    assert (H : hasProp (applyUnset unsetArr (applySet setObj fm)) k = false).
    { rewrite hasProp_applyUnset.
      replace (existsb (String.eqb k) unsetArr) with true; [apply andb_false_r|].
      symmetry. apply existsb_exists. exists k. split; [exact Hin | apply String.eqb_refl]. }
    split; [exact H | apply hasProp_false_getProp, H].
  - intros Hout v Hin. rewrite getProp_applyUnset_other by exact Hout.
    apply getProp_applySet_in; assumption.
  - intros Hout Hset. rewrite getProp_applyUnset_other by exact Hout.
    apply getProp_applySet_other, Hset.
Qed.

Lemma mutator_sets_then_unsets_witness :
  NoDup (keysOf [("status", VStr "done"); ("draft", VBool true)])
  /\ hasProp (mutator [("status", VStr "done"); ("draft", VBool true)] ["draft"]
                [("draft", VBool false); ("title", VStr "T")]) "draft" = false
  /\ getProp (mutator [("status", VStr "done"); ("draft", VBool true)] ["draft"]
                [("draft", VBool false); ("title", VStr "T")]) "status" = VStr "done".
Proof.
  assert (Hnd : NoDup (keysOf [("status", VStr "done"); ("draft", VBool true)])).
  { cbn. repeat constructor; cbn; intuition discriminate. }
  split; [exact Hnd|].
  destruct (mutator_sets_then_unsets [("status", VStr "done"); ("draft", VBool true)]
              ["draft"] [("draft", VBool false); ("title", VStr "T")] "draft" Hnd)
    as [Hunset _].
  destruct (mutator_sets_then_unsets [("status", VStr "done"); ("draft", VBool true)]
              ["draft"] [("draft", VBool false); ("title", VStr "T")] "status" Hnd)
    as [_ [Hset _]].
  split.
  - apply Hunset. now left.
  - apply Hset; [cbn; intuition discriminate | now left].
Defined.

(** ** The batch *)

Section BatchProperties.

Variable decodeURIComponent : string -> option string.
Variable processFrontMatter : Vault -> TFile -> (object -> object) -> string + Vault.

#[local] Abbreviation runOne := (upsertOne decodeURIComponent processFrontMatter).
#[local] Abbreviation runLoop := (upsertLoop decodeURIComponent processFrontMatter).
#[local] Abbreviation runBase := (upsertBase decodeURIComponent processFrontMatter).
#[local] Abbreviation target := (targetPath decodeURIComponent).
#[local] Abbreviation write := (writeFrontmatter processFrontMatter).

Lemma upsertOne_file (vault : Vault) (op : value) :
  res_file (snd (runOne vault op)) = target op.
Proof.
  unfold upsertOne. destruct (target op) as [|c s] eqn:E; [reflexivity|].
  cbn [Js.isEmpty].
  destruct (getAbstractFileByPath vault (String c s)) as [[abstract|folder]|];
    try reflexivity.
  destruct (mtimeConflict _ _); [reflexivity|].
  unfold writeFrontmatter. destruct (processFrontMatter _ _ _); reflexivity.
Qed.



Lemma removelast_snoc {A : Type} (l : list A) (x : A) : removelast (l ++ [x]) = l.
Proof. rewrite removelast_app by discriminate. cbn. apply app_nil_r. Qed.

Lemma upsertLoop_stop (ops : list value) :
  forall (vault : Vault) (acc : list BaseUpsertResult),
    forallb noError acc = true ->
    let results := snd (runLoop false vault ops acc) in
    forallb noError (removelast results) = true
    /\ (exists done : list value,
          (List.length done <= List.length ops)%nat
          /\ done = firstn (List.length done) ops
          /\ map res_file results = (map res_file acc ++ map target done)%list)
    /\ (forallb noError results = true ->
        map res_file results = (map res_file acc ++ map target ops)%list).
Proof.
  induction ops as [|op rest IH]; intros vault acc Hacc; cbn [upsertLoop].
  - cbn [snd]. split; [|split].
    + destruct acc as [|r acc'] using rev_ind; [reflexivity|].
      rewrite removelast_snoc. apply forallb_noError_app in Hacc. tauto.
    + exists []. cbn. rewrite app_nil_r. auto.
    + intros _. cbn. now rewrite app_nil_r.
  - pose proof (upsertOne_file vault op) as Hfile.
    destruct (runOne vault op) as [vault' result]. cbn [snd] in Hfile.
    cbn [negb]. rewrite andb_true_r.
    destruct (hasError result) eqn:Herr.
    + cbn [snd]. split; [|split].
      * now rewrite removelast_snoc.
      * exists [op]. cbn. split; [lia|]. split; [reflexivity|].
        rewrite map_app. cbn. now rewrite Hfile.
      * rewrite forallb_app. cbn. unfold noError at 2. rewrite Herr. cbn.
        rewrite andb_false_r. discriminate.
    + assert (Hacc' : forallb noError (acc ++ [result]) = true).
      { rewrite forallb_app, Hacc. cbn. unfold noError. now rewrite Herr. }
      destruct (IH vault' _ Hacc') as [Hinit [[done [Hlen [Hpre Hfiles]]] Hall]].
      split; [exact Hinit|]. split.
      * exists (op :: done). cbn [List.length firstn map]. split; [lia|].
        split; [now rewrite <- Hpre|].
        rewrite Hfiles, map_app. cbn [map]. rewrite Hfile, <- app_assoc. reflexivity.
      * intros Hok. rewrite (Hall Hok), map_app. cbn [map].
        rewrite Hfile, <- app_assoc. reflexivity.
Qed.

(** X26.  With [continueOnError] off, only the last result of a batch can
    carry an error: every result before the last is a success, the results
    answer a prefix of the operations in order, and when the response is
    [ok] every operation has been answered. *)
Theorem stop_on_error_fails_last_only (vault vault' : Vault) (body : value)
    (ops : list value) (resp : BaseUpsertResponse) :
  toBoolean (field body "continueOnError") = false ->
  field body "operations" = VArr ops ->
  runBase vault body = Some (vault', resp) ->
  forallb noError (removelast (upsert_results resp)) = true
  /\ (List.length (upsert_results resp) <= List.length ops)%nat
  /\ map res_file (upsert_results resp)
     = map target (firstn (List.length (upsert_results resp)) ops)
  /\ (upsert_ok resp = true -> List.length (upsert_results resp) = List.length ops).
Proof.
  intros Hcont Hops. unfold upsertBase, operationsOf. rewrite Hcont, Hops.
  pose proof (upsertLoop_stop ops vault [] eq_refl) as H. cbn zeta in H.
  destruct (runLoop false vault ops []) as [vault1 results]. cbn [snd map app] in H.
  intros [= <- <-]. cbn [upsert_results upsert_ok].
  destruct H as [Hinit [[done [Hlen [Hpre Hfiles]]] Hall]].
  assert (Hn : List.length results = List.length done).
  { rewrite <- (length_map res_file results), Hfiles. apply length_map. }
  split; [exact Hinit|]. split; [lia|]. split.
  - rewrite Hn, <- Hpre. exact Hfiles.
  - intros Hok. rewrite <- (length_map res_file results), (Hall Hok). apply length_map.
Qed.

(** X27.  An operation that is rejected before the write changes nothing:
    when the result of an operation carries an error other than
    [write_error], the error is one of [validation_error], [not_found] and
    [mtime_conflict], the vault is the one the operation started from, and
    the result reports no changed key. *)
Theorem rejected_operation_changes_nothing (vault : Vault) (op : value) (e : UpsertError) :
  res_error (snd (runOne vault op)) = Some e ->
  err_code e <> "write_error" ->
  fst (runOne vault op) = vault
  /\ res_changed (snd (runOne vault op)) = None
  /\ (err_code e = "validation_error" \/ err_code e = "not_found"
      \/ err_code e = "mtime_conflict").
Proof.
  unfold upsertOne.
  destruct (Js.isEmpty (target op)); [cbn; intros [= <-] _; auto|].
  destruct (getAbstractFileByPath vault (target op)) as [[abstract|folder]|];
    try (cbn; intros [= <-] _; auto).
  destruct (mtimeConflict _ _); [cbn; intros [= <-] _; auto|].
  unfold writeFrontmatter.
  destruct (processFrontMatter vault abstract _); cbn; [|discriminate].
  intros [= <-] Hne. now contradiction Hne.
Qed.

(** X28.  An [expected_mtime] that is not a number (a string of digits,
    a boolean, null) is not checked: when the target note exists the
    operation is the frontmatter write, and its result never carries
    [mtime_conflict]. *)
Theorem expected_mtime_must_be_a_number (vault : Vault) (op : value) :
  isNumberValue (field op "expected_mtime") = false ->
  (forall abstract : TFile,
     Js.isEmpty (target op) = false ->
     getAbstractFileByPath vault (target op) = Some (AFile abstract) ->
     runOne vault op = write vault (target op) abstract op)
  /\ (forall e : UpsertError,
        res_error (snd (runOne vault op)) = Some e -> err_code e <> "mtime_conflict").
Proof.
  intros Hnot.
  assert (Hguard : forall actual, mtimeConflict (expectedMtime op) actual = false).
  { intros actual. unfold expectedMtime, mtimeConflict.
    destruct (field op "expected_mtime"); try reflexivity. discriminate Hnot. }
  split.
  - intros abstract Hpath Hfile. unfold upsertOne.
    rewrite Hpath, Hfile, Hguard. reflexivity.
  - intros e. unfold upsertOne.
    destruct (Js.isEmpty (target op)); [cbn; intros [= <-]; discriminate|].
    destruct (getAbstractFileByPath vault (target op)) as [[abstract|folder]|];
      try (cbn; intros [= <-]; discriminate).
    rewrite Hguard. unfold writeFrontmatter.
    destruct (processFrontMatter vault abstract _); cbn; intros [= <-]; discriminate.
Qed.

End BatchProperties.


Lemma stop_on_error_fails_last_only_witness :
  match upsertBase decodePlain (writeAt 9000) projectVault
          (batchOf false [opB; opMissing; opLater]) with
  | Some (_, resp) =>
      forallb noError (removelast (upsert_results resp)) = true
      /\ (List.length (upsert_results resp) <= 3)%nat
      /\ map res_file (upsert_results resp)
         = map (targetPath decodePlain)
             (firstn (List.length (upsert_results resp)) [opB; opMissing; opLater])
      /\ (upsert_ok resp = true -> List.length (upsert_results resp) = 3%nat)
  | None => False
  end.
Proof.
  destruct (upsertBase decodePlain (writeAt 9000) projectVault
              (batchOf false [opB; opMissing; opLater])) as [[vault' resp]|] eqn:E.
  - exact (stop_on_error_fails_last_only decodePlain (writeAt 9000) projectVault vault'
             (batchOf false [opB; opMissing; opLater]) [opB; opMissing; opLater] resp
             eq_refl eq_refl E).
  - vm_compute in E. discriminate E.
Defined.

Lemma rejected_operation_changes_nothing_witness :
  res_error (snd (upsertOne decodePlain (writeAt 9000) projectVault opMissing))
  = Some {| err_code := "not_found"; err_message := "Note introuvable: Projects/None.md" |}
  /\ fst (upsertOne decodePlain (writeAt 9000) projectVault opMissing) = projectVault
  /\ res_changed (snd (upsertOne decodePlain (writeAt 9000) projectVault opMissing)) = None.
Proof.
  assert (H : res_error (snd (upsertOne decodePlain (writeAt 9000) projectVault opMissing))
              = Some {| err_code := "not_found";
                        err_message := "Note introuvable: Projects/None.md" |})
    by (vm_compute; reflexivity).
  split; [exact H|].
  destruct (rejected_operation_changes_nothing decodePlain (writeAt 9000) projectVault
              opMissing _ H) as [Hvault [Hchanged _]]; [cbn; discriminate|].
  split; assumption.
Defined.

Lemma expected_mtime_must_be_a_number_witness :
  isNumberValue (field opText "expected_mtime") = false
  /\ upsertOne decodePlain (writeAt 9000) projectVault opText
     = writeFrontmatter (writeAt 9000) projectVault (targetPath decodePlain opText)
         (notePriority 3) opText.
Proof.
  split; [reflexivity|].
  destruct (expected_mtime_must_be_a_number decodePlain (writeAt 9000) projectVault opText
              eq_refl) as [Hwrite _].
  apply Hwrite; vm_compute; reflexivity.
Defined.

Lemma row_has_every_property_witness :
  buildRowProps 3 (notePriority 3) taskSchema = Some [("status", VStr "done")]
  /\ hasProp [("status", VStr "done")] "status" = true.
Proof.
  assert (H : buildRowProps 3 (notePriority 3) taskSchema = Some [("status", VStr "done")])
    by (vm_compute; reflexivity).
  split; [exact H|].
  apply (row_has_every_property 3 (notePriority 3) taskSchema _
           {| prop_key := "status"; prop_kind := KindNote;
              prop_displayName := VUndefined; prop_valueType := VUndefined |} H).
  now left.
Defined.

Lemma computed_holds_formula_values_witness :
  match buildComputed 4 (notePriority 3)
          (schemaWithFormulas [("label", VStr "status"); ("big", VStr "priority")]) with
  | Some computed =>
      evalFormula 4 (notePriority 3) "big"
        (Some (schemaWithFormulas [("label", VStr "status"); ("big", VStr "priority")]))
      = Some (getProp computed "big")
  | None => False
  end.
Proof.
  destruct (buildComputed 4 (notePriority 3)
              (schemaWithFormulas [("label", VStr "status"); ("big", VStr "priority")]))
    as [computed|] eqn:E.
  - apply (computed_holds_formula_values 4 (notePriority 3)
             (schemaWithFormulas [("label", VStr "status"); ("big", VStr "priority")])
             [("label", VStr "status"); ("big", VStr "priority")] computed "big"
             eq_refl E).
    cbn. auto.
  - vm_compute in E. discriminate E.
Defined.

(** ** Schema extraction *)

Lemma extractSchema_keys (basePath : string) (spec : object) :
  map prop_key (schema_properties (extractSchema basePath spec))
  = (keysOf (entriesOf (getProp spec "properties"))
     ++ keysOf (entriesOf (getProp spec "formulas")))%list.
Proof.
  unfold extractSchema, keysOf. cbn [schema_properties].
  rewrite map_app, !map_map. reflexivity.
Qed.

(** X29.  Every key that a base declares, under [properties] or under
    [formulas], is a column of every row built from the extracted schema:
    when [buildRowProps] returns on the schema of [extractSchema], the
    [props] of the row have each declared key. *)
Theorem declared_keys_are_row_columns (fuel : nat) (file : TFile) (basePath : string)
    (spec props : object) (key : string) :
  buildRowProps fuel file (extractSchema basePath spec) = Some props ->
  In key (keysOf (entriesOf (getProp spec "properties"))
          ++ keysOf (entriesOf (getProp spec "formulas")))%list ->
  hasProp props key = true.
Proof.
  intros H Hin. rewrite <- (extractSchema_keys basePath spec) in Hin.
  apply in_map_iff in Hin as [p [<- Hp]].
  apply (proj1 (buildRowPropsLoop_keys _ _ _ _ _ _ H) p Hp).
Qed.

Lemma declared_keys_are_row_columns_witness :
  match buildRowProps 3 (notePriority 3) (extractSchema "Tasks.base" taskSpec) with
  | Some props =>
      hasProp props "status" = true /\ hasProp props "file.name" = true
      /\ hasProp props "label" = true
  | None => False
  end.
Proof.
  destruct (buildRowProps 3 (notePriority 3) (extractSchema "Tasks.base" taskSpec))
    as [props|] eqn:E.
  - repeat split;
      apply (declared_keys_are_row_columns 3 (notePriority 3) "Tasks.base" taskSpec props
               _ E);
      cbn; auto.
  - vm_compute in E. discriminate E.
Defined.

Lemma lastWithKey_cons (k : string) (p : BaseSchemaProperty) (rest : list BaseSchemaProperty) :
  lastWithKey k (p :: rest)
  = match lastWithKey k rest with
    | Some q => Some q
    | None => if String.eqb (prop_key p) k then Some p else None
    end.
Proof.
  unfold lastWithKey. cbn [rev].
  induction (rev rest) as [|q l IH]; cbn; [reflexivity|].
  destruct (String.eqb (prop_key q) k); [reflexivity | exact IH].
Qed.

Lemma lastWithKey_app (k : string) (ps qs : list BaseSchemaProperty) (q : BaseSchemaProperty) :
  lastWithKey k qs = Some q -> lastWithKey k (ps ++ qs) = Some q.
Proof.
  intros H. induction ps as [|p rest IH]; [exact H|].
  cbn [app]. rewrite lastWithKey_cons, IH. reflexivity.
Qed.

Lemma lastWithKey_in (k : string) (ps : list BaseSchemaProperty) :
  In k (map prop_key ps) ->
  exists p, lastWithKey k ps = Some p /\ In p ps /\ prop_key p = k.
Proof.
  intros Hin. unfold lastWithKey.
  destruct (find (fun p => String.eqb (prop_key p) k) (rev ps)) as [p|] eqn:E.
  - apply find_some in E as [Hp Hk]. exists p. split; [reflexivity|].
    split; [now apply in_rev | now apply String.eqb_eq].
  - apply in_map_iff in Hin as [p [Hk Hp]].
    pose proof (find_none _ _ E p (proj1 (in_rev ps p) Hp)) as Hno. cbv beta in Hno.
    rewrite Hk, String.eqb_refl in Hno. discriminate Hno.
Qed.

(** The value of a column is the one resolved for the last property with
    its key. *)
Lemma buildRowPropsLoop_value (fuel : nat) (file : TFile) (schema : BaseSchemaResponse)
    (k : string) (ps : list BaseSchemaProperty) :
  forall (props result : object),
    buildRowPropsLoop fuel file schema ps props = Some result ->
    match lastWithKey k ps with
    | Some p => getValueForRef fuel file (columnRef p) (Some schema) = Some (getProp result k)
    | None => getProp result k = getProp props k
    end.
Proof.
  induction ps as [|p rest IH]; intros props result H; cbn [buildRowPropsLoop] in H.
  - injection H as <-. reflexivity.
  - fold (columnRef p) in H.
    destruct (getValueForRef fuel file (columnRef p) (Some schema)) as [v|] eqn:E;
      [|discriminate H].
    specialize (IH _ _ H). rewrite lastWithKey_cons.
    destruct (lastWithKey k rest) as [q|]; [exact IH|].
    rewrite IH. destruct (String.eqb (prop_key p) k) eqn:Ek.
    + apply String.eqb_eq in Ek. subst k. rewrite getProp_setProp_same. exact E.
    + apply getProp_setProp_other. intros Heq. rewrite Heq, String.eqb_refl in Ek.
      discriminate Ek.
Qed.

Lemma getValueForRef_formula (fuel : nat) (file : TFile) (key : string)
    (schema : option BaseSchemaResponse) :
  Js.trim key = key ->
  getValueForRef fuel file (formulaRef key) schema = evalFormula fuel file key schema.
Proof.
  intros Htrim. unfold getValueForRef, getValueForRefWith, formulaRef, evalFormula.
  rewrite (trim_prefixed "formula." key) by first [exact Htrim | reflexivity | discriminate].
  change (Js.startsWith ("formula." ++ key) "file.") with false.
  change (Js.startsWith ("formula." ++ key) "note.") with false.
  unfold Js.startsWith. rewrite (prefix_append "formula." key).
  replace (Js.sliceFrom ("formula." ++ key) 8) with key
    by (symmetry; apply (sliceFrom_append "formula." key)).
  reflexivity.
Qed.

(** X30.  The two places of a row where a formula shows agree: for a
    schema extracted from a base and a formula key without surrounding
    white space, the column of the key in [props] is the value stored for
    it in [computed], also when [properties] declares the same key. *)
Theorem formula_column_is_computed_value (fuel : nat) (file : TFile) (basePath : string)
    (spec formulas props computed : object) (key : string) :
  getProp spec "formulas" = VObj formulas ->
  In key (keysOf formulas) ->
  Js.trim key = key ->
  buildRowProps fuel file (extractSchema basePath spec) = Some props ->
  buildComputed fuel file (extractSchema basePath spec) = Some computed ->
  getProp props key = getProp computed key.
Proof.
  intros Hf Hin Htrim Hprops Hcomputed.
  assert (Hvalue : evalFormula fuel file key (Some (extractSchema basePath spec))
                   = Some (getProp computed key)).
  { unfold buildComputed in Hcomputed.
    assert (Hs : schema_formulas (extractSchema basePath spec) = Some formulas)
      by (unfold extractSchema; cbn [schema_formulas]; now rewrite Hf).
    rewrite Hs in Hcomputed.
    apply (proj1 (buildComputedLoop_values _ _ _ _ _ _ Hcomputed) key Hin). }
  pose proof (buildRowPropsLoop_value fuel file _ key _ _ _ Hprops) as Hlast.
  assert (Hq : exists q, lastWithKey key (schema_properties (extractSchema basePath spec))
                         = Some q /\ columnRef q = formulaRef key).
  { unfold extractSchema. cbn [schema_properties]. rewrite Hf. cbn [entriesOf].
    destruct (lastWithKey_in key (map formulaProperty formulas)) as [q [Hq [Hmem Hk]]].
    { rewrite map_map. exact Hin. }
    exists q. split; [apply lastWithKey_app, Hq|].
    apply in_map_iff in Hmem as [kv [<- _]]. cbn in Hk |- *. unfold columnRef. cbn.
    now rewrite Hk. }
  destruct Hq as [q [Hq Href]]. rewrite Hq, Href, getValueForRef_formula in Hlast by exact Htrim.
  congruence.
Qed.

Lemma formula_column_is_computed_value_witness :
  Js.trim "label" = "label"
  /\ match buildRowProps 3 (notePriority 3) (extractSchema "Tasks.base" taskSpec),
           buildComputed 3 (notePriority 3) (extractSchema "Tasks.base" taskSpec) with
     | Some props, Some computed => getProp props "label" = getProp computed "label"
     | _, _ => False
     end.
Proof.
  split; [reflexivity|].
  destruct (buildRowProps 3 (notePriority 3) (extractSchema "Tasks.base" taskSpec))
    as [props|] eqn:E1; [|vm_compute in E1; discriminate E1].
  destruct (buildComputed 3 (notePriority 3) (extractSchema "Tasks.base" taskSpec))
    as [computed|] eqn:E2; [|vm_compute in E2; discriminate E2].
  apply (formula_column_is_computed_value 3 (notePriority 3) "Tasks.base" taskSpec
           [("label", VStr "status")] props computed "label");
    first [reflexivity | assumption | (cbn; auto)].
Defined.
